(** * Sales department: workflow orchestration and pipeline state

    A shallow embedding of [JarvisAlive/departments/sales/sales_department.py]
    and the properties of its lead scoring, nurture, scheduling, reporting and
    orchestration code.

    Conventions of the embedding
    - Python [int] is [Z]; Python [float] is [Q] (every value the code computes
      with is a finite rational; NaN and infinities are outside the model).
    - Python [str] is [string]; [dict]s with a fixed set of string keys read
      with [.get] are records with [option] fields; [dict]s used as tables
      keep their insertion order and are association lists ([PyDict]).
    - [self] and the process clock are threaded explicitly through a state and
      exception monad; [try/except Exception] is [try_catch]. *)

From Stdlib Require Import ZArith QArith Qminmax Qround List String Ascii Bool Lia.
From Stdlib Require Import DecimalString DecimalZ DecimalPos.
Import ListNotations.

Local Open Scope string_scope.
Local Open Scope list_scope.

(* ================================================================= *)
(** ** Python strings *)

Module PyStr.

  (** [c.lower()] on one ASCII character. *)
Definition lower_ascii (c : ascii) : ascii :=
    let n := nat_of_ascii c in
    if (65 <=? n)%nat && (n <=? 90)%nat then ascii_of_nat (n + 32) else c.

  (** [s.lower()]. *)
Fixpoint lower (s : string) : string :=
    match s with
    | EmptyString => EmptyString
    | String c s' => String (lower_ascii c) (lower s')
    end.

  (** [needle in hay] for strings: [needle] occurs as a contiguous
      substring of [hay]. *)
Fixpoint contains (hay needle : string) : bool :=
    String.prefix needle hay ||
    match hay with
    | EmptyString => false
    | String _ hay' => contains hay' needle
    end.

  (** [str(n)] for an integer. *)
Definition of_Z (n : Z) : string := NilZero.string_of_int (Z.to_int n).

End PyStr.

(* ================================================================= *)
(** ** Scoring engine: [_calculate_lead_score] *)

(** The [lead_data] dict: three optional string entries read with
    [.get(key, "")]. *)
Record LeadData := {
  ld_title : option string;
  ld_industry : option string;
  ld_company_size : option string
}.

Definition get_str (o : option string) : string :=
  match o with Some s => s | None => "" end.

(** [self.lead_scoring_criteria], in the order the literals are written. *)
Definition title_keywords : list string :=
  ["ceo"; "cto"; "vp"; "director"; "manager"; "head"].

Definition company_size_bonus : list (string * Z) :=
  [("startup", 5%Z); ("enterprise", 10%Z); ("mid-market", 8%Z)].

Definition industry_match : list string :=
  ["saas"; "technology"; "software"; "fintech"].

Definition engagement_bonus : Z := 15.

(** [for k in keys: if k in text: score += amount; break]. *)
Fixpoint add_on_first_match (keys : list string) (text : string)
         (amount score : Q) : Q :=
  match keys with
  | [] => score
  | k :: keys' =>
      if PyStr.contains text k then (score + amount)%Q
      else add_on_first_match keys' text amount score
  end.

(** [for size, bonus in table.items(): if size in text: score += bonus; break]. *)
Fixpoint add_first_bonus (table : list (string * Z)) (text : string)
         (score : Q) : Q :=
  match table with
  | [] => score
  | (size, bonus) :: table' =>
      if PyStr.contains text size then (score + inject_Z bonus)%Q
      else add_first_bonus table' text score
  end.

(** [min(a, b)] on floats: the first argument unless the second is
    strictly smaller. *)
Definition py_min (a b : Q) : Q := if Qlt_le_dec b a then b else a.

Definition _calculate_lead_score (lead_data : LeadData) : Q :=
  let score := 5%Q in
  let title := PyStr.lower (get_str (ld_title lead_data)) in
  let score := add_on_first_match title_keywords title 2 score in
  let company_size := PyStr.lower (get_str (ld_company_size lead_data)) in
  let score := add_first_bonus company_size_bonus company_size score in
  let industry := PyStr.lower (get_str (ld_industry lead_data)) in
  let score := add_on_first_match industry_match industry 3 score in
  py_min score 10.

(** The reference computation, following the wording of the specification:
    base 5.0; +2.0 if the lowercased title contains any title keyword;
    the size bonus 5/8/10 of the first matching of startup, mid-market,
    enterprise; +3.0 if the lowercased industry contains any industry
    keyword; the result clamped to at most 10.0. *)
Definition spec_size_table : list (string * Q) :=
  [("startup", 5%Q); ("mid-market", 8%Q); ("enterprise", 10%Q)].

Definition spec_size_bonus (company_size : string) : Q :=
  match find (fun entry => PyStr.contains company_size (fst entry))
             spec_size_table with
  | Some (_, bonus) => bonus
  | None => 0
  end.

Definition spec_lead_score (title company_size industry : string) : Q :=
  let t := PyStr.lower title in
  let c := PyStr.lower company_size in
  let i := PyStr.lower industry in
  Qmin 10
    (5 + (if existsb (PyStr.contains t) title_keywords then 2 else 0)
       + spec_size_bonus c
       + (if existsb (PyStr.contains i) industry_match then 3 else 0))%Q.

(* ================================================================= *)
(** ** Exceptions, results and the state monad *)

(** A Python exception: [type(e).__name__] and [str(e)]. *)
Record exn := { exn_type : string; exn_msg : string }.

Definition ZeroDivisionError : exn :=
  {| exn_type := "ZeroDivisionError";
     exn_msg := "integer division or modulo by zero" |}.

Definition ValueError (msg : string) : exn :=
  {| exn_type := "ValueError"; exn_msg := msg |}.

Definition RecursionError : exn :=
  {| exn_type := "RecursionError";
     exn_msg := "maximum recursion depth exceeded" |}.

Inductive result (A : Type) : Type :=
| Ok (a : A)
| Raise (e : exn).
Arguments Ok {A} a.
Arguments Raise {A} e.

(** A computation over a mutable state [S]: it returns or raises, and in
    both cases leaves a state behind (mutations made before an exception
    stay made). *)
Definition M (S A : Type) : Type := S -> result A * S.

Definition ret {S A} (a : A) : M S A := fun s => (Ok a, s).

Definition bind {S A B} (c : M S A) (k : A -> M S B) : M S B :=
  fun s =>
    match c s with
    | (Ok a, s') => k a s'
    | (Raise e, s') => (Raise e, s')
    end.

Definition raise {S A} (e : exn) : M S A := fun s => (Raise e, s).

(** [try: c  except Exception as e: h e]. *)
Definition try_catch {S A} (c : M S A) (h : exn -> M S A) : M S A :=
  fun s =>
    match c s with
    | (Ok a, s') => (Ok a, s')
    | (Raise e, s') => h e s'
    end.

Definition gets {S A} (f : S -> A) : M S A := fun s => (Ok (f s), s).
Definition modify {S} (f : S -> S) : M S unit := fun s => (Ok tt, f s).

(** A call into a collaborator that returns or raises without touching
    the state. *)
Definition lift_result {S A} (r : result A) : M S A := fun s => (r, s).

Notation "x <- c ;; k" := (bind c (fun x => k))
  (at level 61, c at next level, right associativity).
Notation "c ;; k" := (bind c (fun _ => k))
  (at level 61, right associativity).

(** [for x in xs: body x]. *)
Fixpoint for_each {S A} (xs : list A) (body : A -> M S unit) : M S unit :=
  match xs with
  | [] => ret tt
  | x :: xs' => body x ;; for_each xs' body
  end.

(** A block that owns a local variable of type [L] next to the state [S]. *)
Definition on_self {S L A} (c : M S A) : M (S * L) A :=
  fun sl =>
    let '(r, s') := c (fst sl) in (r, (s', snd sl)).

Definition on_local {S L} (f : L -> L) : M (S * L) unit :=
  fun sl => (Ok tt, (fst sl, f (snd sl))).

Definition with_local {S L A} (init : L) (c : M (S * L) A) : M S L :=
  fun s =>
    let '(r, sl) := c (s, init) in
    (match r with Ok _ => Ok (snd sl) | Raise e => Raise e end, fst sl).

(* ================================================================= *)
(** ** Python dicts used as tables *)

Module PyDict.
Section Dict.
Context {V : Type}.

  (** Entries in insertion order. *)
Definition t : Type := list (string * V).

  (** [d.get(k)]. *)
Fixpoint get (k : string) (d : t) : option V :=
    match d with
    | [] => None
    | (k', v) :: d' => if String.eqb k' k then Some v else get k d'
    end.

  (** [k in d]. *)
Definition mem (k : string) (d : t) : bool :=
    match get k d with Some _ => true | None => false end.

  (** [d[k] = v]: an existing key keeps its position and gets the new
      value, a new key is appended. *)
Fixpoint set (k : string) (v : V) (d : t) : t :=
    match d with
    | [] => [(k, v)]
    | (k', v') :: d' =>
        if String.eqb k' k then (k', v) :: d' else (k', v') :: set k v d'
    end.

  (** [d[k].field = ...]: mutate the value stored under an existing key. *)
Fixpoint update (k : string) (f : V -> V) (d : t) : t :=
    match d with
    | [] => []
    | (k', v') :: d' =>
        if String.eqb k' k then (k', f v') :: d' else (k', v') :: update k f d'
    end.

Definition keys (d : t) : list string := map fst d.
Definition values (d : t) : list V := map snd d.

  (** Number of entries stored under [k]. *)
Definition count (k : string) (d : t) : nat :=
    List.length (filter (fun kv => String.eqb (fst kv) k) d).

  (** The table is a dict: no key occurs twice. *)
Definition wf (d : t) : Prop := NoDup (keys d).
End Dict.
Arguments t V : clear implicits.
End PyDict.

(* ================================================================= *)
(** ** Data model *)

(** A [datetime], in microseconds since the epoch. *)
Definition datetime : Type := Z.

Definition timedelta_days (d : Z) : Z := (d * 86400 * 1000000)%Z.

(** [(t2 - t1).total_seconds()]. *)
Definition total_seconds (delta : Z) : Q := Qmake delta 1000000.

(** [int(t.timestamp())]. *)
Definition timestamp_int (t : datetime) : Z := Z.quot t 1000000.

(** Lead objects live in an object store and are named by their address:
    the same object is reachable from [leads_database], from the list a
    nurture call is given and from the [Prospect] that wraps it. *)
Definition addr : Type := nat.

Module Lead.
Record t := mk {
    id : string;
    name : string;
    email : string;
    company : string;
    title : string;
    source : string;
    score : Q;
    created_at : datetime;
    status : string;
    contact_attempts : Z;
    last_contacted : option datetime;
    notes : list string
  }.

Definition with_status (v : string) (l : t) : t :=
    mk (id l) (name l) (email l) (company l) (title l) (source l) (score l)
       (created_at l) v (contact_attempts l) (last_contacted l) (notes l).

Definition with_contact_attempts (v : Z) (l : t) : t :=
    mk (id l) (name l) (email l) (company l) (title l) (source l) (score l)
       (created_at l) (status l) v (last_contacted l) (notes l).

Definition with_last_contacted (v : option datetime) (l : t) : t :=
    mk (id l) (name l) (email l) (company l) (title l) (source l) (score l)
       (created_at l) (status l) (contact_attempts l) v (notes l).

Definition with_notes (v : list string) (l : t) : t :=
    mk (id l) (name l) (email l) (company l) (title l) (source l) (score l)
       (created_at l) (status l) (contact_attempts l) (last_contacted l) v.
End Lead.

Module Prospect.
Record t := mk {
    lead : addr;
    qualification_score : Q;
    pain_points : list string;
    budget_range : option string;
    timeline : option string;
    decision_maker : bool;
    next_action : string;
    meeting_scheduled : bool
  }.

Definition with_meeting_scheduled (v : bool) (p : t) : t :=
    mk (lead p) (qualification_score p) (pain_points p) (budget_range p)
       (timeline p) (decision_maker p) (next_action p) v.

Definition with_next_action (v : string) (p : t) : t :=
    mk (lead p) (qualification_score p) (pain_points p) (budget_range p)
       (timeline p) (decision_maker p) v (meeting_scheduled p).
End Prospect.

(** The meeting dict built by [schedule_meetings]. *)
Module Meeting.
Record t := mk {
    id : string;
    prospect_id : option string;
    type : string;
    scheduled_time : string;
    duration : Z;
    status : string;
    created_at : string
  }.
End Meeting.

Module DepartmentMetrics.
Record t := mk {
    leads_generated : Z;
    leads_qualified : Z;
    messages_composed : Z;
    emails_sent : Z;
    responses_received : Z;
    meetings_booked : Z;
    total_workflows_executed : Z;
    average_execution_time : Q;
    last_execution : option datetime;
    success_rate : Q;
    personalization_score : Q;
    response_rate : Q
  }.

  (** [DepartmentMetrics()]: the declared defaults. *)
Definition initial : t := mk 0 0 0 0 0 0 0 0 None 0 0 0.

Definition with_leads_generated (v : Z) (m : t) : t :=
    mk v (leads_qualified m) (messages_composed m) (emails_sent m)
       (responses_received m) (meetings_booked m)
       (total_workflows_executed m) (average_execution_time m)
       (last_execution m) (success_rate m) (personalization_score m)
       (response_rate m).

Definition with_leads_qualified (v : Z) (m : t) : t :=
    mk (leads_generated m) v (messages_composed m) (emails_sent m)
       (responses_received m) (meetings_booked m)
       (total_workflows_executed m) (average_execution_time m)
       (last_execution m) (success_rate m) (personalization_score m)
       (response_rate m).

Definition with_messages_composed (v : Z) (m : t) : t :=
    mk (leads_generated m) (leads_qualified m) v (emails_sent m)
       (responses_received m) (meetings_booked m)
       (total_workflows_executed m) (average_execution_time m)
       (last_execution m) (success_rate m) (personalization_score m)
       (response_rate m).

Definition with_total_workflows_executed (v : Z) (m : t) : t :=
    mk (leads_generated m) (leads_qualified m) (messages_composed m)
       (emails_sent m) (responses_received m) (meetings_booked m)
       v (average_execution_time m)
       (last_execution m) (success_rate m) (personalization_score m)
       (response_rate m).

Definition with_average_execution_time (v : Q) (m : t) : t :=
    mk (leads_generated m) (leads_qualified m) (messages_composed m)
       (emails_sent m) (responses_received m) (meetings_booked m)
       (total_workflows_executed m) v
       (last_execution m) (success_rate m) (personalization_score m)
       (response_rate m).

Definition with_last_execution (v : option datetime) (m : t) : t :=
    mk (leads_generated m) (leads_qualified m) (messages_composed m)
       (emails_sent m) (responses_received m) (meetings_booked m)
       (total_workflows_executed m) (average_execution_time m)
       v (success_rate m) (personalization_score m)
       (response_rate m).

Definition with_success_rate (v : Q) (m : t) : t :=
    mk (leads_generated m) (leads_qualified m) (messages_composed m)
       (emails_sent m) (responses_received m) (meetings_booked m)
       (total_workflows_executed m) (average_execution_time m)
       (last_execution m) v (personalization_score m)
       (response_rate m).

Definition with_personalization_score (v : Q) (m : t) : t :=
    mk (leads_generated m) (leads_qualified m) (messages_composed m)
       (emails_sent m) (responses_received m) (meetings_booked m)
       (total_workflows_executed m) (average_execution_time m)
       (last_execution m) (success_rate m) v
       (response_rate m).

Definition with_response_rate (v : Q) (m : t) : t :=
    mk (leads_generated m) (leads_qualified m) (messages_composed m)
       (emails_sent m) (responses_received m) (meetings_booked m)
       (total_workflows_executed m) (average_execution_time m)
       (last_execution m) (success_rate m) (personalization_score m)
       v.
End DepartmentMetrics.

(* ================================================================= *)
(** ** External collaborators *)

(** Modelled from the spec: the lead discovery provider's criteria record
    ([.agents.lead_scanner_implementation.ScanCriteria] is not part of the
    sources): industries, titles, company sizes, a minimum score and a
    maximum result count. *)
Record ScanCriteria := {
  sc_industries : list string;
  sc_titles : list string;
  sc_company_sizes : option (list string);
  sc_min_score : Q;
  sc_max_results : Z
}.

(** Modelled from the spec: a Lead-like record returned by the discovery
    provider, with the attributes this file reads from it. *)
Record ScannedLead := {
  lead_id : string;
  contact_full_name : string;
  company_name : string;
  outreach_priority : string;
  lead_json : string
}.

(** Modelled from the spec: the discovery provider, [scan(criteria)]. *)
Record LeadScannerAgent := {
  scan_for_leads : ScanCriteria -> result (list ScannedLead)
}.

(** Modelled from the spec: the tone enumeration of the composition
    provider; only [FORMAL] is named by this file. *)
Inductive ToneStyle :=
| FORMAL
| OtherTone (value : string).

(** Modelled from the spec: the composition provider's configuration. *)
Record OutreachConfig := {
  oc_category : string;
  oc_tone : ToneStyle;
  oc_personalization_depth : string;
  oc_sender_name : string;
  oc_sender_title : string;
  oc_sender_company : string
}.

(** Modelled from the spec: a composed message. *)
Record OutreachMessage := {
  subject : string;
  body : string;
  personalization_score : Q;
  predicted_response_rate : Q;
  ab_variants : list string
}.

(** Modelled from the spec: the composition provider, [compose(lead, config)]. *)
Record OutreachComposerAgent := {
  compose_outreach : ScannedLead -> OutreachConfig -> result OutreachMessage
}.

(** Modelled from the spec: the persistent checkpoint store,
    [set_with_ttl(key, ttl_seconds, value)]. *)
Record RedisClient := {
  setex : string -> Z -> string -> result unit
}.

(* ================================================================= *)
(** ** The department object *)

(** [self], together with the object store of Lead objects and the number
    of clock readings made so far. *)
Record World := mkWorld {
  session_id : string;
  metrics : DepartmentMetrics.t;
  lead_scanner : option LeadScannerAgent;
  outreach_composer : option OutreachComposerAgent;
  redis_client : option RedisClient;
  heap : addr -> Lead.t;
  next_addr : addr;
  leads_database : PyDict.t addr;
  prospects_pipeline : PyDict.t Prospect.t;
  meetings_scheduled : list Meeting.t;
  clock_reads : nat
}.

Definition with_metrics (v : DepartmentMetrics.t) (w : World) : World :=
  mkWorld (session_id w) v (lead_scanner w) (outreach_composer w)
          (redis_client w) (heap w) (next_addr w) (leads_database w)
          (prospects_pipeline w) (meetings_scheduled w) (clock_reads w).

Definition with_heap (v : addr -> Lead.t) (w : World) : World :=
  mkWorld (session_id w) (metrics w) (lead_scanner w) (outreach_composer w)
          (redis_client w) v (next_addr w) (leads_database w)
          (prospects_pipeline w) (meetings_scheduled w) (clock_reads w).

Definition with_next_addr (v : addr) (w : World) : World :=
  mkWorld (session_id w) (metrics w) (lead_scanner w) (outreach_composer w)
          (redis_client w) (heap w) v (leads_database w)
          (prospects_pipeline w) (meetings_scheduled w) (clock_reads w).

Definition with_leads_database (v : PyDict.t addr) (w : World) : World :=
  mkWorld (session_id w) (metrics w) (lead_scanner w) (outreach_composer w)
          (redis_client w) (heap w) (next_addr w) v
          (prospects_pipeline w) (meetings_scheduled w) (clock_reads w).

Definition with_prospects_pipeline (v : PyDict.t Prospect.t) (w : World)
  : World :=
  mkWorld (session_id w) (metrics w) (lead_scanner w) (outreach_composer w)
          (redis_client w) (heap w) (next_addr w) (leads_database w)
          v (meetings_scheduled w) (clock_reads w).

Definition with_meetings_scheduled (v : list Meeting.t) (w : World) : World :=
  mkWorld (session_id w) (metrics w) (lead_scanner w) (outreach_composer w)
          (redis_client w) (heap w) (next_addr w) (leads_database w)
          (prospects_pipeline w) v (clock_reads w).

Definition with_clock_reads (v : nat) (w : World) : World :=
  mkWorld (session_id w) (metrics w) (lead_scanner w) (outreach_composer w)
          (redis_client w) (heap w) (next_addr w) (leads_database w)
          (prospects_pipeline w) (meetings_scheduled w) v.

(** What the process is given from outside [self]: the system clock (its
    successive readings), the rendering of a datetime in ISO format, the
    inherited [save_state] (which persists [self] and may raise, and does
    not change the tables) and the lookup of a tone by value. *)
Record Env := {
  clock : nat -> datetime;
  isoformat : datetime -> string;
  save_state : World -> option exn;
  tone_of_value : string -> option ToneStyle
}.

(** The lead objects: reading an attribute and mutating an object in place. *)
Definition get_lead (a : addr) : M World Lead.t :=
  gets (fun w => heap w a).

Definition update_lead (a : addr) (f : Lead.t -> Lead.t) : M World unit :=
  modify (fun w =>
    with_heap (fun a' => if Nat.eqb a' a then f (heap w a') else heap w a') w).

(** [Lead(...)]: a new object. *)
Definition new_lead (l : Lead.t) : M World addr :=
  fun w =>
    let a := next_addr w in
    (Ok a,
     with_next_addr (S a)
       (with_heap (fun a' => if Nat.eqb a' a then l else heap w a') w)).

Definition update_metrics_field (f : DepartmentMetrics.t -> DepartmentMetrics.t)
  : M World unit :=
  modify (fun w => with_metrics (f (metrics w)) w).

(* ================================================================= *)
(** ** Requests and results *)

Definition default {A} (d : A) (o : option A) : A :=
  match o with Some a => a | None => d end.

(** The [criteria] dict of the mock lead generator. *)
Record Criteria := {
  cr_titles : option (list string);
  cr_industries : option (list string);
  cr_company_sizes : option (list string);
  cr_max_leads : option Z
}.

Definition empty_criteria : Criteria :=
  {| cr_titles := None; cr_industries := None; cr_company_sizes := None;
     cr_max_leads := None |}.

(** One entry of the [prospects] list given to [schedule_meetings]. *)
Record ProspectData := {
  pd_prospect_id : option string;
  pd_meeting_type : option string;
  pd_preferred_times : option (list string)
}.

(** The workflow [config] / [task] dict. *)
Record Config := mkConfig {
  cfg_workflow_type : option string;
  cfg_industries : option (list string);
  cfg_titles : option (list string);
  cfg_company_sizes : option (list string);
  cfg_min_score : option Q;
  cfg_max_results : option Z;
  cfg_campaign_size : option Z;
  cfg_message_tone : option string;
  cfg_sender_name : option string;
  cfg_sender_title : option string;
  cfg_sender_company : option string;
  cfg_criteria : option Criteria;
  cfg_lead_criteria : option Criteria;
  cfg_lead_ids : option (list string);
  cfg_prospects : option (list ProspectData)
}.

(** [{}]. *)
Definition empty_config : Config :=
  mkConfig None None None None None None None None None None None
           None None None None.

(** [{"workflow_type": name}]. *)
Definition config_for (name : string) : Config :=
  mkConfig (Some name) None None None None None None None None None None
           None None None None.

(** [{"criteria": c}], [{"lead_ids": ids}], [{"prospects": ps}]. *)
Definition config_criteria (c : Criteria) : Config :=
  mkConfig None None None None None None None None None None None
           (Some c) None None None.

Definition config_lead_ids (ids : list string) : Config :=
  mkConfig None None None None None None None None None None None
           None None (Some ids) None.

Definition config_prospects (ps : list ProspectData) : Config :=
  mkConfig None None None None None None None None None None None
           None None None (Some ps).

(** The dict a stage method returns: its results, or
    [{"success": False, "error": str(e)}]. *)
Inductive StageOutcome (R : Type) : Type :=
| Done (results : R)
| Failed (error : string).
Arguments Done {R} results.
Arguments Failed {R} error.

Module NurturingResults.
Record t := mk {
    leads_contacted : Z;
    emails_sent : Z;
    responses_received : Z;
    prospects_qualified : Z;
    errors : list string
  }.
Definition initial : t := mk 0 0 0 0 [].
Definition incr_leads_contacted (r : t) : t :=
    mk (leads_contacted r + 1) (emails_sent r) (responses_received r)
       (prospects_qualified r) (errors r).
Definition incr_emails_sent (r : t) : t :=
    mk (leads_contacted r) (emails_sent r + 1) (responses_received r)
       (prospects_qualified r) (errors r).
Definition incr_prospects_qualified (r : t) : t :=
    mk (leads_contacted r) (emails_sent r) (responses_received r)
       (prospects_qualified r + 1) (errors r).
Definition append_error (e : string) (r : t) : t :=
    mk (leads_contacted r) (emails_sent r) (responses_received r)
       (prospects_qualified r) (errors r ++ [e]).
End NurturingResults.

Module SchedulingResults.
Record t := mk {
    meetings_requested : Z;
    meetings_confirmed : Z;
    calendar_conflicts : Z;
    scheduled_meetings : list Meeting.t;
    errors : list string
  }.
Definition initial : t := mk 0 0 0 [] [].
Definition incr_meetings_requested (r : t) : t :=
    mk (meetings_requested r + 1) (meetings_confirmed r)
       (calendar_conflicts r) (scheduled_meetings r) (errors r).
Definition incr_meetings_confirmed (r : t) : t :=
    mk (meetings_requested r) (meetings_confirmed r + 1)
       (calendar_conflicts r) (scheduled_meetings r) (errors r).
Definition incr_calendar_conflicts (r : t) : t :=
    mk (meetings_requested r) (meetings_confirmed r)
       (calendar_conflicts r + 1) (scheduled_meetings r) (errors r).
Definition append_meeting (m : Meeting.t) (r : t) : t :=
    mk (meetings_requested r) (meetings_confirmed r)
       (calendar_conflicts r) (scheduled_meetings r ++ [m]) (errors r).
Definition append_error (e : string) (r : t) : t :=
    mk (meetings_requested r) (meetings_confirmed r)
       (calendar_conflicts r) (scheduled_meetings r) (errors r ++ [e]).
End SchedulingResults.

(** The report dict of [report_pipeline_status]. *)
Module Report.
Record summary_t := mkSummary {
    total_leads : Z;
    total_prospects : Z;
    total_meetings : Z;
    pipeline_value : Q;
    lead_to_prospect_conversion : Q;
    lead_to_meeting_conversion : Q
  }.
Record targets_t := mkTargets {
    leads_target : Z;
    leads_actual : Z;
    meetings_target : Z;
    meetings_actual : Z;
    pipeline_value_target : Z;
    pipeline_value_actual : Q
  }.
Record health_t := mkHealth {
    pipeline_health : string;
    activity_level : string;
    conversion_health : string
  }.
Record activity_t := mkActivity {
    activity : string;
    count : Z;
    timestamp : string
  }.
Record t := mk {
    report_timestamp : string;
    summary : summary_t;
    lead_breakdown : PyDict.t Z;
    targets_vs_actual : targets_t;
    recent_activity : list activity_t;
    recommendations : list string;
    health_indicators : health_t
  }.
End Report.

(** The summary of a full outreach campaign. *)
Record CampaignSummary := {
  cs_leads_found : Z;
  cs_messages_generated : Z;
  cs_avg_personalization_score : Q;
  cs_avg_response_rate : Q;
  cs_estimated_responses : Z;
  cs_campaign_size : Z
}.

Record CampaignMessage := {
  cm_lead_id : string;
  cm_contact_name : string;
  cm_company_name : string;
  cm_subject : string;
  cm_body : string;
  cm_personalization_score : Q;
  cm_predicted_response_rate : Q;
  cm_priority : string;
  cm_ab_variants : Z
}.

Record QuickWin := {
  qw_lead : ScannedLead;
  qw_subject : string;
  qw_body : string;
  qw_personalization_score : Q;
  qw_predicted_response_rate : Q
}.

(** The entries of a mock lead preview: id, name, company, score. *)
Record MockLeadPreview := {
  mp_id : string;
  mp_name : string;
  mp_company : string;
  mp_score : Q
}.

(** The workflow-specific part of a result envelope; [E] is the type of the
    envelopes nested in a full-pipeline result. *)
Inductive Payload (E : Type) : Type :=
| NoPayload
| LeadsPayload (leads : list ScannedLead)
| MockLeadsPayload (leads : list MockLeadPreview)
| QuickWinsPayload (quick_wins : list QuickWin)
| CampaignPayload (messages : list CampaignMessage) (next_steps : list string)
| NurturingPayload (nurturing_results : StageOutcome NurturingResults.t)
| SchedulingPayload (scheduling_results : StageOutcome SchedulingResults.t)
| ReportPayload (report : StageOutcome Report.t)
| StagesPayload (stages_completed : list string) (stage_results : PyDict.t E).
Arguments NoPayload {E}.
Arguments LeadsPayload {E} leads.
Arguments MockLeadsPayload {E} leads.
Arguments QuickWinsPayload {E} quick_wins.
Arguments CampaignPayload {E} messages next_steps.
Arguments NurturingPayload {E} nurturing_results.
Arguments SchedulingPayload {E} scheduling_results.
Arguments ReportPayload {E} report.
Arguments StagesPayload {E} stages_completed stage_results.

(** The result envelope of a workflow. Keys that only some envelopes carry
    are optional; the remaining string-valued keys ([error_type],
    [fallback], [suggestion], [message], [note]) are kept in [extras]. *)
Module Envelope.
Set Warnings "-register-all".
Inductive t : Type := mk {
    success : option bool;
    workflow_type : option string;
    error : option string;
    leads_found : option Z;
    messages_generated : option Z;
    execution_time : option Q;
    metrics : option DepartmentMetrics.t;
    campaign_summary : option CampaignSummary;
    extras : list (string * string);
    payload : Payload t
  }.

  (** [{"success": False, "error": msg}]. *)
Definition failure (msg : string) : t :=
    mk (Some false) None (Some msg) None None None None None [] NoPayload.

  (** [{"success": False, "error": msg, "workflow_type": wt}] with an
      optional [execution_time]. *)
Definition workflow_failure (msg wt : string) (time : option Q) : t :=
    mk (Some false) (Some wt) (Some msg) None None time None None []
       NoPayload.

  (** [{"success": True, "workflow_type": wt, <payload>}]. *)
Definition stage_success (wt : string) (p : Payload t) : t :=
    mk (Some true) (Some wt) None None None None None None [] p.
End Envelope.

(** [self.sales_targets]. *)
Definition monthly_leads : Z := 100.
Definition monthly_meetings : Z := 20.
Definition monthly_pipeline_value : Z := 50000.
Definition target_conversion_rate : Q := 15 # 100.

(* ================================================================= *)
(** ** Numbers *)

Definition Qltb (a b : Q) : bool := negb (Qle_bool b a).

(** [a / b] on integers (true division); the caller guards [b <> 0]. *)
Definition truediv {S} (a b : Z) : M S Q :=
  if Z.eqb b 0
  then raise {| exn_type := "ZeroDivisionError";
                exn_msg := "division by zero" |}
  else ret (inject_Z a / inject_Z b)%Q.

(** [a / b] on floats. *)
Definition truediv_float {S} (a b : Q) : M S Q :=
  if Qeq_bool b 0
  then raise {| exn_type := "ZeroDivisionError";
                exn_msg := "float division by zero" |}
  else ret (a / b)%Q.

(** [round(x)]: to the nearest integer, ties to even. *)
Definition py_round (x : Q) : Z :=
  let f := Qfloor x in
  let r := (x - inject_Z f)%Q in
  if Qltb r (1 # 2) then f
  else if Qltb (1 # 2) r then (f + 1)%Z
  else if Z.even f then f else (f + 1)%Z.

(** [round(x, 2)]. *)
Definition py_round2 (x : Q) : Q := Qmake (py_round (x * 100)) 100.

(** [xs[i % len(xs)]]. *)
Definition cycle_index {S} (xs : list string) (i : Z) : M S string :=
  match xs with
  | [] => raise ZeroDivisionError
  | _ => ret (nth (Z.to_nat (i mod Z.of_nat (List.length xs))) xs "")
  end.

(** [range(n)]. *)
Definition range (n : Z) : list Z := map Z.of_nat (seq 0 (Z.to_nat n)).

(** [len(xs)]. *)
Definition len {A} (xs : list A) : Z := Z.of_nat (List.length xs).


(* ================================================================= *)
(** ** The methods of [SalesDepartment] *)

Section Department.
Variable env : Env.

(** [datetime.utcnow()] and [datetime.now()]: the next reading of the
    clock. Logging calls have no effect on [self] and are left out. *)
Definition utcnow : M World datetime :=
  fun w =>
    (Ok (clock env (clock_reads w)), with_clock_reads (S (clock_reads w)) w).

Definition now : M World datetime := utcnow.

(** [await self.save_state()]. *)
Definition self_save_state : M World unit :=
  fun w =>
    match save_state env w with
    | Some e => (Raise e, w)
    | None => (Ok tt, w)
    end.

(** *** Helper methods of the nurture and scheduling stages *)

Definition _send_outreach_email (lead : addr) (template_type : string)
  : M World bool :=
  try_catch
    (t <- utcnow ;;
     update_lead lead (fun l =>
       Lead.with_notes
         (Lead.notes l ++
            [("Sent " ++ template_type ++ " email at "
                ++ isoformat env t)%string])
         l) ;;
     ret true)
    (fun _ => ret false).

Definition _qualify_lead (lead : addr) : M World (option Prospect.t) :=
  try_catch
    (l <- get_lead lead ;;
     if Qle_bool 7 (Lead.score l) then
       ret (Some (Prospect.mk lead (Lead.score l)
                    ["automation"; "efficiency"] (Some "10k-50k") (Some "Q1")
                    (Qle_bool 8 (Lead.score l)) "schedule_meeting" false))
     else ret None)
    (fun _ => ret None).

Definition _find_available_slot (meeting_type : string)
           (preferred_times : list string) : M World (option string) :=
  t <- utcnow ;;
  let base_time := (t + timedelta_days 3)%Z in
  ret (Some (isoformat env base_time)).

(** *** [nurture_prospects]

    The method calls [self._send_outreach_email] and [self._qualify_lead];
    Python resolves both on [self] at the call, so the loop is written over
    whatever the two names are bound to. [nurture_prospects] below binds
    them to the definitions of this class. *)
Section Nurture.
Variable send_outreach_email : addr -> string -> M World bool.
Variable qualify_lead : addr -> M World (option Prospect.t).

(** Lines 553-568: the outreach of one lead. *)
Definition contact_step (lead : addr)
  : M (World * NurturingResults.t) unit :=
  l <- on_self (get_lead lead) ;;
  if String.eqb (Lead.status l) "new" then
    email_sent <- on_self (send_outreach_email lead "cold_outreach") ;;
    if (email_sent : bool) then
      on_local NurturingResults.incr_emails_sent ;;
      on_self (update_lead lead (fun l =>
        Lead.with_contact_attempts (Lead.contact_attempts l + 1) l)) ;;
      t <- on_self utcnow ;;
      on_self (update_lead lead (Lead.with_last_contacted (Some t))) ;;
      on_self (update_lead lead (Lead.with_status "contacted"))
    else ret tt
  else if String.eqb (Lead.status l) "contacted"
          && Z.ltb (Lead.contact_attempts l) 3 then
    email_sent <- on_self (send_outreach_email lead "follow_up") ;;
    if (email_sent : bool) then
      on_local NurturingResults.incr_emails_sent ;;
      on_self (update_lead lead (fun l =>
        Lead.with_contact_attempts (Lead.contact_attempts l + 1) l)) ;;
      t <- on_self utcnow ;;
      on_self (update_lead lead (Lead.with_last_contacted (Some t)))
    else ret tt
  else ret tt.

(** Lines 570-577: response and qualification. *)
Definition qualification_step (lead : addr)
  : M (World * NurturingResults.t) unit :=
  l <- on_self (get_lead lead) ;;
  if Qltb 7 (Lead.score l) && Z.leb 2 (Lead.contact_attempts l) then
    prospect <- on_self (qualify_lead lead) ;;
    match prospect with
    | Some p =>
        l' <- on_self (get_lead lead) ;;
        on_self (modify (fun w =>
          with_prospects_pipeline
            (PyDict.set (Lead.id l') p (prospects_pipeline w)) w)) ;;
        on_local NurturingResults.incr_prospects_qualified ;;
        on_self (update_lead lead (Lead.with_status "qualified"))
    | None => ret tt
    end
  else ret tt.

(** The body of the [try] inside the loop. *)
Definition nurture_body (lead : addr) : M (World * NurturingResults.t) unit :=
  contact_step lead ;;
  qualification_step lead ;;
  on_local NurturingResults.incr_leads_contacted.

(** The [except Exception as e] clause inside the loop. *)
Definition nurture_except (lead : addr) (e : exn)
  : M (World * NurturingResults.t) unit :=
  l <- on_self (get_lead lead) ;;
  on_local (NurturingResults.append_error
              ("Error nurturing lead " ++ Lead.id l ++ ": "
                 ++ exn_msg e)%string).

Definition nurture_loop (leads : list addr)
  : M (World * NurturingResults.t) unit :=
  for_each leads (fun lead =>
    try_catch (nurture_body lead) (nurture_except lead)).

Definition nurture_prospects_with (leads : list addr)
  : M World (StageOutcome NurturingResults.t) :=
  try_catch
    (nurturing_results <-
       with_local NurturingResults.initial (nurture_loop leads) ;;
     self_save_state ;;
     ret (Done nurturing_results))
    (fun e => ret (Failed (exn_msg e))).

End Nurture.

Definition nurture_prospects (leads : list addr)
  : M World (StageOutcome NurturingResults.t) :=
  nurture_prospects_with _send_outreach_email _qualify_lead leads.

(** *** [schedule_meetings] *)

(** Truth value of an [Optional[str]]. *)
Definition truthy (o : option string) : bool :=
  match o with
  | Some s => negb (String.eqb s "")
  | None => false
  end.

Definition mark_meeting_scheduled (prospect_id : string) : M World unit :=
  modify (fun w =>
    with_prospects_pipeline
      (PyDict.update prospect_id (Prospect.with_meeting_scheduled true)
         (prospects_pipeline w)) w) ;;
  modify (fun w =>
    with_prospects_pipeline
      (PyDict.update prospect_id (Prospect.with_next_action "attend_meeting")
         (prospects_pipeline w)) w).

(** The body of the [try] inside the loop. *)
Definition schedule_body (prospect_data : ProspectData)
  : M (World * SchedulingResults.t) unit :=
  let prospect_id := pd_prospect_id prospect_data in
  let meeting_type :=
    default "discovery_call" (pd_meeting_type prospect_data) in
  let preferred_times := default [] (pd_preferred_times prospect_data) in
  available_slot <-
    on_self (_find_available_slot meeting_type preferred_times) ;;
  (if truthy available_slot then
     t_id <- on_self utcnow ;;
     t_created <- on_self utcnow ;;
     let meeting :=
       Meeting.mk ("meeting_" ++ PyStr.of_Z (timestamp_int t_id))%string
                  prospect_id meeting_type (default "" available_slot)
                  30 "confirmed" (isoformat env t_created) in
     on_self (modify (fun w =>
       with_meetings_scheduled (meetings_scheduled w ++ [meeting]) w)) ;;
     on_local SchedulingResults.incr_meetings_confirmed ;;
     on_local (SchedulingResults.append_meeting meeting) ;;
     match prospect_id with
     | Some pid =>
         known <- on_self (gets (fun w =>
                    PyDict.mem pid (prospects_pipeline w))) ;;
         if (known : bool) then on_self (mark_meeting_scheduled pid)
         else ret tt
     | None => ret tt
     end
   else on_local SchedulingResults.incr_calendar_conflicts) ;;
  on_local SchedulingResults.incr_meetings_requested.

(** The [except Exception as e] clause inside the loop; an entry without a
    prospect id is reported as [unknown]. *)
Definition schedule_except (prospect_data : ProspectData) (e : exn)
  : M (World * SchedulingResults.t) unit :=
  on_local (SchedulingResults.append_error
              ("Error scheduling for prospect "
                 ++ default "unknown" (pd_prospect_id prospect_data) ++ ": "
                 ++ exn_msg e)%string).

Definition schedule_loop (prospects : list ProspectData)
  : M (World * SchedulingResults.t) unit :=
  for_each prospects (fun prospect_data =>
    try_catch (schedule_body prospect_data) (schedule_except prospect_data)).

Definition schedule_meetings (prospects : list ProspectData)
  : M World (StageOutcome SchedulingResults.t) :=
  try_catch
    (scheduling_results <-
       with_local SchedulingResults.initial (schedule_loop prospects) ;;
     self_save_state ;;
     ret (Done scheduling_results))
    (fun e => ret (Failed (exn_msg e))).

(** *** [report_pipeline_status] *)

Definition _get_recent_activity : M World (list Report.activity_t) :=
  w <- gets (fun w => w) ;;
  t1 <- utcnow ;;
  t2 <- utcnow ;;
  t3 <- utcnow ;;
  ret [ Report.mkActivity "Lead generation" (len (leads_database w))
          (isoformat env t1);
        Report.mkActivity "Prospect qualification"
          (len (prospects_pipeline w)) (isoformat env t2);
        Report.mkActivity "Meeting scheduling" (len (meetings_scheduled w))
          (isoformat env t3) ].

Definition _generate_pipeline_recommendations : M World (list string) :=
  w <- gets (fun w => w) ;;
  let recommendations := [] in
  let recommendations :=
    if Z.ltb (len (leads_database w)) 10
    then recommendations ++
         ["Increase lead generation activity - current lead count is below optimal"]
    else recommendations in
  let recommendations :=
    if Z.eqb (len (prospects_pipeline w)) 0
    then recommendations ++
         ["Focus on lead qualification - no qualified prospects in pipeline"]
    else recommendations in
  let recommendations :=
    if Z.eqb (len (meetings_scheduled w)) 0
    then recommendations ++
         ["Prioritize meeting scheduling with qualified prospects"]
    else recommendations in
  ret (match recommendations with
       | [] => ["Pipeline is performing well - continue current activities"]
       | _ => recommendations
       end).

(** [sum(prospect.lead.score * 1000 for prospect in ...values())]. *)
Definition pipeline_value (w : World) : Q :=
  fold_left
    (fun acc prospect =>
       (acc + Lead.score (heap w (Prospect.lead prospect)) * 1000)%Q)
    (PyDict.values (prospects_pipeline w)) 0%Q.

(** The status histogram over all leads. *)
Definition lead_status_breakdown (w : World) : PyDict.t Z :=
  fold_left
    (fun breakdown lead =>
       let status := Lead.status (heap w lead) in
       PyDict.set status
         (default 0%Z (PyDict.get status breakdown) + 1)%Z breakdown)
    (PyDict.values (leads_database w)) [].

Definition report_pipeline_status : M World (StageOutcome Report.t) :=
  try_catch
    (w <- gets (fun w => w) ;;
     let total_leads := len (leads_database w) in
     let total_prospects := len (prospects_pipeline w) in
     let total_meetings := len (meetings_scheduled w) in
     let breakdown := lead_status_breakdown w in
     rates <-
       (if Z.ltb 0 total_leads then
          lead_to_prospect_rate <- truediv total_prospects total_leads ;;
          lead_to_meeting_rate <- truediv total_meetings total_leads ;;
          ret (lead_to_prospect_rate, lead_to_meeting_rate)
        else ret (0%Q, 0%Q)) ;;
     let total_pipeline_value := pipeline_value w in
     recent_activity <- _get_recent_activity ;;
     recommendations <- _generate_pipeline_recommendations ;;
     t <- utcnow ;;
     ret (Done
       (Report.mk (isoformat env t)
          (Report.mkSummary total_leads total_prospects total_meetings
             total_pipeline_value (fst rates) (snd rates))
          breakdown
          (Report.mkTargets monthly_leads total_leads monthly_meetings
             total_meetings monthly_pipeline_value total_pipeline_value)
          recent_activity
          recommendations
          (Report.mkHealth
             (if Z.ltb 0 total_prospects then "healthy" else "needs_attention")
             (if Z.ltb 10 total_leads then "high" else "low")
             (if Qltb (1 # 10) (fst rates) then "good"
              else "needs_improvement")))))
    (fun e => ret (Failed (exn_msg e))).

(** *** [find_new_leads] and the lead generation workflows *)

Definition find_new_leads (criteria : Criteria) : M World (list addr) :=
  try_catch
    (let titles := default ["CEO"; "CTO"; "VP"] (cr_titles criteria) in
     let industries :=
       default ["Technology"; "SaaS"] (cr_industries criteria) in
     let company_sizes :=
       default ["11-50"; "51-200"] (cr_company_sizes criteria) in
     new_leads <-
       with_local []
         (for_each (range (default 10%Z (cr_max_leads criteria))) (fun i =>
            t <- on_self utcnow ;;
            let lead_id :=
              ("lead_" ++ PyStr.of_Z (timestamp_int t) ++ "_"
                 ++ PyStr.of_Z i)%string in
            let number := PyStr.of_Z (i + 1) in
            title <- cycle_index titles i ;;
            score_title <- cycle_index titles i ;;
            score_industry <- cycle_index industries i ;;
            score_company_size <- cycle_index company_sizes i ;;
            let score :=
              _calculate_lead_score
                {| ld_title := Some score_title;
                   ld_industry := Some score_industry;
                   ld_company_size := Some score_company_size |} in
            created_at <- on_self utcnow ;;
            lead <- on_self (new_lead
              (Lead.mk lead_id ("Contact " ++ number)%string
                 ("contact" ++ number ++ "@company" ++ number ++ ".com")%string
                 ("Company " ++ number)%string title "linkedin_scan" score
                 created_at "new" 0 None [])) ;;
            on_local (fun new_leads => new_leads ++ [lead]) ;;
            on_self (modify (fun w =>
              with_leads_database
                (PyDict.set lead_id lead (leads_database w)) w)))) ;;
     self_save_state ;;
     ret new_leads)
    (fun _ => ret []).

Definition _execute_lead_generation_mock (config : Config)
  : M World Envelope.t :=
  let criteria :=
    default {| cr_titles := Some ["CEO"; "CTO"; "VP Engineering"];
               cr_industries := None; cr_company_sizes := None;
               cr_max_leads := Some 20%Z |}
            (cfg_criteria config) in
  new_leads <- find_new_leads criteria ;;
  w <- gets (fun w => w) ;;
  ret (Envelope.mk (Some true) (Some "lead_generation") None
         (Some (len new_leads)) None None None None
         [("note", "Using mock implementation")]
         (MockLeadsPayload
            (map (fun lead =>
                    let l := heap w lead in
                    {| mp_id := Lead.id l; mp_name := Lead.name l;
                       mp_company := Lead.company l;
                       mp_score := Lead.score l |})
                 new_leads))).

(** The checkpoint of the scanned leads: a write that fails is logged and
    ignored. *)
Definition checkpoint_leads (leads : list ScannedLead) : M World unit :=
  for_each leads (fun lead =>
    w <- gets (fun w => w) ;;
    let key :=
      ("session:" ++ session_id w ++ ":lead:" ++ lead_id lead)%string in
    try_catch
      (match redis_client w with
       | Some redis => lift_result (setex redis key 3600 (lead_json lead))
       | None => ret tt
       end)
      (fun _ => ret tt)).

Definition _execute_lead_generation_workflow (config : Config)
  : M World Envelope.t :=
  start_time <- now ;;
  try_catch
    (w <- gets (fun w => w) ;;
     match lead_scanner w with
     | None => _execute_lead_generation_mock config
     | Some scanner =>
         let criteria :=
           {| sc_industries := default [] (cfg_industries config);
              sc_titles := default [] (cfg_titles config);
              sc_company_sizes :=
                Some (default [] (cfg_company_sizes config));
              sc_min_score := default 60%Q (cfg_min_score config);
              sc_max_results := default 50%Z (cfg_max_results config) |} in
         leads <- lift_result (scan_for_leads scanner criteria) ;;
         checkpoint_leads leads ;;
         update_metrics_field (fun m =>
           DepartmentMetrics.with_leads_generated
             (DepartmentMetrics.leads_generated m + len leads) m) ;;
         end_time <- now ;;
         let execution_time := total_seconds (end_time - start_time) in
         update_metrics_field (fun m =>
           DepartmentMetrics.with_total_workflows_executed
             (DepartmentMetrics.total_workflows_executed m + 1) m) ;;
         stamp <- now ;;
         update_metrics_field
           (DepartmentMetrics.with_last_execution (Some stamp)) ;;
         m <- gets metrics ;;
         (if Z.ltb 0 (DepartmentMetrics.total_workflows_executed m) then
            average <-
              truediv_float
                (DepartmentMetrics.average_execution_time m
                   * inject_Z (DepartmentMetrics.total_workflows_executed m - 1)
                 + execution_time)%Q
                (inject_Z (DepartmentMetrics.total_workflows_executed m)) ;;
            update_metrics_field
              (DepartmentMetrics.with_average_execution_time average)
          else ret tt) ;;
         m <- gets metrics ;;
         ret (Envelope.mk (Some true) (Some "lead_generation") None
                (Some (len leads)) None (Some execution_time) (Some m) None
                [] (LeadsPayload (firstn 10 leads)))
     end)
    (fun e =>
       end_time <- now ;;
       ret (Envelope.workflow_failure (exn_msg e) "lead_generation"
              (Some (total_seconds (end_time - start_time))))).

Definition sender_config (config : Config) (tone : ToneStyle)
           (depth : string) : OutreachConfig :=
  {| oc_category := "cold_outreach";
     oc_tone := tone;
     oc_personalization_depth := depth;
     oc_sender_name := default "Sales Team" (cfg_sender_name config);
     oc_sender_title := default "Account Executive" (cfg_sender_title config);
     oc_sender_company := default "Our Company" (cfg_sender_company config) |}.

Definition _execute_quick_wins_workflow (config : Config)
  : M World Envelope.t :=
  start_time <- now ;;
  try_catch
    (w <- gets (fun w => w) ;;
     match lead_scanner w, outreach_composer w with
     | Some scanner, Some composer =>
         let criteria :=
           {| sc_industries :=
                default ["SaaS"; "FinTech"] (cfg_industries config);
              sc_titles :=
                default ["CTO"; "VP"; "Director"] (cfg_titles config);
              sc_company_sizes := None;
              sc_min_score := 80;
              sc_max_results := 5 |} in
         leads <- lift_result (scan_for_leads scanner criteria) ;;
         match leads with
         | [] =>
             end_time <- now ;;
             ret (Envelope.mk (Some true) (Some "quick_wins") None
                    (Some 0%Z) None
                    (Some (total_seconds (end_time - start_time))) None None
                    [("message",
                      "No high-quality leads found with current criteria")]
                    NoPayload)
         | _ :: _ =>
             let outreach_config := sender_config config FORMAL "deep" in
             outreach_results <-
               with_local []
                 (for_each leads (fun lead =>
                    try_catch
                      (message <-
                         lift_result
                           (compose_outreach composer lead outreach_config) ;;
                       on_local (fun results =>
                         results ++
                           [{| qw_lead := lead;
                               qw_subject := subject message;
                               qw_body := body message;
                               qw_personalization_score :=
                                 personalization_score message;
                               qw_predicted_response_rate :=
                                 predicted_response_rate message |}]) ;;
                       on_self (update_metrics_field (fun m =>
                         DepartmentMetrics.with_messages_composed
                           (DepartmentMetrics.messages_composed m + 1) m)))
                      (fun _ => ret tt))) ;;
             update_metrics_field (fun m =>
               DepartmentMetrics.with_leads_qualified
                 (DepartmentMetrics.leads_qualified m + len leads) m) ;;
             end_time <- now ;;
             let execution_time := total_seconds (end_time - start_time) in
             update_metrics_field (fun m =>
               DepartmentMetrics.with_total_workflows_executed
                 (DepartmentMetrics.total_workflows_executed m + 1) m) ;;
             stamp <- now ;;
             update_metrics_field
               (DepartmentMetrics.with_last_execution (Some stamp)) ;;
             m <- gets metrics ;;
             ret (Envelope.mk (Some true) (Some "quick_wins") None
                    (Some (len leads)) (Some (len outreach_results))
                    (Some execution_time) (Some m) None []
                    (QuickWinsPayload outreach_results))
         end
     | _, _ =>
         ret (Envelope.workflow_failure "Real agents not available"
                "quick_wins" None)
     end)
    (fun e =>
       end_time <- now ;;
       ret (Envelope.workflow_failure (exn_msg e) "quick_wins"
              (Some (total_seconds (end_time - start_time))))).

(** [ToneStyle(value)]. *)
Definition tone_style (value : string) : M World ToneStyle :=
  match tone_of_value env value with
  | Some tone => ret tone
  | None =>
      raise (ValueError ("'" ++ value ++ "' is not a valid ToneStyle")%string)
  end.

(** The local variables of the campaign loop: the messages and the two
    running totals. *)
Record CampaignAcc := {
  campaign_messages : list CampaignMessage;
  total_personalization : Q;
  total_response_rate : Q
}.

Definition campaign_message (lead : ScannedLead) (message : OutreachMessage)
  : CampaignMessage :=
  {| cm_lead_id := lead_id lead;
     cm_contact_name := contact_full_name lead;
     cm_company_name := company_name lead;
     cm_subject := subject message;
     cm_body :=
       if Nat.ltb 200 (String.length (body message))
       then (String.substring 0 200 (body message) ++ "...")%string
       else body message;
     cm_personalization_score := personalization_score message;
     cm_predicted_response_rate := predicted_response_rate message;
     cm_priority := outreach_priority lead;
     cm_ab_variants := len (ab_variants message) |}.

Definition _execute_full_outreach_workflow (config : Config)
  : M World Envelope.t :=
  start_time <- now ;;
  try_catch
    (w <- gets (fun w => w) ;;
     match lead_scanner w, outreach_composer w with
     | Some scanner, Some composer =>
         let criteria :=
           {| sc_industries := default [] (cfg_industries config);
              sc_titles := default [] (cfg_titles config);
              sc_company_sizes :=
                Some (default [] (cfg_company_sizes config));
              sc_min_score := default 65%Q (cfg_min_score config);
              sc_max_results := default 25%Z (cfg_campaign_size config) |} in
         leads <- lift_result (scan_for_leads scanner criteria) ;;
         match leads with
         | [] =>
             end_time <- now ;;
             ret (Envelope.mk (Some true) (Some "full_outreach") None
                    (Some 0%Z) None
                    (Some (total_seconds (end_time - start_time))) None None
                    [("message", "No qualifying leads found")] NoPayload)
         | _ :: _ =>
             tone <- tone_style (default "formal" (cfg_message_tone config)) ;;
             let outreach_config := sender_config config tone "moderate" in
             acc <-
               with_local
                 {| campaign_messages := []; total_personalization := 0;
                    total_response_rate := 0 |}
                 (for_each leads (fun lead =>
                    try_catch
                      (message <-
                         lift_result
                           (compose_outreach composer lead outreach_config) ;;
                       on_local (fun acc =>
                         {| campaign_messages :=
                              campaign_messages acc
                                ++ [campaign_message lead message];
                            total_personalization :=
                              (total_personalization acc
                               + personalization_score message)%Q;
                            total_response_rate :=
                              (total_response_rate acc
                               + predicted_response_rate message)%Q |}) ;;
                       on_self (update_metrics_field (fun m =>
                         DepartmentMetrics.with_messages_composed
                           (DepartmentMetrics.messages_composed m + 1) m)))
                      (fun _ => ret tt))) ;;
             let messages := campaign_messages acc in
             avg_personalization <-
               match messages with
               | [] => ret 0%Q
               | _ :: _ =>
                   truediv_float (total_personalization acc)
                                 (inject_Z (len messages))
               end ;;
             avg_response_rate <-
               match messages with
               | [] => ret 0%Q
               | _ :: _ =>
                   truediv_float (total_response_rate acc)
                                 (inject_Z (len messages))
               end ;;
             update_metrics_field (fun m =>
               DepartmentMetrics.with_leads_qualified
                 (DepartmentMetrics.leads_qualified m + len leads) m) ;;
             update_metrics_field
               (DepartmentMetrics.with_personalization_score
                  avg_personalization) ;;
             update_metrics_field
               (DepartmentMetrics.with_response_rate avg_response_rate) ;;
             end_time <- now ;;
             let execution_time := total_seconds (end_time - start_time) in
             update_metrics_field (fun m =>
               DepartmentMetrics.with_total_workflows_executed
                 (DepartmentMetrics.total_workflows_executed m + 1) m) ;;
             stamp <- now ;;
             update_metrics_field
               (DepartmentMetrics.with_last_execution (Some stamp)) ;;
             m <- gets metrics ;;
             ret (Envelope.mk (Some true) (Some "full_outreach") None
                    None None (Some execution_time) (Some m)
                    (Some
                       {| cs_leads_found := len leads;
                          cs_messages_generated := len messages;
                          cs_avg_personalization_score :=
                            py_round2 avg_personalization;
                          cs_avg_response_rate := py_round2 avg_response_rate;
                          cs_estimated_responses :=
                            py_round (inject_Z (len messages)
                                      * avg_response_rate);
                          cs_campaign_size :=
                            default 25%Z (cfg_campaign_size config) |})
                    []
                    (CampaignPayload (firstn 5 messages)
                       ["Review generated messages";
                        "Schedule sending times";
                        "Set up response tracking";
                        "Monitor campaign performance"]))
         end
     | _, _ =>
         ret (Envelope.workflow_failure "Real agents not available"
                "full_outreach" None)
     end)
    (fun e =>
       end_time <- now ;;
       ret (Envelope.workflow_failure (exn_msg e) "full_outreach"
              (Some (total_seconds (end_time - start_time))))).

(** *** The stage workflows *)

Definition _execute_lead_nurturing_workflow (task : Config)
  : M World Envelope.t :=
  try_catch
    (w <- gets (fun w => w) ;;
     let lead_ids :=
       default (PyDict.keys (leads_database w)) (cfg_lead_ids task) in
     let leads_to_nurture :=
       flat_map (fun lid =>
                   match PyDict.get lid (leads_database w) with
                   | Some lead => [lead]
                   | None => []
                   end)
                lead_ids in
     results <- nurture_prospects leads_to_nurture ;;
     ret (Envelope.stage_success "lead_nurturing" (NurturingPayload results)))
    (fun e => ret (Envelope.failure (exn_msg e))).

(** The default batch: one entry per prospect without a meeting. *)
Definition unscheduled_prospects (w : World) : list ProspectData :=
  flat_map (fun entry =>
              if Prospect.meeting_scheduled (snd entry) then []
              else [{| pd_prospect_id := Some (fst entry);
                       pd_meeting_type := Some "discovery_call";
                       pd_preferred_times := None |}])
           (prospects_pipeline w).

Definition _execute_meeting_scheduling_workflow (task : Config)
  : M World Envelope.t :=
  try_catch
    (w <- gets (fun w => w) ;;
     let prospects_data := default [] (cfg_prospects task) in
     let prospects_data :=
       match prospects_data with
       | [] => unscheduled_prospects w
       | _ :: _ => prospects_data
       end in
     results <- schedule_meetings prospects_data ;;
     ret (Envelope.stage_success "meeting_scheduling"
            (SchedulingPayload results)))
    (fun e => ret (Envelope.failure (exn_msg e))).

Definition _execute_pipeline_reporting_workflow (task : Config)
  : M World Envelope.t :=
  try_catch
    (report <- report_pipeline_status ;;
     ret (Envelope.stage_success "pipeline_reporting" (ReportPayload report)))
    (fun e => ret (Envelope.failure (exn_msg e))).

(** The [results] dict of the full pipeline while it is being filled. *)
Definition add_stage (key stage : string) (stage_result : Envelope.t)
           (results : list string * PyDict.t Envelope.t)
  : list string * PyDict.t Envelope.t :=
  (fst results ++ [stage], PyDict.set key stage_result (snd results)).

Definition _execute_full_pipeline_workflow (task : Config)
  : M World Envelope.t :=
  try_catch
    (let results := ([], []) in
     (* Stage 1: Lead Generation *)
     let lead_gen_task :=
       config_criteria (default empty_criteria (cfg_lead_criteria task)) in
     lead_gen_result <- _execute_lead_generation_workflow lead_gen_task ;;
     let results :=
       add_stage "lead_generation" "lead_generation" lead_gen_result
                 results in
     (* Stage 2: Lead Nurturing *)
     let nurture_task := config_lead_ids [] in
     nurture_result <- _execute_lead_nurturing_workflow nurture_task ;;
     let results :=
       add_stage "lead_nurturing" "lead_nurturing" nurture_result results in
     (* Stage 3: Meeting Scheduling *)
     let meeting_task := config_prospects [] in
     meeting_result <- _execute_meeting_scheduling_workflow meeting_task ;;
     let results :=
       add_stage "meeting_scheduling" "meeting_scheduling" meeting_result
                 results in
     (* Stage 4: Pipeline Reporting *)
     report_result <- _execute_pipeline_reporting_workflow empty_config ;;
     let results :=
       add_stage "pipeline_report" "pipeline_reporting" report_result
                 results in
     ret (Envelope.stage_success "full_pipeline"
            (StagesPayload (fst results) (snd results))))
    (fun e => ret (Envelope.failure (exn_msg e))).

Definition _execute_mock_workflow (config : Config) : M World Envelope.t :=
  let workflow_type := default "unknown" (cfg_workflow_type config) in
  ret (Envelope.mk (Some false) (Some workflow_type)
         (Some ("Mock workflow not implemented for " ++ workflow_type)%string)
         None None None None None
         [("fallback", "Real agents not available");
          ("suggestion", "Check agent initialization")]
         NoPayload).

(** *** [update_metrics] *)

Definition update_metrics (workflow_type : string) (results : Envelope.t)
  : M World unit :=
  update_metrics_field (fun m =>
    DepartmentMetrics.with_total_workflows_executed
      (DepartmentMetrics.total_workflows_executed m + 1) m) ;;
  stamp <- now ;;
  update_metrics_field (DepartmentMetrics.with_last_execution (Some stamp)) ;;
  (if String.eqb workflow_type "lead_generation" then
     update_metrics_field (fun m =>
       DepartmentMetrics.with_leads_generated
         (DepartmentMetrics.leads_generated m
          + default 0%Z (Envelope.leads_found results)) m)
   else if String.eqb workflow_type "quick_wins" then
     update_metrics_field (fun m =>
       DepartmentMetrics.with_leads_qualified
         (DepartmentMetrics.leads_qualified m
          + default 0%Z (Envelope.leads_found results)) m) ;;
     update_metrics_field (fun m =>
       DepartmentMetrics.with_messages_composed
         (DepartmentMetrics.messages_composed m
          + default 0%Z (Envelope.messages_generated results)) m)
   else if String.eqb workflow_type "full_outreach" then
     let campaign_summary := Envelope.campaign_summary results in
     update_metrics_field (fun m =>
       DepartmentMetrics.with_leads_qualified
         (DepartmentMetrics.leads_qualified m
          + default 0%Z (option_map cs_leads_found campaign_summary)) m) ;;
     update_metrics_field (fun m =>
       DepartmentMetrics.with_messages_composed
         (DepartmentMetrics.messages_composed m
          + default 0%Z (option_map cs_messages_generated campaign_summary))
         m) ;;
     update_metrics_field
       (DepartmentMetrics.with_personalization_score
          (default 0%Q
             (option_map cs_avg_personalization_score campaign_summary))) ;;
     update_metrics_field
       (DepartmentMetrics.with_response_rate
          (default 0%Q (option_map cs_avg_response_rate campaign_summary)))
   else ret tt) ;;
  m <- gets metrics ;;
  if Z.ltb 0 (DepartmentMetrics.total_workflows_executed m) then
    let successful_workflows :=
      if default false (Envelope.success results) then 1%Z else 0%Z in
    rate <-
      truediv successful_workflows
              (DepartmentMetrics.total_workflows_executed m) ;;
    update_metrics_field (DepartmentMetrics.with_success_rate rate)
  else ret tt.

(** *** [execute_workflow] and [execute_workflow_safe]

    The two methods call each other; [depth] is the number of nested calls
    the interpreter still allows. *)
Definition dispatch (config : Config) : M World Envelope.t :=
  let workflow_type :=
    default "lead_generation" (cfg_workflow_type config) in
  if String.eqb workflow_type "lead_generation" then
    _execute_lead_generation_workflow config
  else if String.eqb workflow_type "quick_wins" then
    _execute_quick_wins_workflow config
  else if String.eqb workflow_type "full_outreach" then
    _execute_full_outreach_workflow config
  else if String.eqb workflow_type "lead_nurturing" then
    _execute_lead_nurturing_workflow config
  else if String.eqb workflow_type "meeting_scheduling" then
    _execute_meeting_scheduling_workflow config
  else if String.eqb workflow_type "pipeline_reporting" then
    _execute_pipeline_reporting_workflow config
  else if String.eqb workflow_type "full_pipeline" then
    _execute_full_pipeline_workflow config
  else _execute_mock_workflow config.

Definition safe_failure (config : Config) (e : exn) : Envelope.t :=
  Envelope.mk (Some false) (cfg_workflow_type config) (Some (exn_msg e))
    None None None None None
    [("error_type", exn_type e);
     ("fallback", "Contact support if this persists")]
    NoPayload.

Fixpoint execute_workflow (depth : nat) (config : Config)
  : M World Envelope.t :=
  match depth with
  | O => raise RecursionError
  | S depth' =>
      try_catch (dispatch config)
        (fun _ =>
           (* execute_workflow_safe *)
           try_catch (execute_workflow depth' config)
             (fun e => ret (safe_failure config e)))
  end.

Definition execute_workflow_safe (depth : nat) (config : Config)
  : M World Envelope.t :=
  try_catch (execute_workflow depth config)
    (fun e => ret (safe_failure config e)).

End Department.

(* ================================================================= *)
(** ** The status view *)

(** The dict of [_calculate_current_metrics]. *)
Record CurrentMetrics := {
  cm_leads_generated : Q;
  cm_meetings_booked : Q;
  cm_pipeline_value : Q;
  cm_conversion_rate : Q
}.

(** [max(a, b)] on integers. *)
Definition py_max (a b : Z) : Z := if Z.ltb a b then b else a.

Definition _calculate_current_metrics : M World CurrentMetrics :=
  w <- gets (fun w => w) ;;
  let value :=
    fold_left
      (fun acc p =>
         (acc + Lead.score (heap w (Prospect.lead p)) * 1000)%Q)
      (PyDict.values (prospects_pipeline w)) 0%Q in
  conversion_rate <-
    truediv (len (prospects_pipeline w))
            (py_max (len (leads_database w)) 1) ;;
  ret {| cm_leads_generated := inject_Z (len (leads_database w));
         cm_meetings_booked := inject_Z (len (meetings_scheduled w));
         cm_pipeline_value := value;
         cm_conversion_rate := conversion_rate |}.

(** The dict of [calculate_business_impact]. *)
Record BusinessImpact := {
  bi_leads_generated : Q;
  bi_meetings_booked : Q;
  bi_pipeline_value : Q;
  bi_conversion_rate : Q;
  bi_cost_per_lead : Q;
  bi_automation_time_saved_hours : Q
}.

(** [calculate_business_impact]; [micro_agents] is [len(self.micro_agents)],
    an attribute kept by the base class. The method returns the impact
    dict, or [{"error": str(e)}]. *)
Definition calculate_business_impact (micro_agents : Z)
  : M World (StageOutcome BusinessImpact) :=
  try_catch
    (w <- gets (fun w => w) ;;
     let leads_generated := len (leads_database w) in
     let meetings_booked := len (meetings_scheduled w) in
     let total_pipeline_value :=
       fold_left
         (fun acc prospect =>
            (acc + Lead.score (heap w (Prospect.lead prospect)) * 1000)%Q)
         (PyDict.values (prospects_pipeline w)) 0%Q in
     let qualified_leads := len (prospects_pipeline w) in
     conversion_rate <-
       (if Z.ltb 0 leads_generated
        then truediv qualified_leads leads_generated
        else ret 0%Q) ;;
     let operational_cost := (micro_agents * 100)%Z in
     cost_per_lead <-
       (if Z.ltb 0 leads_generated
        then truediv operational_cost leads_generated
        else ret (inject_Z operational_cost)) ;;
     let automation_time_saved := (micro_agents * 40)%Z in
     ret (Done
            {| bi_leads_generated := inject_Z leads_generated;
               bi_meetings_booked := inject_Z meetings_booked;
               bi_pipeline_value := total_pipeline_value;
               bi_conversion_rate := conversion_rate;
               bi_cost_per_lead := cost_per_lead;
               bi_automation_time_saved_hours :=
                 inject_Z automation_time_saved |}))
    (fun e => ret (Failed (exn_msg e))).

(* ================================================================= *)
(** ** Drivers, auxiliary notions and sample inputs *)

(** A sequence of nurture calls, one batch after the other. *)
Definition nurture_calls (env : Env) (batches : list (list addr))
  : M World unit :=
  for_each batches (fun batch => _ <- nurture_prospects env batch ;; ret tt).

(** A workflow invocation as a caller may make it: the dispatch, followed
    or not by [update_metrics] on its result. *)
Definition invoke (env : Env) (caller_updates : bool) (workflow_type : string)
           (config : Config) : M World Envelope.t :=
  results <- execute_workflow env 1 config ;;
  (if caller_updates then update_metrics env workflow_type results
   else ret tt) ;;
  ret results.

(** The arithmetic mean of a list of durations. *)
Definition mean (durations : list Q) : Q :=
  (fold_right Qplus 0 durations / inject_Z (len durations))%Q.

(** A clock whose [n]-th reading is [n * n] seconds, a rendering of
    datetimes, a [save_state] that succeeds and the tone table. *)
Definition sample_env : Env :=
  {| clock := fun n => (Z.of_nat n * Z.of_nat n * 1000000)%Z;
     isoformat := fun t => ("T" ++ PyStr.of_Z t)%string;
     save_state := fun _ => None;
     tone_of_value :=
       fun value => if String.eqb value "formal" then Some FORMAL else None |}.

Definition sample_lead (id : string) (score : Q) (status : string)
           (contact_attempts : Z) : Lead.t :=
  Lead.mk id "Contact" "contact@company.com" "Company" "CTO" "linkedin_scan"
          score 0%Z status contact_attempts None [].

(** A department right after [__init__], without agents. *)
Definition empty_world : World :=
  mkWorld "session" DepartmentMetrics.initial None None None
          (fun _ => sample_lead "" 0 "new" 0%Z) 0%nat [] [] [] 0%nat.

(** The object store holding the given leads at addresses 0, 1, ... *)
Definition world_with_leads (leads : list Lead.t) : World :=
  mkWorld "session" DepartmentMetrics.initial None None None
          (fun a => nth a leads (sample_lead "" 0 "new" 0%Z))
          (List.length leads)
          (combine (map Lead.id leads) (seq 0%nat (List.length leads)))
          [] [] 0%nat.

Definition sample_scanned_lead : ScannedLead :=
  {| lead_id := "scan_1"; contact_full_name := "Ada Lovelace";
     company_name := "Analytical Engines"; outreach_priority := "high";
     lead_json := "{}" |}.

Definition sample_scanner : LeadScannerAgent :=
  {| scan_for_leads := fun _ => Ok [sample_scanned_lead] |}.

Definition sample_composer : OutreachComposerAgent :=
  {| compose_outreach := fun _ _ =>
       Ok {| subject := "Hello"; body := "Hi"; personalization_score := 1;
             predicted_response_rate := 1 # 2; ab_variants := [] |} |}.

(** A department with both real agents. *)
Definition world_with_agents : World :=
  mkWorld "session" DepartmentMetrics.initial (Some sample_scanner)
          (Some sample_composer) None
          (fun _ => sample_lead "" 0 "new" 0%Z) 0%nat [] [] [] 0%nat.

(** A sender that fails for the lead with the given id and otherwise is
    the one of the class. *)
Definition failing_send (env : Env) (bad_id : string) (lead : addr)
           (template_type : string) : M World bool :=
  l <- get_lead lead ;;
  if String.eqb (Lead.id l) bad_id
  then raise {| exn_type := "ConnectionError"; exn_msg := "SMTP down" |}
  else _send_outreach_email env lead template_type.

Definition five_leads : list Lead.t :=
  [sample_lead "lead_1" 8 "new" 0%Z; sample_lead "lead_2" 8 "new" 0%Z;
   sample_lead "lead_3" 8 "new" 0%Z; sample_lead "lead_4" 8 "new" 0%Z;
   sample_lead "lead_5" 8 "new" 0%Z].

(** Two qualified leads with an unscheduled prospect each. *)
Definition two_prospects_world : World :=
  with_prospects_pipeline
    [("lead_1", Prospect.mk 0%nat 8 ["automation"; "efficiency"] (Some "10k-50k")
                  (Some "Q1") true "schedule_meeting" false);
     ("lead_2", Prospect.mk 1%nat 9 ["automation"; "efficiency"] (Some "10k-50k")
                  (Some "Q1") true "schedule_meeting" false)]
    (world_with_leads [sample_lead "lead_1" 8 "qualified" 2%Z;
                       sample_lead "lead_2" 9 "qualified" 2%Z]).

(** The condition under which the nurture loop qualifies a lead, and the
    prospect that [_qualify_lead] builds for it. *)
Definition qualifies (l : Lead.t) : bool :=
  Qltb 7 (Lead.score l) && Z.leb 2 (Lead.contact_attempts l).

Definition fresh_prospect (lead : addr) (l : Lead.t) : Prospect.t :=
  Prospect.mk lead (Lead.score l) ["automation"; "efficiency"]
              (Some "10k-50k") (Some "Q1") (Qle_bool 8 (Lead.score l))
              "schedule_meeting" false.

(** The error entry the nurture loop records for a lead. *)
Definition nurture_error (lead_id : string) (e : exn) : string :=
  ("Error nurturing lead " ++ lead_id ++ ": " ++ exn_msg e)%string.

(** A computation returns when it produces a value, whatever the state. *)
Definition returns {S A} (c : M S A) : Prop :=
  forall s, exists a s', c s = (Ok a, s').

(** A block leaves the counter of contacted leads and the error list of
    the nurturing results as they are. *)
Definition keeps_tally {A} (c : M (World * NurturingResults.t) A) : Prop :=
  forall s,
    NurturingResults.leads_contacted (snd (snd (c s))) =
      NurturingResults.leads_contacted (snd s)
    /\ NurturingResults.errors (snd (snd (c s))) =
       NurturingResults.errors (snd s).

(** What nurturing may change of a lead object: never its id or score, and
    the contact attempts only grow. *)
Definition lead_grows (l l' : Lead.t) : Prop :=
  Lead.id l' = Lead.id l
  /\ Lead.score l' = Lead.score l
  /\ (Lead.contact_attempts l <= Lead.contact_attempts l')%Z.

Definition heap_grows (w w' : World) : Prop :=
  forall a, lead_grows (heap w a) (heap w' a).

(** The entry stored under a key is a freshly built prospect: no meeting
    scheduled, next action [schedule_meeting]. *)
Definition holds_fresh_prospect (k : string) (d : PyDict.t Prospect.t)
  : Prop :=
  exists p,
    PyDict.get k d = Some p
    /\ Prospect.meeting_scheduled p = false
    /\ Prospect.next_action p = "schedule_meeting".

(** The meeting the scheduling loop creates for an entry when the clock has
    been read [r] times: the slot finder makes reading [r], the meeting id
    reading [r + 1] and the creation stamp reading [r + 2]. *)
Definition expected_meeting (env : Env) (r : nat) (pd : ProspectData)
  : Meeting.t :=
  Meeting.mk
    ("meeting_" ++ PyStr.of_Z (timestamp_int (clock env (S r))))%string
    (pd_prospect_id pd)
    (default "discovery_call" (pd_meeting_type pd))
    (isoformat env (clock env r + timedelta_days 3)%Z)
    30 "confirmed"
    (isoformat env (clock env (S (S r)))).

Fixpoint expected_meetings (env : Env) (r : nat) (batch : list ProspectData)
  : list Meeting.t :=
  match batch with
  | [] => []
  | pd :: rest =>
      expected_meeting env r pd :: expected_meetings env (3 + r) rest
  end.

(** The prospect table after the entry for [prospect_id] is marked. *)
Definition scheduled_table (prospect_id : option string)
           (d : PyDict.t Prospect.t) : PyDict.t Prospect.t :=
  match prospect_id with
  | Some pid =>
      if PyDict.mem pid d
      then PyDict.update pid (Prospect.with_next_action "attend_meeting")
             (PyDict.update pid (Prospect.with_meeting_scheduled true) d)
      else d
  | None => d
  end.

(** The prospect stored under a key has its meeting scheduled. *)
Definition is_scheduled (k : string) (d : PyDict.t Prospect.t) : Prop :=
  exists p,
    PyDict.get k d = Some p
    /\ Prospect.meeting_scheduled p = true
    /\ Prospect.next_action p = "attend_meeting".

(** A sequence of lead generation runs; the list of their reported
    execution times. *)
Fixpoint lead_generation_runs (env : Env) (configs : list Config)
  : M World (list Q) :=
  match configs with
  | [] => ret []
  | config :: rest =>
      e <- _execute_lead_generation_workflow env config ;;
      durations <- lead_generation_runs env rest ;;
      ret (default 0%Q (Envelope.execution_time e) :: durations)
  end.

(** The scanner of the department answers every scan. *)
Definition scanner_answers (w : World) : Prop :=
  exists scanner,
    lead_scanner w = Some scanner
    /\ forall criteria, exists leads,
         scan_for_leads scanner criteria = Ok leads.

(** A computation leaves a component [proj] of the state as it is, whether
    it returns or raises. *)
Definition keeps {S A X} (proj : S -> X) (c : M S A) : Prop :=
  forall s, proj (snd (c s)) = proj s.

(** Two contacted leads with one contact attempt each, the first with a
    score of 8, the second with a score of 6. *)
Definition two_leads_world : World :=
  world_with_leads [sample_lead "lead_1" 8 "contacted" 1%Z;
                    sample_lead "lead_2" 6 "contacted" 1%Z].

(** An environment whose [save_state] always fails, and a department whose
    scanner always raises. *)
Definition failing_save_env : Env :=
  {| clock := clock sample_env;
     isoformat := isoformat sample_env;
     save_state := fun _ =>
       Some {| exn_type := "ConnectionError"; exn_msg := "store down" |};
     tone_of_value := tone_of_value sample_env |}.

Definition world_with_failing_scanner : World :=
  mkWorld "session" DepartmentMetrics.initial
          (Some {| scan_for_leads := fun _ =>
                     Raise {| exn_type := "TimeoutError";
                              exn_msg := "scan timed out" |} |})
          None None
          (fun _ => sample_lead "" 0 "new" 0%Z) 0%nat [] [] [] 0%nat.

(** The [success] flag and, for the two batch stages, the outcome carried
    by a stage envelope. *)
Definition stage_digest (e : Envelope.t) : option bool * option string :=
  (Envelope.success e,
   match Envelope.payload e with
   | NurturingPayload (Failed error) => Some error
   | SchedulingPayload (Failed error) => Some error
   | ReportPayload (Failed error) => Some error
   | _ => Envelope.error e
   end).

(* ================================================================= *)
(** ** Further auxiliary notions *)

(** The lead object after the outreach step of the nurture loop, when the
    clock has been read [r] times: a new lead is sent the first email, a
    contacted lead with fewer than three attempts a follow-up; each email
    is logged as a note, counted as an attempt and stamps the lead. *)
Definition emailed (l : Lead.t) : bool :=
  String.eqb (Lead.status l) "new"
  || (String.eqb (Lead.status l) "contacted"
      && Z.ltb (Lead.contact_attempts l) 3).

Definition email_note (env : Env) (r : nat) (l : Lead.t) : string :=
  ("Sent "
   ++ (if String.eqb (Lead.status l) "new" then "cold_outreach"
       else "follow_up")
   ++ " email at " ++ isoformat env (clock env r))%string.

Definition contacted_lead (env : Env) (r : nat) (l : Lead.t) : Lead.t :=
  if emailed l then
    Lead.mk (Lead.id l) (Lead.name l) (Lead.email l) (Lead.company l)
            (Lead.title l) (Lead.source l) (Lead.score l)
            (Lead.created_at l)
            (if String.eqb (Lead.status l) "new" then "contacted"
             else Lead.status l)
            (Lead.contact_attempts l + 1)
            (Some (clock env (S r)))
            (Lead.notes l ++ [email_note env r l])
  else l.

(** The lead object after the whole loop body. *)
Definition nurtured_lead (env : Env) (r : nat) (l : Lead.t) : Lead.t :=
  let l1 := contacted_lead env r l in
  if qualifies l1 then Lead.with_status "qualified" l1 else l1.

(** The results of the loop after one more processed lead. *)
Definition nurtured_results (env : Env) (r : nat) (l : Lead.t)
           (res : NurturingResults.t) : NurturingResults.t :=
  let res :=
    if emailed l then NurturingResults.incr_emails_sent res else res in
  let res :=
    if qualifies (contacted_lead env r l)
    then NurturingResults.incr_prospects_qualified res else res in
  NurturingResults.incr_leads_contacted res.

(** Everything of the department but the lead objects, the prospect table
    and the clock is the same in both states. *)
Definition same_frame (w w' : World) : Prop :=
  session_id w' = session_id w
  /\ metrics w' = metrics w
  /\ lead_scanner w' = lead_scanner w
  /\ outreach_composer w' = outreach_composer w
  /\ redis_client w' = redis_client w
  /\ next_addr w' = next_addr w
  /\ leads_database w' = leads_database w
  /\ meetings_scheduled w' = meetings_scheduled w.

(** How a lead object may differ after nurturing: its identity attributes
    and its score are fixed; contact attempts only grow, and every new
    attempt comes with one appended note; the status stays, or moves from
    [new] to [contacted], or becomes [qualified], and this only with a
    score above 7 and at least two attempts; a qualified lead is left as it
    is. *)
Definition lead_advances (l l' : Lead.t) : Prop :=
  Lead.id l' = Lead.id l
  /\ Lead.name l' = Lead.name l
  /\ Lead.email l' = Lead.email l
  /\ Lead.company l' = Lead.company l
  /\ Lead.title l' = Lead.title l
  /\ Lead.source l' = Lead.source l
  /\ Lead.score l' = Lead.score l
  /\ Lead.created_at l' = Lead.created_at l
  /\ (exists more,
        Lead.notes l' = Lead.notes l ++ more
        /\ Z.of_nat (List.length more)
           = (Lead.contact_attempts l' - Lead.contact_attempts l)%Z)
  /\ (Lead.status l' = Lead.status l
      \/ (Lead.status l = "new" /\ Lead.status l' = "contacted")
      \/ Lead.status l' = "qualified")
  /\ (Lead.status l' = "qualified" ->
      Lead.status l = "qualified" \/ qualifies l' = true)
  /\ (Lead.status l = "qualified" -> l' = l).

(** The cap on outreach: at most three contact attempts, and at most two
    for a lead that is still new. *)
Definition within_contact_cap (l : Lead.t) : Prop :=
  (Lead.contact_attempts l <= 3)%Z
  /\ (Lead.status l = "new" -> (Lead.contact_attempts l <= 2)%Z).

(** The prospect stored under a key has its meeting scheduled. *)
Definition meeting_set (k : string) (d : PyDict.t Prospect.t) : Prop :=
  exists p, PyDict.get k d = Some p /\ Prospect.meeting_scheduled p = true.

(** The number of leads of the database that have a given status. *)
Definition leads_with_status (w : World) (status : string) : nat :=
  List.length
    (filter (fun lead => String.eqb (Lead.status (heap w lead)) status)
            (PyDict.values (leads_database w))).

(** The four recommendation texts. *)
Definition rec_increase : string :=
  "Increase lead generation activity - current lead count is below optimal".
Definition rec_focus : string :=
  "Focus on lead qualification - no qualified prospects in pipeline".
Definition rec_prioritize : string :=
  "Prioritize meeting scheduling with qualified prospects".
Definition rec_default : string :=
  "Pipeline is performing well - continue current activities".

(** The workflow types [execute_workflow] knows. *)
Definition known_workflow_types : list string :=
  ["lead_generation"; "quick_wins"; "full_outreach"; "lead_nurturing";
   "meeting_scheduling"; "pipeline_reporting"; "full_pipeline"].

(** [xs[i % len(xs)]] for a list that is not empty. *)
Definition pick (xs : list string) (i : Z) : string :=
  nth (Z.to_nat (i mod Z.of_nat (List.length xs))) xs "".

(** The lead object that the [i]-th round of [find_new_leads] builds when
    the clock has been read [r] times before. *)
Definition mock_lead (env : Env) (titles industries company_sizes : list string)
    (r : nat) (i : Z) : Lead.t :=
  let number := PyStr.of_Z (i + 1) in
  Lead.mk
    ("lead_" ++ PyStr.of_Z (timestamp_int (clock env r)) ++ "_"
       ++ PyStr.of_Z i)%string
    ("Contact " ++ number)%string
    ("contact" ++ number ++ "@company" ++ number ++ ".com")%string
    ("Company " ++ number)%string
    (pick titles i) "linkedin_scan"
    (_calculate_lead_score
       {| ld_title := Some (pick titles i);
          ld_industry := Some (pick industries i);
          ld_company_size := Some (pick company_sizes i) |})
    (clock env (S r)) "new" 0 None [].

(** The department after that round: the lead is a new object, stored
    under its id. *)
Definition store_mock_lead (env : Env)
    (titles industries company_sizes : list string) (w : World) (i : Z)
  : World :=
  let lead := mock_lead env titles industries company_sizes (clock_reads w) i in
  mkWorld (session_id w) (metrics w) (lead_scanner w) (outreach_composer w)
    (redis_client w)
    (fun a => if Nat.eqb a (next_addr w) then lead else heap w a)
    (S (next_addr w))
    (PyDict.set (Lead.id lead) (next_addr w) (leads_database w))
    (prospects_pipeline w) (meetings_scheduled w)
    (S (S (clock_reads w))).

(** A freshly created lead of the mock generation. *)
Definition fresh_mock_lead (l : Lead.t) : Prop :=
  Lead.source l = "linkedin_scan"
  /\ Lead.status l = "new"
  /\ Lead.contact_attempts l = 0%Z
  /\ Lead.last_contacted l = None
  /\ Lead.notes l = []
  /\ (5 <= Lead.score l)%Q /\ (Lead.score l <= 10)%Q.

(** The lists a criteria dict selects, with the defaults of
    [find_new_leads]. *)
Definition criteria_titles (criteria : Criteria) : list string :=
  default ["CEO"; "CTO"; "VP"] (cr_titles criteria).
Definition criteria_industries (criteria : Criteria) : list string :=
  default ["Technology"; "SaaS"] (cr_industries criteria).
Definition criteria_company_sizes (criteria : Criteria) : list string :=
  default ["11-50"; "51-200"] (cr_company_sizes criteria).
Definition criteria_max_leads (criteria : Criteria) : Z :=
  default 10%Z (cr_max_leads criteria).

(** One round of the loop of [find_new_leads]. *)
Definition find_round (env : Env)
    (titles industries company_sizes : list string) (i : Z)
  : M (World * list addr) unit :=
  t <- on_self (utcnow env) ;;
  let lead_id :=
    ("lead_" ++ PyStr.of_Z (timestamp_int t) ++ "_" ++ PyStr.of_Z i)%string in
  let number := PyStr.of_Z (i + 1) in
  title <- cycle_index titles i ;;
  score_title <- cycle_index titles i ;;
  score_industry <- cycle_index industries i ;;
  score_company_size <- cycle_index company_sizes i ;;
  let score :=
    _calculate_lead_score
      {| ld_title := Some score_title;
         ld_industry := Some score_industry;
         ld_company_size := Some score_company_size |} in
  created_at <- on_self (utcnow env) ;;
  lead <- on_self (new_lead
    (Lead.mk lead_id ("Contact " ++ number)%string
       ("contact" ++ number ++ "@company" ++ number ++ ".com")%string
       ("Company " ++ number)%string title "linkedin_scan" score
       created_at "new" 0 None [])) ;;
  on_local (fun new_leads => new_leads ++ [lead]) ;;
  on_self (modify (fun w =>
    with_leads_database
      (PyDict.set lead_id lead (leads_database w)) w)).

(** A string without the separator of the lead ids. *)
Fixpoint no_underscore (s : string) : bool :=
  match s with
  | EmptyString => true
  | String c s' => negb (Ascii.eqb c "_") && no_underscore s'
  end.

(** The [ScanCriteria] that the lead generation workflow builds from a
    request. *)
Definition scan_criteria_of (config : Config) : ScanCriteria :=
  {| sc_industries := default [] (cfg_industries config);
     sc_titles := default [] (cfg_titles config);
     sc_company_sizes := Some (default [] (cfg_company_sizes config));
     sc_min_score := default 60%Q (cfg_min_score config);
     sc_max_results := default 50%Z (cfg_max_results config) |}.

(** The criteria of the mock lead generation. *)
Definition mock_criteria_of (config : Config) : Criteria :=
  default {| cr_titles := Some ["CEO"; "CTO"; "VP Engineering"];
             cr_industries := None; cr_company_sizes := None;
             cr_max_leads := Some 20%Z |}
          (cfg_criteria config).

(** Everything of the department but its metrics and the clock. *)
Definition same_store (w w' : World) : Prop :=
  session_id w' = session_id w
  /\ lead_scanner w' = lead_scanner w
  /\ outreach_composer w' = outreach_composer w
  /\ redis_client w' = redis_client w
  /\ heap w' = heap w
  /\ next_addr w' = next_addr w
  /\ leads_database w' = leads_database w
  /\ prospects_pipeline w' = prospects_pipeline w
  /\ meetings_scheduled w' = meetings_scheduled w.

(** The entries that the quick wins loop collects: one for every lead whose
    message the composer delivers, in the order of the leads. *)
Definition quick_wins_of (composer : OutreachComposerAgent)
    (outreach_config : OutreachConfig) (leads : list ScannedLead)
  : list QuickWin :=
  flat_map
    (fun lead =>
       match compose_outreach composer lead outreach_config with
       | Ok message =>
           [{| qw_lead := lead;
               qw_subject := subject message;
               qw_body := body message;
               qw_personalization_score := personalization_score message;
               qw_predicted_response_rate :=
                 predicted_response_rate message |}]
       | Raise _ => []
       end)
    leads.

(** The round of the quick wins loop for one lead. *)
Definition quick_wins_round (composer : OutreachComposerAgent)
    (outreach_config : OutreachConfig) (lead : ScannedLead)
  : M (World * list QuickWin) unit :=
  try_catch
    (message <-
       lift_result (compose_outreach composer lead outreach_config) ;;
     on_local (fun results =>
       results ++
         [{| qw_lead := lead;
             qw_subject := subject message;
             qw_body := body message;
             qw_personalization_score := personalization_score message;
             qw_predicted_response_rate :=
               predicted_response_rate message |}]) ;;
     on_self (update_metrics_field (fun m =>
       DepartmentMetrics.with_messages_composed
         (DepartmentMetrics.messages_composed m + 1) m)))
    (fun _ => ret tt).

(** The criteria of the quick wins scan. *)
Definition quick_wins_criteria (config : Config) : ScanCriteria :=
  {| sc_industries := default ["SaaS"; "FinTech"] (cfg_industries config);
     sc_titles := default ["CTO"; "VP"; "Director"] (cfg_titles config);
     sc_company_sizes := None;
     sc_min_score := 80;
     sc_max_results := 5 |}.

(** The department differs only in [messages_composed], which has grown
    by [k]. *)
Definition counts_messages (k : Z) (w w' : World) : Prop :=
  same_store w w'
  /\ clock_reads w' = clock_reads w
  /\ DepartmentMetrics.messages_composed (metrics w')
     = (DepartmentMetrics.messages_composed (metrics w) + k)%Z
  /\ forall v,
       DepartmentMetrics.with_messages_composed v (metrics w')
       = DepartmentMetrics.with_messages_composed v (metrics w).

(** The criteria of the full outreach scan. *)
Definition full_outreach_criteria (config : Config) : ScanCriteria :=
  {| sc_industries := default [] (cfg_industries config);
     sc_titles := default [] (cfg_titles config);
     sc_company_sizes := Some (default [] (cfg_company_sizes config));
     sc_min_score := default 65%Q (cfg_min_score config);
     sc_max_results := default 25%Z (cfg_campaign_size config) |}.

(** A department whose scanner never finds a lead. *)
Definition world_with_idle_scanner : World :=
  mkWorld "session" DepartmentMetrics.initial
          (Some {| scan_for_leads := fun _ => Ok [] |})
          (Some sample_composer) None
          (fun _ => sample_lead "" 0 "new" 0%Z) 0%nat [] [] [] 0%nat.

(** [{"message_tone": tone}]. *)
Definition config_tone (tone : string) : Config :=
  mkConfig None None None None None None None (Some tone) None None None
           None None None None.

(** The round of the campaign loop for one lead. *)
Definition campaign_round (composer : OutreachComposerAgent)
    (outreach_config : OutreachConfig) (lead : ScannedLead)
  : M (World * CampaignAcc) unit :=
  try_catch
    (message <-
       lift_result (compose_outreach composer lead outreach_config) ;;
     on_local (fun acc =>
       {| campaign_messages :=
            campaign_messages acc ++ [campaign_message lead message];
          total_personalization :=
            (total_personalization acc + personalization_score message)%Q;
          total_response_rate :=
            (total_response_rate acc + predicted_response_rate message)%Q |}) ;;
     on_self (update_metrics_field (fun m =>
       DepartmentMetrics.with_messages_composed
         (DepartmentMetrics.messages_composed m + 1) m)))
    (fun _ => ret tt).

(** The messages that the campaign loop collects: one for every lead whose
    message the composer delivers, in the order of the leads. *)
Definition campaign_of (composer : OutreachComposerAgent)
    (outreach_config : OutreachConfig) (leads : list ScannedLead)
  : list CampaignMessage :=
  flat_map
    (fun lead =>
       match compose_outreach composer lead outreach_config with
       | Ok message => [campaign_message lead message]
       | Raise _ => []
       end)
    leads.

(** A computation moves every state to a state related to it by [R],
    whether it returns or raises. *)
Definition steps {S A} (R : S -> S -> Prop) (c : M S A) : Prop :=
  forall s, R s (snd (c s)).

Definition preorder {S} (R : S -> S -> Prop) : Prop :=
  (forall s, R s s) /\ (forall a b c, R a b -> R b c -> R a c).

(** [R] on the state of a block with a local variable. *)
Definition on_fst {S L} (R : S -> S -> Prop) (a b : S * L) : Prop :=
  R (fst a) (fst b).

(** The attributes of a lead that identify it. *)
Definition same_identity (l l' : Lead.t) : Prop :=
  Lead.id l' = Lead.id l
  /\ Lead.name l' = Lead.name l
  /\ Lead.email l' = Lead.email l
  /\ Lead.company l' = Lead.company l
  /\ Lead.title l' = Lead.title l
  /\ Lead.source l' = Lead.source l
  /\ Lead.score l' = Lead.score l
  /\ Lead.created_at l' = Lead.created_at l.

(** The counters of the metrics have not decreased. *)
Definition counters_grow (m m' : DepartmentMetrics.t) : Prop :=
  (DepartmentMetrics.leads_generated m
   <= DepartmentMetrics.leads_generated m')%Z
  /\ (DepartmentMetrics.leads_qualified m
      <= DepartmentMetrics.leads_qualified m')%Z
  /\ (DepartmentMetrics.messages_composed m
      <= DepartmentMetrics.messages_composed m')%Z
  /\ (DepartmentMetrics.total_workflows_executed m
      <= DepartmentMetrics.total_workflows_executed m')%Z
  /\ DepartmentMetrics.emails_sent m' = DepartmentMetrics.emails_sent m
  /\ DepartmentMetrics.responses_received m'
     = DepartmentMetrics.responses_received m
  /\ DepartmentMetrics.meetings_booked m'
     = DepartmentMetrics.meetings_booked m.

(** The department has only grown: the session and the agents are the same,
    every lead object that existed is still the same lead, no key has left
    the lead database or the prospect pipeline, the list of meetings has
    only been appended to, and no counter has decreased. *)
Definition extends (w w' : World) : Prop :=
  session_id w' = session_id w
  /\ lead_scanner w' = lead_scanner w
  /\ outreach_composer w' = outreach_composer w
  /\ redis_client w' = redis_client w
  /\ (next_addr w <= next_addr w')%nat
  /\ (forall a, (a < next_addr w)%nat ->
        same_identity (heap w a) (heap w' a))
  /\ (forall key, PyDict.mem key (leads_database w) = true ->
        PyDict.mem key (leads_database w') = true)
  /\ (forall key, PyDict.mem key (prospects_pipeline w) = true ->
        PyDict.mem key (prospects_pipeline w') = true)
  /\ (exists later,
        meetings_scheduled w' = meetings_scheduled w ++ later)
  /\ counters_grow (metrics w) (metrics w')
  /\ (clock_reads w <= clock_reads w')%nat.

(** An environment whose clock stands still. *)
Definition frozen_env : Env :=
  {| clock := fun _ => 1700000000000000%Z;
     isoformat := isoformat sample_env;
     save_state := fun _ => None;
     tone_of_value := tone_of_value sample_env |}.

(* ================================================================= *)
(** * Properties *)

(** ** Scoring *)

Lemma add_on_first_match_existsb keys text amount score :
  add_on_first_match keys text amount score =
  if existsb (PyStr.contains text) keys then (score + amount)%Q else score.
Proof.
  induction keys as [|k keys IH]; simpl; [reflexivity|].
  destruct (PyStr.contains text k); simpl; [reflexivity|exact IH].
Qed.

(** C7: for all attribute inputs the lead score equals the reference
    computation (base 5.0, +2.0 for a title keyword, the size bonus of the
    first matching size token, +3.0 for an industry match, clamped to 10.0)
    and lies between 0 and 10. The score is a value of a function of the
    [lead_data] alone, and by the first part of the three attribute strings
    alone: the same attributes give the same score, and computing it reads
    and changes no state. *)
Theorem C7_lead_score_reference (lead_data : LeadData) :
  _calculate_lead_score lead_data =
    spec_lead_score (get_str (ld_title lead_data))
                    (get_str (ld_company_size lead_data))
                    (get_str (ld_industry lead_data))
  /\ (0 <= _calculate_lead_score lead_data <= 10)%Q.
Proof.
  unfold _calculate_lead_score, spec_lead_score, spec_size_bonus.
  rewrite !add_on_first_match_existsb.
  set (t := PyStr.lower (get_str (ld_title lead_data))).
  set (c := PyStr.lower (get_str (ld_company_size lead_data))).
  set (i := PyStr.lower (get_str (ld_industry lead_data))).
  split.
  - cbv [add_first_bonus company_size_bonus find spec_size_table fst].
    generalize (existsb (PyStr.contains t) title_keywords),
      (existsb (PyStr.contains i) industry_match),
      (PyStr.contains c "startup"), (PyStr.contains c "enterprise"),
      (PyStr.contains c "mid-market").
    intros [] [] [] [] []; vm_compute; reflexivity.
  - cbv [add_first_bonus company_size_bonus].
    generalize (existsb (PyStr.contains t) title_keywords),
      (existsb (PyStr.contains i) industry_match),
      (PyStr.contains c "startup"), (PyStr.contains c "enterprise"),
      (PyStr.contains c "mid-market").
    intros [] [] [] [] []; vm_compute; split; discriminate.
Qed.

(** ** The monad *)

Lemma bind_ok {S A B} (c : M S A) (k : A -> M S B) s a s' :
  c s = (Ok a, s') -> bind c k s = k a s'.
Proof. intros H. unfold bind. rewrite H. reflexivity. Qed.

Lemma try_catch_ok {S A} (c : M S A) h s a s' :
  c s = (Ok a, s') -> try_catch c h s = (Ok a, s').
Proof. intros H. unfold try_catch. rewrite H. reflexivity. Qed.

Lemma returns_ret {S A} (a : A) : returns (@ret S A a).
Proof. intros s. exists a, s. reflexivity. Qed.

Lemma returns_bind {S A B} (c : M S A) (k : A -> M S B) :
  returns c -> (forall a, returns (k a)) -> returns (bind c k).
Proof.
  intros Hc Hk s. destruct (Hc s) as (a & s' & E).
  rewrite (bind_ok _ _ _ _ _ E). apply Hk.
Qed.

(** A [try] whose [except] clause returns never raises. *)
Lemma returns_try_catch {S A} (c : M S A) (h : exn -> M S A) :
  (forall e, returns (h e)) -> returns (try_catch c h).
Proof.
  intros Hh s. unfold try_catch.
  destruct (c s) as [[a|e] s']; [exists a, s'; reflexivity | apply Hh].
Qed.

Lemma returns_utcnow env : returns (utcnow env).
Proof. intros s. unfold utcnow. eauto. Qed.

Create HintDb returns.
#[local] Hint Resolve returns_ret returns_bind returns_try_catch
  returns_utcnow : returns.

(** ** Every stage workflow hands back an envelope *)

Lemma lead_generation_returns env config :
  returns (_execute_lead_generation_workflow env config).
Proof.
  unfold _execute_lead_generation_workflow, now. auto 6 with returns.
Qed.

Lemma quick_wins_returns env config :
  returns (_execute_quick_wins_workflow env config).
Proof.
  unfold _execute_quick_wins_workflow, now. auto 6 with returns.
Qed.

Lemma full_outreach_returns env config :
  returns (_execute_full_outreach_workflow env config).
Proof.
  unfold _execute_full_outreach_workflow, now. auto 6 with returns.
Qed.

Lemma lead_nurturing_returns env task :
  returns (_execute_lead_nurturing_workflow env task).
Proof.
  unfold _execute_lead_nurturing_workflow.
  auto with returns.
Qed.

Lemma meeting_scheduling_returns env task :
  returns (_execute_meeting_scheduling_workflow env task).
Proof.
  unfold _execute_meeting_scheduling_workflow.
  auto with returns.
Qed.

Lemma pipeline_reporting_returns env task :
  returns (_execute_pipeline_reporting_workflow env task).
Proof.
  unfold _execute_pipeline_reporting_workflow.
  auto with returns.
Qed.

Lemma full_pipeline_returns env task :
  returns (_execute_full_pipeline_workflow env task).
Proof.
  unfold _execute_full_pipeline_workflow.
  auto with returns.
Qed.

Lemma mock_workflow_returns config :
  returns (_execute_mock_workflow config).
Proof. unfold _execute_mock_workflow. apply returns_ret. Qed.

Lemma dispatch_returns env config : returns (dispatch env config).
Proof.
  unfold dispatch.
  repeat match goal with
         | |- returns (if ?b then _ else _) => destruct b
         end;
    auto using lead_generation_returns, quick_wins_returns,
      full_outreach_returns, lead_nurturing_returns,
      meeting_scheduling_returns, pipeline_reporting_returns,
      full_pipeline_returns, mock_workflow_returns.
Qed.

(** With room for one call, [execute_workflow] is the dispatch: the
    [except] clause that re-enters through [execute_workflow_safe] is never
    taken. *)
Lemma execute_workflow_dispatch env depth config w :
  execute_workflow env (S depth) config w = dispatch env config w.
Proof.
  simpl. destruct (dispatch_returns env config w) as (a & w' & E).
  rewrite (try_catch_ok _ _ _ _ _ E). symmetry. exact E.
Qed.

(** C6: in every full-pipeline run the four stages run one after the other,
    each on the state its predecessor left, whatever the [success] flag of
    the stage results, and the final envelope holds the four stage results
    under their keys, with the four stages listed as completed. *)
Theorem C6_full_pipeline_continues (env : Env) (task : Config) (w : World) :
  exists e1 w1 e2 w2 e3 w3 e4 w4,
    _execute_lead_generation_workflow env
      (config_criteria (default empty_criteria (cfg_lead_criteria task))) w
      = (Ok e1, w1)
    /\ _execute_lead_nurturing_workflow env (config_lead_ids []) w1
       = (Ok e2, w2)
    /\ _execute_meeting_scheduling_workflow env (config_prospects []) w2
       = (Ok e3, w3)
    /\ _execute_pipeline_reporting_workflow env empty_config w3 = (Ok e4, w4)
    /\ _execute_full_pipeline_workflow env task w =
       (Ok (Envelope.stage_success "full_pipeline"
              (StagesPayload
                 ["lead_generation"; "lead_nurturing"; "meeting_scheduling";
                  "pipeline_reporting"]
                 [("lead_generation", e1); ("lead_nurturing", e2);
                  ("meeting_scheduling", e3); ("pipeline_report", e4)])),
        w4).
Proof.
  destruct (lead_generation_returns env
              (config_criteria (default empty_criteria (cfg_lead_criteria task)))
              w) as (e1 & w1 & E1).
  destruct (lead_nurturing_returns env (config_lead_ids []) w1)
    as (e2 & w2 & E2).
  destruct (meeting_scheduling_returns env (config_prospects []) w2)
    as (e3 & w3 & E3).
  destruct (pipeline_reporting_returns env empty_config w3)
    as (e4 & w4 & E4).
  exists e1, w1, e2, w2, e3, w3, e4, w4.
  repeat split; try assumption.
  unfold _execute_full_pipeline_workflow.
  apply try_catch_ok.
  rewrite (bind_ok _ _ _ _ _ E1), (bind_ok _ _ _ _ _ E2),
    (bind_ok _ _ _ _ _ E3), (bind_ok _ _ _ _ _ E4).
  reflexivity.
Qed.

(** ** The full pipeline with failing stages, evaluated *)

(** A run in which the scanner raises and every [save_state] fails: the
    lead generation stage reports [success = False], the nurture and the
    scheduling stage both fail entirely inside their envelopes, and still
    the four stages are all completed and reported, in order. *)
Lemma full_pipeline_failing_stages_example :
  match _execute_full_pipeline_workflow failing_save_env empty_config
          world_with_failing_scanner with
  | (Ok e, _) =>
      Envelope.success e = Some true
      /\ match Envelope.payload e with
         | StagesPayload completed results =>
             completed = ["lead_generation"; "lead_nurturing";
                          "meeting_scheduling"; "pipeline_reporting"]
             /\ map (fun kv => (fst kv, stage_digest (snd kv))) results
                = [("lead_generation", (Some false, Some "scan timed out"));
                   ("lead_nurturing", (Some true, Some "store down"));
                   ("meeting_scheduling", (Some true, Some "store down"));
                   ("pipeline_report", (Some true, None))]
         | _ => False
         end
  | (Raise _, _) => False
  end.
Proof. vm_compute. repeat split; reflexivity. Qed.


(** ** Reporting *)

Lemma truediv_nonzero {S} (a b : Z) (s : S) :
  b <> 0%Z -> truediv a b s = (Ok (inject_Z a / inject_Z b)%Q, s).
Proof.
  intros Hb. unfold truediv.
  destruct (Z.eqb_spec b 0) as [E|_]; [contradiction|reflexivity].
Qed.

(** The report is always produced: the two divisions are only made with a
    positive lead count. *)
Lemma report_pipeline_status_done env w :
  exists report w',
    report_pipeline_status env w = (Ok (Done report), w')
    /\ Report.total_leads (Report.summary report) = len (leads_database w)
    /\ Report.lead_to_prospect_conversion (Report.summary report) =
       (if Z.ltb 0 (len (leads_database w))
        then (inject_Z (len (prospects_pipeline w))
              / inject_Z (len (leads_database w)))%Q
        else 0%Q)
    /\ Report.lead_to_meeting_conversion (Report.summary report) =
       (if Z.ltb 0 (len (leads_database w))
        then (inject_Z (len (meetings_scheduled w))
              / inject_Z (len (leads_database w)))%Q
        else 0%Q).
Proof.
  unfold report_pipeline_status, try_catch, bind, gets.
  destruct (Z.ltb_spec 0 (len (leads_database w))) as [Hpos|Hzero].
  - rewrite !truediv_nonzero by lia.
    unfold _get_recent_activity, _generate_pipeline_recommendations, bind,
      gets, utcnow, ret.
    cbn [fst snd]. do 2 eexists. split; [reflexivity|]. cbn.
    repeat split; reflexivity.
  - unfold _get_recent_activity, _generate_pipeline_recommendations, bind,
      gets, utcnow, ret.
    cbn [fst snd]. do 2 eexists. split; [reflexivity|]. cbn.
    repeat split; reflexivity.
Qed.

(** C9: with no lead in the store the report is produced (no exception, in
    particular no division by zero) and both conversion ratios are exactly
    zero. *)
Theorem C9_empty_store_conversions (env : Env) (w : World) :
  leads_database w = [] ->
  exists report w',
    report_pipeline_status env w = (Ok (Done report), w')
    /\ Report.lead_to_prospect_conversion (Report.summary report) = 0%Q
    /\ Report.lead_to_meeting_conversion (Report.summary report) = 0%Q.
Proof.
  intros Hempty.
  destruct (report_pipeline_status_done env w)
    as (report & w' & Hrun & _ & Hp & Hm).
  rewrite Hempty in Hp, Hm. cbn in Hp, Hm.
  exists report, w'. auto.
Qed.

Lemma C9_witness :
  leads_database empty_world = []
  /\ exists report w',
       report_pipeline_status sample_env empty_world = (Ok (Done report), w')
       /\ Report.lead_to_prospect_conversion (Report.summary report) = 0%Q
       /\ Report.lead_to_meeting_conversion (Report.summary report) = 0%Q.
Proof.
  split; [reflexivity|].
  apply (C9_empty_store_conversions sample_env empty_world). reflexivity.
Defined.

(** ** Which workflows touch the metrics *)

Section Keeps.
Context {S X : Type} (proj : S -> X).

Lemma keeps_ret {A} (a : A) : keeps proj (ret a).
Proof. intros s. reflexivity. Qed.

Lemma keeps_raise {A} e : keeps proj (@raise S A e).
Proof. intros s. reflexivity. Qed.

Lemma keeps_gets {A} (f : S -> A) : keeps proj (gets f).
Proof. intros s. reflexivity. Qed.

Lemma keeps_lift_result {A} (r : result A) : keeps proj (lift_result r).
Proof. intros s. reflexivity. Qed.

Lemma keeps_modify (f : S -> S) :
  (forall s, proj (f s) = proj s) -> keeps proj (modify f).
Proof. intros Hf s. apply Hf. Qed.

Lemma keeps_bind {A B} (c : M S A) (k : A -> M S B) :
  keeps proj c -> (forall a, keeps proj (k a)) -> keeps proj (bind c k).
Proof.
  intros Hc Hk s. unfold bind. specialize (Hc s).
  destruct (c s) as [[a|e] s1]; simpl in *; [|exact Hc].
  rewrite (Hk a s1). exact Hc.
Qed.

Lemma keeps_try_catch {A} (c : M S A) (h : exn -> M S A) :
  keeps proj c -> (forall e, keeps proj (h e)) -> keeps proj (try_catch c h).
Proof.
  intros Hc Hh s. unfold try_catch. specialize (Hc s).
  destruct (c s) as [[a|e] s1]; simpl in *; [exact Hc|].
  rewrite (Hh e s1). exact Hc.
Qed.

Lemma keeps_for_each {A} (xs : list A) (body : A -> M S unit) :
  (forall x, keeps proj (body x)) -> keeps proj (for_each xs body).
Proof.
  intros Hb. induction xs as [|x xs IH]; simpl.
  - apply keeps_ret.
  - apply keeps_bind; [apply Hb|]. intros _. exact IH.
Qed.

Lemma keeps_on_self {L A} (c : M S A) :
  keeps proj c -> keeps (fun sl : S * L => proj (fst sl)) (on_self c).
Proof.
  intros Hc [s l]. unfold on_self. simpl. specialize (Hc s).
  destruct (c s) as [r s']. exact Hc.
Qed.

Lemma keeps_on_local {L} (f : L -> L) :
  keeps (fun sl : S * L => proj (fst sl)) (on_local f).
Proof. intros [s l]. reflexivity. Qed.

Lemma keeps_with_local {L A} (init : L) (c : M (S * L) A) :
  keeps (fun sl : S * L => proj (fst sl)) c ->
  keeps proj (with_local init c).
Proof.
  intros Hc s. unfold with_local. specialize (Hc (s, init)).
  destruct (c (s, init)) as [r sl]. exact Hc.
Qed.

End Keeps.

Lemma keeps_metrics_utcnow env : keeps metrics (utcnow env).
Proof. intros w. reflexivity. Qed.

Lemma keeps_metrics_save_state env : keeps metrics (self_save_state env).
Proof. intros w. unfold self_save_state. destruct (save_state env w); reflexivity. Qed.

Ltac keeps_metrics :=
  repeat first
    [ apply keeps_ret
    | apply keeps_raise
    | apply keeps_gets
    | apply keeps_lift_result
    | apply keeps_metrics_utcnow
    | apply keeps_metrics_save_state
    | apply keeps_on_local
    | apply keeps_on_self
    | apply keeps_with_local
    | apply keeps_modify; intros ?; reflexivity
    | apply keeps_bind; [|intros ?]
    | apply keeps_try_catch; [|intros ?]
    | apply keeps_for_each; intros ?
    | match goal with
      | |- keeps _ (if ?b then _ else _) => destruct b
      | |- keeps _ (match ?x with _ => _ end) => destruct x
      end ].

Lemma keeps_metrics_nurture_prospects env leads :
  keeps metrics (nurture_prospects env leads).
Proof.
  unfold nurture_prospects, nurture_prospects_with, nurture_loop,
    nurture_body, nurture_except, contact_step, qualification_step,
    _send_outreach_email, _qualify_lead, get_lead, update_lead.
  keeps_metrics.
Qed.

Lemma keeps_metrics_schedule_meetings env prospects :
  keeps metrics (schedule_meetings env prospects).
Proof.
  unfold schedule_meetings, schedule_loop, schedule_body, schedule_except,
    _find_available_slot, mark_meeting_scheduled.
  cbv zeta. keeps_metrics.
Qed.

Lemma keeps_metrics_report env : keeps metrics (report_pipeline_status env).
Proof.
  unfold report_pipeline_status, _get_recent_activity,
    _generate_pipeline_recommendations, truediv.
  cbv zeta. keeps_metrics.
Qed.

(** The nurturing, scheduling and reporting workflows leave the metrics as
    they were, whatever their outcome. *)
Lemma keeps_metrics_lead_nurturing env task :
  keeps metrics (_execute_lead_nurturing_workflow env task).
Proof.
  unfold _execute_lead_nurturing_workflow. cbv zeta.
  apply keeps_try_catch; [|intros e; apply keeps_ret].
  apply keeps_bind; [apply keeps_gets|]. intros w.
  apply keeps_bind; [apply keeps_metrics_nurture_prospects|]. intros r.
  apply keeps_ret.
Qed.

Lemma keeps_metrics_meeting_scheduling env task :
  keeps metrics (_execute_meeting_scheduling_workflow env task).
Proof.
  unfold _execute_meeting_scheduling_workflow. cbv zeta.
  apply keeps_try_catch; [|intros e; apply keeps_ret].
  apply keeps_bind; [apply keeps_gets|]. intros w.
  apply keeps_bind; [apply keeps_metrics_schedule_meetings|]. intros r.
  apply keeps_ret.
Qed.

Lemma keeps_metrics_pipeline_reporting env task :
  keeps metrics (_execute_pipeline_reporting_workflow env task).
Proof.
  unfold _execute_pipeline_reporting_workflow.
  apply keeps_try_catch; [|intros e; apply keeps_ret].
  apply keeps_bind; [apply keeps_metrics_report|]. intros r.
  apply keeps_ret.
Qed.

(** ** Metrics *)

(** Every call of [update_metrics], for any workflow type and any result,
    increments [total_workflows_executed] by exactly one, stamps
    [last_execution] with the current time and sets [success_rate] to the
    success indicator of that one result divided by the new total. *)
Lemma update_metrics_spec (env : Env) (workflow_type : string)
      (results : Envelope.t) (w : World) :
  (0 <= DepartmentMetrics.total_workflows_executed (metrics w))%Z ->
  exists w',
    update_metrics env workflow_type results w = (Ok tt, w')
    /\ DepartmentMetrics.total_workflows_executed (metrics w') =
       (DepartmentMetrics.total_workflows_executed (metrics w) + 1)%Z
    /\ DepartmentMetrics.last_execution (metrics w') =
       Some (clock env (clock_reads w))
    /\ DepartmentMetrics.success_rate (metrics w') =
       (inject_Z (if default false (Envelope.success results)
                  then 1 else 0)
        / inject_Z (DepartmentMetrics.total_workflows_executed (metrics w)
                    + 1))%Q.
Proof.
  intros Hnonneg.
  unfold update_metrics, bind, update_metrics_field, modify, now, utcnow,
    gets, ret.
  cbn [fst snd metrics with_metrics with_clock_reads clock_reads].
  destruct (String.eqb workflow_type "lead_generation");
    [|destruct (String.eqb workflow_type "quick_wins");
      [|destruct (String.eqb workflow_type "full_outreach")]];
    cbn [metrics with_metrics DepartmentMetrics.total_workflows_executed
         DepartmentMetrics.with_leads_generated
         DepartmentMetrics.with_leads_qualified
         DepartmentMetrics.with_messages_composed
         DepartmentMetrics.with_personalization_score
         DepartmentMetrics.with_response_rate
         DepartmentMetrics.with_last_execution
         DepartmentMetrics.with_total_workflows_executed];
    (destruct (Z.ltb_spec 0
       (DepartmentMetrics.total_workflows_executed (metrics w) + 1))
       as [_|Hbad]; [|lia]);
    rewrite truediv_nonzero by lia;
    eexists; (split; [reflexivity|]); cbn; repeat split; reflexivity.
Qed.

(** C2 (as the code has it): a call of [update_metrics] on the result of a
    workflow, for any workflow type and any result, successful or not,
    increments [total_workflows_executed] by exactly one, stamps
    [last_execution] with the current time and sets [success_rate] to the
    success indicator of that one result divided by the new total. The
    dispatch does not make this update: a lead nurturing, meeting
    scheduling or pipeline reporting invocation leaves the metrics as they
    were. *)
Theorem C2_update_metrics_effect (env : Env) (workflow_type : string)
        (results : Envelope.t) (w : World) :
  (0 <= DepartmentMetrics.total_workflows_executed (metrics w))%Z ->
  (exists w',
     update_metrics env workflow_type results w = (Ok tt, w')
     /\ DepartmentMetrics.total_workflows_executed (metrics w') =
        (DepartmentMetrics.total_workflows_executed (metrics w) + 1)%Z
     /\ DepartmentMetrics.last_execution (metrics w') =
        Some (clock env (clock_reads w))
     /\ DepartmentMetrics.success_rate (metrics w') =
        (inject_Z (if default false (Envelope.success results)
                   then 1 else 0)
         / inject_Z (DepartmentMetrics.total_workflows_executed (metrics w)
                     + 1))%Q)
  /\ (forall depth config,
        In (cfg_workflow_type config)
           [Some "lead_nurturing"; Some "meeting_scheduling";
            Some "pipeline_reporting"] ->
        metrics (snd (execute_workflow env (S depth) config w)) = metrics w).
Proof.
  intros Hnonneg. split; [apply update_metrics_spec; exact Hnonneg|].
  intros depth config Hin. rewrite execute_workflow_dispatch.
  unfold dispatch.
  destruct Hin as [E|[E|[E|[]]]]; rewrite <- E; cbn.
  - apply keeps_metrics_lead_nurturing.
  - apply keeps_metrics_meeting_scheduling.
  - apply keeps_metrics_pipeline_reporting.
Qed.

Lemma C2_witness :
  (0 <= DepartmentMetrics.total_workflows_executed (metrics empty_world))%Z
  /\ exists w',
       update_metrics sample_env "lead_nurturing"
         (Envelope.stage_success "lead_nurturing" NoPayload) empty_world
       = (Ok tt, w')
       /\ DepartmentMetrics.total_workflows_executed (metrics w') = 1%Z
       /\ DepartmentMetrics.last_execution (metrics w') = Some 0%Z
       /\ (DepartmentMetrics.success_rate (metrics w') == 1)%Q.
Proof.
  split; [vm_compute; discriminate|].
  destruct (C2_update_metrics_effect sample_env "lead_nurturing"
              (Envelope.stage_success "lead_nurturing" NoPayload) empty_world)
    as [(w' & Hrun & Htotal & Hstamp & Hrate) _].
  - vm_compute. discriminate.
  - exists w'. split; [exact Hrun|]. split; [exact Htotal|].
    split; [exact Hstamp|]. rewrite Hrate. reflexivity.
Defined.


(** C2 as stated fails on the workflow dispatch. A lead nurturing
    invocation returns a successful envelope and leaves the metrics
    untouched: the total stays 0, no [last_execution] is stamped and the
    success rate stays 0. And when the caller does call [update_metrics] on
    the result of a lead generation invocation, the total has grown by two,
    the workflow having counted itself already. *)
Lemma C2_counterexample :
  (let outcome :=
     invoke sample_env false "lead_nurturing" (config_for "lead_nurturing")
            empty_world in
   let m := metrics (snd outcome) in
   option_map Envelope.success
     (match fst outcome with Ok e => Some e | Raise _ => None end)
     = Some (Some true)
   /\ DepartmentMetrics.total_workflows_executed m <>
      (DepartmentMetrics.total_workflows_executed (metrics empty_world) + 1)%Z
   /\ DepartmentMetrics.total_workflows_executed m = 0%Z
   /\ DepartmentMetrics.last_execution m = None
   /\ DepartmentMetrics.success_rate m = 0%Q)
  /\
  (let outcome :=
     invoke sample_env true "lead_generation" (config_for "lead_generation")
            world_with_agents in
   let m := metrics (snd outcome) in
   DepartmentMetrics.total_workflows_executed m <>
     (DepartmentMetrics.total_workflows_executed (metrics world_with_agents)
      + 1)%Z
   /\ DepartmentMetrics.total_workflows_executed m = 2%Z).
Proof.
  vm_compute. repeat split; discriminate.
Qed.


(** ** The running mean of the lead generation workflow *)

Lemma checkpoint_leads_noop leads : forall w,
  checkpoint_leads leads w = (Ok tt, w).
Proof.
  unfold checkpoint_leads.
  induction leads as [|lead rest IH]; intros w; [reflexivity|].
  simpl for_each. unfold bind at 1, bind at 1, gets, try_catch.
  destruct (redis_client w) as [redis|]; [|exact (IH w)].
  unfold lift_result. destruct (setex redis _ _ _); exact (IH w).
Qed.

Lemma inject_Z_nonzero z : z <> 0%Z -> Qeq_bool (inject_Z z) 0 = false.
Proof.
  intros Hz. destruct (Qeq_bool (inject_Z z) 0) eqn:E; [|reflexivity].
  apply Qeq_bool_iff in E. unfold Qeq in E. simpl in E. lia.
Qed.

(** One successful run: it is counted and its duration is folded into the
    average by the incremental-mean update. *)
Lemma lead_generation_step env config w :
  scanner_answers w ->
  (0 <= DepartmentMetrics.total_workflows_executed (metrics w))%Z ->
  exists e w',
    _execute_lead_generation_workflow env config w = (Ok e, w')
    /\ Envelope.success e = Some true
    /\ Envelope.execution_time e =
       Some (total_seconds (clock env (S (clock_reads w))
                            - clock env (clock_reads w)))
    /\ lead_scanner w' = lead_scanner w
    /\ DepartmentMetrics.total_workflows_executed (metrics w') =
       (DepartmentMetrics.total_workflows_executed (metrics w) + 1)%Z
    /\ DepartmentMetrics.average_execution_time (metrics w') =
       ((DepartmentMetrics.average_execution_time (metrics w)
         * inject_Z (DepartmentMetrics.total_workflows_executed (metrics w))
         + total_seconds (clock env (S (clock_reads w))
                          - clock env (clock_reads w)))
        / inject_Z (DepartmentMetrics.total_workflows_executed (metrics w)
                    + 1))%Q.
Proof.
  intros (scanner & Hscanner & Hanswers) Htotal.
  unfold _execute_lead_generation_workflow, now, utcnow.
  unfold bind at 1. cbn [fst snd].
  unfold try_catch, bind at 1, gets. cbn [fst snd lead_scanner with_clock_reads].
  rewrite Hscanner.
  match goal with
  | |- context [scan_for_leads scanner ?c] =>
      destruct (Hanswers c) as (leads & ->)
  end.
  unfold bind at 1, lift_result.
  unfold bind at 1. rewrite checkpoint_leads_noop.
  unfold bind, update_metrics_field, modify, gets, ret, truediv_float.
  cbn [fst snd metrics with_metrics clock_reads with_clock_reads
       DepartmentMetrics.total_workflows_executed
       DepartmentMetrics.with_leads_generated
       DepartmentMetrics.with_total_workflows_executed
       DepartmentMetrics.with_last_execution
       DepartmentMetrics.average_execution_time].
  destruct (Z.ltb_spec 0
              (DepartmentMetrics.total_workflows_executed (metrics w) + 1))
    as [_|Hbad]; [|lia].
  rewrite inject_Z_nonzero by lia.
  replace (DepartmentMetrics.total_workflows_executed (metrics w) + 1 - 1)%Z
    with (DepartmentMetrics.total_workflows_executed (metrics w)) by lia.
  do 2 eexists. split; [reflexivity|]. cbn. repeat split; try reflexivity.
  exact Hscanner.
Qed.

Lemma incremental_mean_step (average sum duration : Q) (n : Z) :
  (0 <= n)%Z ->
  (average * inject_Z n == sum)%Q ->
  ((average * inject_Z n + duration) / inject_Z (n + 1) * inject_Z (n + 1)
   == sum + duration)%Q.
Proof.
  intros Hn Hsum. rewrite Hsum.
  assert (Hnz : ~ (inject_Z (n + 1) == 0)%Q).
  { unfold Qeq. simpl. lia. }
  field. exact Hnz.
Qed.

(** The incremental-mean law of the lead generation workflow: over any
    sequence of runs that succeed, the average times the count is the sum
    of the execution times. *)
Lemma lead_generation_runs_mean env configs : forall w sum,
  scanner_answers w ->
  (0 <= DepartmentMetrics.total_workflows_executed (metrics w))%Z ->
  (DepartmentMetrics.average_execution_time (metrics w)
   * inject_Z (DepartmentMetrics.total_workflows_executed (metrics w))
   == sum)%Q ->
  exists durations w',
    lead_generation_runs env configs w = (Ok durations, w')
    /\ DepartmentMetrics.total_workflows_executed (metrics w') =
       (DepartmentMetrics.total_workflows_executed (metrics w)
        + len configs)%Z
    /\ List.length durations = List.length configs
    /\ (DepartmentMetrics.average_execution_time (metrics w')
        * inject_Z (DepartmentMetrics.total_workflows_executed (metrics w'))
        == sum + fold_right Qplus 0 durations)%Q.
Proof.
  induction configs as [|config rest IH]; intros w sum Hscan Htotal Hmean.
  - exists [], w. split; [reflexivity|]. unfold len. simpl.
    split; [lia|]. split; [reflexivity|]. rewrite Hmean. ring.
  - destruct (lead_generation_step env config w Hscan Htotal)
      as (e & w1 & Hrun & _ & Htime & Hsc & Hcount & Havg).
    assert (Hscan1 : scanner_answers w1).
    { destruct Hscan as (scanner & Hs & Ha). exists scanner.
      split; [congruence|exact Ha]. }
    assert (Htotal1 :
              (0 <= DepartmentMetrics.total_workflows_executed (metrics w1))%Z)
      by lia.
    pose proof (incremental_mean_step _ _
                  (total_seconds (clock env (S (clock_reads w))
                                  - clock env (clock_reads w)))
                  _ Htotal Hmean) as Hstep.
    rewrite <- Havg, <- Hcount in Hstep.
    destruct (IH w1 _ Hscan1 Htotal1 Hstep)
      as (durations & w' & Hrest & Hcount' & Hlen & Hmean').
    exists (total_seconds (clock env (S (clock_reads w))
                           - clock env (clock_reads w)) :: durations), w'.
    split.
    + simpl lead_generation_runs. rewrite (bind_ok _ _ _ _ _ Hrun).
      rewrite (bind_ok _ _ _ _ _ Hrest). rewrite Htime. reflexivity.
    + split.
      * rewrite Hcount', Hcount. unfold len. simpl List.length. lia.
      * split; [simpl; congruence|].
        rewrite Hmean'. simpl fold_right. ring.
Qed.

(** From fresh metrics, after [n > 0] successful lead generation runs the
    average is the arithmetic mean of their execution times. *)
Lemma lead_generation_mean_law env configs w :
  scanner_answers w ->
  DepartmentMetrics.total_workflows_executed (metrics w) = 0%Z ->
  configs <> [] ->
  exists durations w',
    lead_generation_runs env configs w = (Ok durations, w')
    /\ DepartmentMetrics.total_workflows_executed (metrics w') = len configs
    /\ (DepartmentMetrics.average_execution_time (metrics w')
        == mean durations)%Q.
Proof.
  intros Hscan Hzero Hne.
  destruct (lead_generation_runs_mean env configs w 0 Hscan)
    as (durations & w' & Hrun & Hcount & Hlen & Hmean).
  - lia.
  - rewrite Hzero. ring.
  - exists durations, w'. split; [exact Hrun|].
    rewrite Hzero in Hcount. simpl in Hcount.
    split; [exact Hcount|].
    unfold mean, len. rewrite Hlen.
    rewrite Hcount in Hmean. unfold len in Hmean.
    assert (Hnz : ~ (inject_Z (Z.of_nat (List.length configs)) == 0)%Q).
    { unfold Qeq. simpl. destruct configs; [contradiction|simpl; lia]. }
    rewrite Qplus_0_l in Hmean. rewrite <- Hmean. field. exact Hnz.
Qed.

(** C1, at a failing input: a lead generation run lasting 1 second followed
    by a quick wins run lasting 7 seconds. Both succeed and both are
    counted, but only the first duration enters the average: it stays 1
    second where the mean of the two durations is 4 seconds. *)
Lemma C1_running_mean_broken :
  let first :=
    execute_workflow sample_env 1 (config_for "lead_generation")
                     world_with_agents in
  let second :=
    execute_workflow sample_env 1 (config_for "quick_wins") (snd first) in
  let m := metrics (snd second) in
  exists e1 e2,
    fst first = Ok e1 /\ fst second = Ok e2
    /\ Envelope.success e1 = Some true /\ Envelope.success e2 = Some true
    /\ Envelope.execution_time e1 = Some (total_seconds 1000000)
    /\ Envelope.execution_time e2 = Some (total_seconds 7000000)
    /\ DepartmentMetrics.total_workflows_executed m = 2%Z
    /\ (DepartmentMetrics.average_execution_time m == 1)%Q
    /\ (mean [total_seconds 1000000; total_seconds 7000000] == 4)%Q
    /\ ~ (DepartmentMetrics.average_execution_time m
          == mean [total_seconds 1000000; total_seconds 7000000])%Q.
Proof.
  vm_compute. do 2 eexists.
  repeat split; try reflexivity; discriminate.
Qed.

(** ** Dict tables *)

Section DictFacts.
Context {V : Type}.
Implicit Types (d : PyDict.t V) (k : string) (v : V).

Lemma mem_true_iff k d : PyDict.mem k d = true <-> In k (PyDict.keys d).
Proof.
  unfold PyDict.mem. induction d as [|[k' v'] d IH]; simpl.
  - split; [discriminate|tauto].
  - destruct (String.eqb_spec k' k) as [->|Hne]; [tauto|].
    rewrite IH. split; [tauto|]. intros [E|H]; [contradiction|exact H].
Qed.

Lemma mem_false_iff k d : PyDict.mem k d = false <-> ~ In k (PyDict.keys d).
Proof.
  rewrite <- mem_true_iff. destruct (PyDict.mem k d); split; intros H;
    try reflexivity; try discriminate; try (intros E; discriminate).
  exfalso. apply H. reflexivity.
Qed.

Lemma keys_set_mem k v d :
  PyDict.mem k d = true -> PyDict.keys (PyDict.set k v d) = PyDict.keys d.
Proof.
  unfold PyDict.mem. induction d as [|[k' v'] d IH]; simpl; [discriminate|].
  destruct (String.eqb_spec k' k) as [->|Hne]; simpl; [reflexivity|].
  intros H. f_equal. apply IH. exact H.
Qed.

Lemma keys_set_new k v d :
  PyDict.mem k d = false ->
  PyDict.keys (PyDict.set k v d) = PyDict.keys d ++ [k].
Proof.
  unfold PyDict.mem. induction d as [|[k' v'] d IH]; simpl; [reflexivity|].
  destruct (String.eqb_spec k' k) as [->|Hne]; simpl; [discriminate|].
  intros H. f_equal. apply IH. exact H.
Qed.

Lemma wf_set k v d : PyDict.wf d -> PyDict.wf (PyDict.set k v d).
Proof.
  unfold PyDict.wf. intros Hwf.
  destruct (PyDict.mem k d) eqn:Hmem.
  - rewrite keys_set_mem by exact Hmem. exact Hwf.
  - rewrite keys_set_new by exact Hmem.
    apply mem_false_iff in Hmem.
    apply NoDup_app; [exact Hwf | repeat constructor; simpl; tauto |].
    intros x Hx [<-|[]]. contradiction.
Qed.

Lemma get_set_same k v d : PyDict.get k (PyDict.set k v d) = Some v.
Proof.
  induction d as [|[k' v'] d IH]; simpl.
  - rewrite String.eqb_refl. reflexivity.
  - destruct (String.eqb_spec k' k) as [->|Hne]; simpl.
    + rewrite String.eqb_refl. reflexivity.
    + destruct (String.eqb_spec k' k); [contradiction|exact IH].
Qed.

Lemma get_set_other k k' v d :
  k <> k' -> PyDict.get k' (PyDict.set k v d) = PyDict.get k' d.
Proof.
  intros Hne. induction d as [|[k0 v0] d IH]; simpl.
  - destruct (String.eqb_spec k k'); [contradiction|reflexivity].
  - destruct (String.eqb_spec k0 k) as [->|Hne0]; simpl.
    + destruct (String.eqb_spec k k'); [contradiction|reflexivity].
    + destruct (String.eqb_spec k0 k'); [reflexivity|exact IH].
Qed.

Lemma keys_update k (f : V -> V) d :
  PyDict.keys (PyDict.update k f d) = PyDict.keys d.
Proof.
  induction d as [|[k' v'] d IH]; simpl; [reflexivity|].
  destruct (String.eqb k' k); simpl; [reflexivity|]. f_equal. exact IH.
Qed.

Lemma get_update_same k (f : V -> V) d :
  PyDict.get k (PyDict.update k f d) = option_map f (PyDict.get k d).
Proof.
  induction d as [|[k' v'] d IH]; simpl; [reflexivity|].
  destruct (String.eqb_spec k' k) as [->|Hne]; simpl.
  - rewrite String.eqb_refl. reflexivity.
  - destruct (String.eqb_spec k' k); [contradiction|exact IH].
Qed.

Lemma get_update_other k k' (f : V -> V) d :
  k <> k' -> PyDict.get k' (PyDict.update k f d) = PyDict.get k' d.
Proof.
  intros Hne. induction d as [|[k0 v0] d IH]; simpl; [reflexivity|].
  destruct (String.eqb_spec k0 k) as [->|Hne0]; simpl.
  - destruct (String.eqb_spec k k'); [contradiction|reflexivity].
  - destruct (String.eqb_spec k0 k'); [reflexivity|exact IH].
Qed.

Lemma count_not_in k d : ~ In k (PyDict.keys d) -> PyDict.count k d = 0%nat.
Proof.
  unfold PyDict.count. induction d as [|[k' v'] d IH]; simpl; [reflexivity|].
  intros Hnot. destruct (String.eqb_spec k' k) as [->|Hne]; [tauto|].
  apply IH. tauto.
Qed.

(** In a well-formed table a key holds at most one entry. *)
Lemma count_wf_le_one k d : PyDict.wf d -> (PyDict.count k d <= 1)%nat.
Proof.
  unfold PyDict.wf, PyDict.count.
  induction d as [|[k' v'] d IH]; simpl; intros Hwf; [lia|].
  inversion Hwf as [|? ? Hnot Hwf']; subst.
  destruct (String.eqb_spec k' k) as [->|Hne]; simpl.
  - pose proof (count_not_in k d Hnot) as H0. unfold PyDict.count in H0.
    rewrite H0. lia.
  - apply IH. exact Hwf'.
Qed.

Lemma count_mem_pos k d : PyDict.mem k d = true -> (1 <= PyDict.count k d)%nat.
Proof.
  unfold PyDict.mem, PyDict.count.
  induction d as [|[k' v'] d IH]; simpl; [discriminate|].
  destruct (String.eqb_spec k' k) as [->|Hne]; simpl; [lia|exact IH].
Qed.

Lemma mem_set k v d : PyDict.mem k (PyDict.set k v d) = true.
Proof. unfold PyDict.mem. rewrite get_set_same. reflexivity. Qed.

(** After [d[k] = v] on a well-formed table, [k] holds exactly one entry. *)
Lemma count_set_one k v d :
  PyDict.wf d -> PyDict.count k (PyDict.set k v d) = 1%nat.
Proof.
  intros Hwf.
  pose proof (count_wf_le_one k _ (wf_set k v d Hwf)).
  pose proof (count_mem_pos k _ (mem_set k v d)). lia.
Qed.

End DictFacts.

(** ** The nurture loop: failure isolation *)

Section NurtureAccounting.
Variable env : Env.
Variable send_outreach_email : addr -> string -> M World bool.
Variable qualify_lead : addr -> M World (option Prospect.t).

Lemma keeps_tally_ret {A} (a : A) : keeps_tally (ret a).
Proof. intros s. split; reflexivity. Qed.

Lemma keeps_tally_on_self {A} (c : M World A) : keeps_tally (on_self c).
Proof.
  intros [w r]. unfold on_self. simpl. destruct (c w) as [x w'].
  split; reflexivity.
Qed.

Lemma keeps_tally_on_local f :
  (forall r, NurturingResults.leads_contacted (f r) =
               NurturingResults.leads_contacted r
             /\ NurturingResults.errors (f r) = NurturingResults.errors r) ->
  keeps_tally (on_local f).
Proof. intros Hf [w r]. unfold on_local. simpl. apply Hf. Qed.

Lemma keeps_tally_bind {A B} (c : M (World * NurturingResults.t) A)
      (k : A -> M (World * NurturingResults.t) B) :
  keeps_tally c -> (forall a, keeps_tally (k a)) -> keeps_tally (bind c k).
Proof.
  intros Hc Hk s. unfold bind. specialize (Hc s).
  destruct (c s) as [[a|e] s1]; simpl in *; [|exact Hc].
  destruct (Hk a s1) as [H1 H2]. destruct Hc as [H3 H4].
  split; congruence.
Qed.

Lemma keeps_tally_contact lead :
  keeps_tally (contact_step env send_outreach_email lead).
Proof.
  unfold contact_step.
  apply keeps_tally_bind; [apply keeps_tally_on_self|]. intros l.
  destruct (String.eqb (Lead.status l) "new");
    [|destruct (String.eqb (Lead.status l) "contacted"
                && Z.ltb (Lead.contact_attempts l) 3)];
    try apply keeps_tally_ret;
    (apply keeps_tally_bind; [apply keeps_tally_on_self|]; intros [|];
     [|apply keeps_tally_ret]);
    repeat (apply keeps_tally_bind;
            [first [apply keeps_tally_on_self
                   |apply keeps_tally_on_local; intros r; split; reflexivity]
            |intros ?]);
    apply keeps_tally_on_self.
Qed.

Lemma keeps_tally_qualification lead :
  keeps_tally (qualification_step qualify_lead lead).
Proof.
  unfold qualification_step.
  apply keeps_tally_bind; [apply keeps_tally_on_self|]. intros l.
  destruct (Qltb 7 (Lead.score l) && Z.leb 2 (Lead.contact_attempts l));
    [|apply keeps_tally_ret].
  apply keeps_tally_bind; [apply keeps_tally_on_self|]. intros [p|];
    [|apply keeps_tally_ret].
  repeat (apply keeps_tally_bind;
          [first [apply keeps_tally_on_self
                 |apply keeps_tally_on_local; intros r; split; reflexivity]
          |intros ?]).
  apply keeps_tally_on_self.
Qed.

(** One lead is counted as contacted exactly when its processing returns. *)
Lemma nurture_body_tally lead w res :
  match nurture_body env send_outreach_email qualify_lead lead (w, res) with
  | (Ok _, (_, res')) =>
      NurturingResults.leads_contacted res' =
        (NurturingResults.leads_contacted res + 1)%Z
      /\ NurturingResults.errors res' = NurturingResults.errors res
  | (Raise _, (_, res')) =>
      NurturingResults.leads_contacted res' =
        NurturingResults.leads_contacted res
      /\ NurturingResults.errors res' = NurturingResults.errors res
  end.
Proof.
  unfold nurture_body, bind.
  pose proof (keeps_tally_contact lead (w, res)) as Hc.
  destruct (contact_step env send_outreach_email lead (w, res))
    as [[[]|e] s1]; simpl in Hc; [|destruct s1; exact Hc].
  pose proof (keeps_tally_qualification lead s1) as Hq.
  destruct (qualification_step qualify_lead lead s1) as [[[]|e] s2];
    simpl in Hq; destruct s2 as [w2 res2]; simpl in *.
  - destruct Hc, Hq. split; congruence.
  - destruct Hc, Hq. split; congruence.
Qed.

(** One turn of the loop: a lead whose processing raises is recorded under
    its id and the loop goes on with the next lead. *)
Lemma nurture_loop_step lead rest w res :
  nurture_loop env send_outreach_email qualify_lead (lead :: rest) (w, res) =
  match nurture_body env send_outreach_email qualify_lead lead (w, res) with
  | (Ok _, s1) =>
      nurture_loop env send_outreach_email qualify_lead rest s1
  | (Raise e, (w1, res1)) =>
      nurture_loop env send_outreach_email qualify_lead rest
        (w1, NurturingResults.append_error
               (nurture_error (Lead.id (heap w1 lead)) e) res1)
  end.
Proof.
  unfold nurture_loop at 1. simpl for_each. unfold bind at 1, try_catch.
  destruct (nurture_body env send_outreach_email qualify_lead lead (w, res))
    as [[[]|e] [w1 res1]]; reflexivity.
Qed.

(** The loop never raises, and every lead of the batch is either counted
    as contacted or recorded in the error list. *)
Lemma nurture_loop_tally leads : forall w res,
  exists w' res',
    nurture_loop env send_outreach_email qualify_lead leads (w, res)
    = (Ok tt, (w', res'))
    /\ (NurturingResults.leads_contacted res'
        + len (NurturingResults.errors res')
        = NurturingResults.leads_contacted res
          + len (NurturingResults.errors res) + len leads)%Z.
Proof.
  induction leads as [|lead rest IH]; intros w res.
  - exists w, res. split; [reflexivity|]. unfold len. simpl. lia.
  - rewrite nurture_loop_step.
    pose proof (nurture_body_tally lead w res) as Hb.
    destruct (nurture_body env send_outreach_email qualify_lead lead (w, res))
      as [[[]|e] [w1 res1]].
    + destruct (IH w1 res1) as (w' & res' & Hrun & Hcount).
      exists w', res'. split; [exact Hrun|]. destruct Hb as [H1 H2].
      rewrite Hcount, H1, H2. unfold len. simpl List.length. lia.
    + destruct (IH w1 (NurturingResults.append_error
                         (nurture_error (Lead.id (heap w1 lead)) e) res1))
        as (w' & res' & Hrun & Hcount).
      exists w', res'. split; [exact Hrun|]. destruct Hb as [H1 H2].
      rewrite Hcount. simpl NurturingResults.leads_contacted.
      simpl NurturingResults.errors. rewrite H1, H2.
      unfold len. rewrite length_app. simpl List.length. lia.
Qed.

(** The whole method: the results of the loop, or the failure of the final
    [save_state]. *)
Lemma nurture_prospects_with_tally leads w :
  exists res w',
    with_local NurturingResults.initial
      (nurture_loop env send_outreach_email qualify_lead leads) w
    = (Ok res, w')
    /\ (NurturingResults.leads_contacted res
        + len (NurturingResults.errors res) = len leads)%Z
    /\ nurture_prospects_with env send_outreach_email qualify_lead leads w =
       (Ok (match save_state env w' with
            | None => Done res
            | Some e => Failed (exn_msg e)
            end), w').
Proof.
  destruct (nurture_loop_tally leads w NurturingResults.initial)
    as (w' & res & Hrun & Hcount).
  exists res, w'.
  assert (Hlocal : with_local NurturingResults.initial
            (nurture_loop env send_outreach_email qualify_lead leads) w
          = (Ok res, w')).
  { unfold with_local. rewrite Hrun. reflexivity. }
  split; [exact Hlocal|]. split.
  - rewrite Hcount. simpl. unfold len. simpl. lia.
  - unfold nurture_prospects_with, try_catch.
    rewrite (bind_ok _ _ _ _ _ Hlocal).
    unfold bind, self_save_state.
    destruct (save_state env w'); reflexivity.
Qed.

End NurtureAccounting.

(** C5: in every nurture batch, whatever the two helper methods do, a lead
    whose processing raises is recorded as one error entry carrying its id
    and the loop continues with the next lead; the loop itself never
    raises, and each lead of the batch is either counted as contacted or
    has one error entry. In the batch of five leads in which sending fails
    for the third, the result has exactly one error entry, naming the third
    lead, and leads 1, 2, 4 and 5 are contacted. *)
Theorem C5_nurture_failure_isolation
        (env : Env)
        (send_outreach_email : addr -> string -> M World bool)
        (qualify_lead : addr -> M World (option Prospect.t)) :
  (forall lead rest w res,
     nurture_loop env send_outreach_email qualify_lead (lead :: rest) (w, res)
     = match nurture_body env send_outreach_email qualify_lead lead (w, res)
       with
       | (Ok _, s1) =>
           nurture_loop env send_outreach_email qualify_lead rest s1
       | (Raise e, (w1, res1)) =>
           nurture_loop env send_outreach_email qualify_lead rest
             (w1, NurturingResults.append_error
                    (nurture_error (Lead.id (heap w1 lead)) e) res1)
       end)
  /\ (forall leads w,
        exists res w',
          with_local NurturingResults.initial
            (nurture_loop env send_outreach_email qualify_lead leads) w
          = (Ok res, w')
          /\ (NurturingResults.leads_contacted res
              + len (NurturingResults.errors res) = len leads)%Z
          /\ nurture_prospects_with env send_outreach_email qualify_lead
               leads w
             = (Ok (match save_state env w' with
                    | None => Done res
                    | Some e => Failed (exn_msg e)
                    end), w'))
  /\ (let outcome :=
        nurture_prospects_with sample_env (failing_send sample_env "lead_3")
          _qualify_lead [0; 1; 2; 3; 4]%nat (world_with_leads five_leads) in
      fst outcome =
        Ok (Done (NurturingResults.mk 4 4 0 0
                    ["Error nurturing lead lead_3: SMTP down"]))
      /\ map (fun a => let l := heap (snd outcome) a in
                       (Lead.id l, Lead.status l, Lead.contact_attempts l))
             [0; 1; 3; 4]%nat
         = [("lead_1", "contacted", 1%Z); ("lead_2", "contacted", 1%Z);
            ("lead_4", "contacted", 1%Z); ("lead_5", "contacted", 1%Z)]
      /\ heap (snd outcome) 2%nat = sample_lead "lead_3" 8 "new" 0%Z).
Proof.
  split; [|split].
  - intros lead rest w res. apply nurture_loop_step.
  - intros leads w. apply nurture_prospects_with_tally.
  - vm_compute. repeat split; reflexivity.
Qed.

(** ** The nurture loop with the helper methods of the class *)

Lemma lead_grows_refl l : lead_grows l l.
Proof. unfold lead_grows. repeat split; lia. Qed.

Lemma heap_grows_refl w : heap_grows w w.
Proof. intros a. apply lead_grows_refl. Qed.

Lemma heap_grows_trans w1 w2 w3 :
  heap_grows w1 w2 -> heap_grows w2 w3 -> heap_grows w1 w3.
Proof.
  intros H12 H23 a. destruct (H12 a) as (I1 & S1 & A1).
  destruct (H23 a) as (I2 & S2 & A2).
  unfold lead_grows. repeat split; try congruence. lia.
Qed.

Ltac run_block :=
  unfold _send_outreach_email, _qualify_lead, try_catch, bind, on_self,
    on_local, get_lead, update_lead, gets, modify, utcnow, ret;
  cbn [fst snd heap with_heap with_clock_reads with_prospects_pipeline
       prospects_pipeline clock_reads].

Ltac lead_facts :=
  repeat match goal with
         | |- _ /\ _ => split
         | |- heap_grows _ _ => intros ?a; unfold lead_grows
         | |- forall _, _ => intros
         end;
  cbn [fst snd heap with_heap with_clock_reads with_prospects_pipeline
       prospects_pipeline clock_reads];
  repeat match goal with
         | |- context [Nat.eqb ?a ?b] =>
             destruct (Nat.eqb_spec a b); [subst|]
         end;
  cbn; try reflexivity; try lia; try congruence.

(** The outreach step: it returns, leaves the prospect table alone and
    touches no other lead object. *)
Lemma contact_step_spec env lead w res :
  exists w1 res1,
    contact_step env (_send_outreach_email env) lead (w, res)
    = (Ok tt, (w1, res1))
    /\ prospects_pipeline w1 = prospects_pipeline w
    /\ heap_grows w w1
    /\ (forall a, a <> lead -> heap w1 a = heap w a)
    /\ (Lead.status (heap w lead) = "qualified" ->
        heap w1 lead = heap w lead).
Proof.
  unfold contact_step. run_block.
  destruct (String.eqb_spec (Lead.status (heap w lead)) "new") as [Hnew|Hnew].
  - run_block. do 2 eexists. split; [reflexivity|]. lead_facts.
  - destruct (String.eqb_spec (Lead.status (heap w lead)) "contacted")
      as [Hc|Hc]; cbn [andb].
    + destruct (Z.ltb (Lead.contact_attempts (heap w lead)) 3).
      * run_block. do 2 eexists. split; [reflexivity|]. lead_facts.
      * run_block. do 2 eexists. split; [reflexivity|]. lead_facts.
    + run_block. do 2 eexists. split; [reflexivity|]. lead_facts.
Qed.

Lemma Qltb_iff a b : Qltb a b = true <-> (a < b)%Q.
Proof.
  unfold Qltb. rewrite negb_true_iff.
  split; intros H.
  - apply Qnot_le_lt. intros Hle. apply Qle_bool_iff in Hle. congruence.
  - destruct (Qle_bool b a) eqn:E; [|reflexivity].
    apply Qle_bool_iff in E. exfalso. exact (Qlt_not_le _ _ H E).
Qed.

Lemma Qltb_le a b : Qltb a b = true -> Qle_bool a b = true.
Proof.
  intros H. apply Qle_bool_iff, Qlt_le_weak, Qltb_iff. exact H.
Qed.

Lemma qualifies_iff l :
  qualifies l = true <->
  (7 < Lead.score l)%Q /\ (2 <= Lead.contact_attempts l)%Z.
Proof.
  unfold qualifies. rewrite andb_true_iff, Qltb_iff, Z.leb_le. tauto.
Qed.

Lemma qualifies_grows l l' :
  lead_grows l l' -> qualifies l = true -> qualifies l' = true.
Proof.
  intros (_ & Hs & Ha). rewrite !qualifies_iff. rewrite Hs.
  intros [H1 H2]. split; [exact H1|lia].
Qed.

(** The qualification step: it returns; a lead that meets the condition
    gets the prospect built for it stored under its id and becomes
    qualified, any other lead leaves the prospect table and itself as they
    are. *)
Lemma qualification_step_spec lead w res :
  exists w2 res2,
    qualification_step _qualify_lead lead (w, res) = (Ok tt, (w2, res2))
    /\ heap_grows w w2
    /\ (forall a, a <> lead -> heap w2 a = heap w a)
    /\ (if qualifies (heap w lead)
        then prospects_pipeline w2 =
               PyDict.set (Lead.id (heap w lead))
                          (fresh_prospect lead (heap w lead))
                          (prospects_pipeline w)
             /\ Lead.status (heap w2 lead) = "qualified"
        else prospects_pipeline w2 = prospects_pipeline w
             /\ heap w2 lead = heap w lead).
Proof.
  unfold qualification_step, qualifies. run_block.
  destruct (Qltb 7 (Lead.score (heap w lead))) eqn:Hscore; cbn [andb].
  - destruct (Z.leb 2 (Lead.contact_attempts (heap w lead))).
    + run_block. rewrite (Qltb_le _ _ Hscore). run_block.
      do 2 eexists. split; [reflexivity|]. unfold fresh_prospect.
      lead_facts.
    + run_block. do 2 eexists. split; [reflexivity|]. lead_facts.
  - run_block. do 2 eexists. split; [reflexivity|]. lead_facts.
Qed.

(** The processing of one lead by the loop body. *)
Lemma nurture_body_spec env lead w res :
  exists w1 res1 w2 res2,
    contact_step env (_send_outreach_email env) lead (w, res)
    = (Ok tt, (w1, res1))
    /\ nurture_body env (_send_outreach_email env) _qualify_lead lead (w, res)
       = (Ok tt, (w2, res2))
    /\ heap_grows w w1
    /\ heap_grows w1 w2
    /\ (forall a, a <> lead -> heap w2 a = heap w a)
    /\ (if qualifies (heap w1 lead)
        then prospects_pipeline w2 =
               PyDict.set (Lead.id (heap w1 lead))
                          (fresh_prospect lead (heap w1 lead))
                          (prospects_pipeline w)
             /\ Lead.status (heap w2 lead) = "qualified"
        else prospects_pipeline w2 = prospects_pipeline w
             /\ heap w2 lead = heap w1 lead).
Proof.
  destruct (contact_step_spec env lead w res)
    as (w1 & res1 & Hc & Hp1 & Hg1 & Hf1 & _).
  destruct (qualification_step_spec lead w1 res1)
    as (w2 & res2 & Hq & Hg2 & Hf2 & Hcase).
  exists w1, res1, w2, (NurturingResults.incr_leads_contacted res2).
  split; [exact Hc|]. split.
  - unfold nurture_body. rewrite (bind_ok _ _ _ _ _ Hc).
    rewrite (bind_ok _ _ _ _ _ Hq). reflexivity.
  - split; [exact Hg1|]. split; [exact Hg2|]. split.
    + intros a Ha. rewrite Hf2, Hf1 by exact Ha. reflexivity.
    + rewrite <- Hp1. exact Hcase.
Qed.

(** The threshold for one lead processed by the loop: if after the outreach
    step its score is above 7 and it has at least two contact attempts,
    then afterwards the prospect table holds exactly one entry under the
    lead's id, that entry wraps this lead, and the lead is qualified; if
    the two conditions do not both hold, processing the lead leaves the
    prospect table unchanged. *)
Lemma nurture_body_threshold (env : Env) (lead : addr) (w : World)
      (res : NurturingResults.t) :
  PyDict.wf (prospects_pipeline w) ->
  exists w1 res1 w2 res2,
    contact_step env (_send_outreach_email env) lead (w, res)
    = (Ok tt, (w1, res1))
    /\ nurture_body env (_send_outreach_email env) _qualify_lead lead (w, res)
       = (Ok tt, (w2, res2))
    /\ ((7 < Lead.score (heap w1 lead))%Q
        /\ (2 <= Lead.contact_attempts (heap w1 lead))%Z ->
        PyDict.count (Lead.id (heap w1 lead)) (prospects_pipeline w2) = 1%nat
        /\ PyDict.get (Lead.id (heap w1 lead)) (prospects_pipeline w2)
           = Some (fresh_prospect lead (heap w1 lead))
        /\ Lead.status (heap w2 lead) = "qualified")
    /\ (~ ((7 < Lead.score (heap w1 lead))%Q
           /\ (2 <= Lead.contact_attempts (heap w1 lead))%Z) ->
        prospects_pipeline w2 = prospects_pipeline w).
Proof.
  intros Hwf.
  destruct (nurture_body_spec env lead w res)
    as (w1 & res1 & w2 & res2 & Hc & Hb & _ & _ & _ & Hcase).
  exists w1, res1, w2, res2. split; [exact Hc|]. split; [exact Hb|].
  pose proof (qualifies_iff (heap w1 lead)) as Hq.
  destruct (qualifies (heap w1 lead)).
  - destruct Hcase as [Hp Hs]. split.
    + intros _. rewrite Hp. split; [apply count_set_one; exact Hwf|].
      split; [apply get_set_same|exact Hs].
    + intros Hnot. exfalso. apply Hnot, Hq. reflexivity.
  - destruct Hcase as [Hp _]. split.
    + intros Hyes. apply Hq in Hyes. discriminate.
    + intros _. exact Hp.
Qed.

Lemma for_each_app {S A} (xs ys : list A) (body : A -> M S unit) s :
  for_each (xs ++ ys) body s =
  match for_each xs body s with
  | (Ok _, s1) => for_each ys body s1
  | (Raise e, s1) => (Raise e, s1)
  end.
Proof.
  revert s. induction xs as [|x xs IH]; intros s; simpl.
  - reflexivity.
  - unfold bind. destruct (body x s) as [[[]|e] s1]; [apply IH|reflexivity].
Qed.

(** Any property of the prospect table that survives storing a freshly
    built prospect survives a nurture batch; the batch returns, and lead
    objects only grow. *)
Lemma nurture_loop_invariant env (P : PyDict.t Prospect.t -> Prop) :
  (forall k a l d, P d -> P (PyDict.set k (fresh_prospect a l) d)) ->
  forall leads w res,
    P (prospects_pipeline w) ->
    exists w' res',
      nurture_loop env (_send_outreach_email env) _qualify_lead leads (w, res)
      = (Ok tt, (w', res'))
      /\ P (prospects_pipeline w')
      /\ heap_grows w w'.
Proof.
  intros Hset leads. induction leads as [|lead rest IH]; intros w res HP.
  - exists w, res. split; [reflexivity|]. split; [exact HP|].
    apply heap_grows_refl.
  - rewrite nurture_loop_step.
    destruct (nurture_body_spec env lead w res)
      as (w1 & res1 & w2 & res2 & _ & Hb & Hg1 & Hg2 & _ & Hcase).
    rewrite Hb.
    assert (HP2 : P (prospects_pipeline w2)).
    { destruct (qualifies (heap w1 lead)); destruct Hcase as [-> _];
        [apply Hset|]; exact HP. }
    destruct (IH w2 res2 HP2) as (w' & res' & Hrun & HP' & Hg').
    exists w', res'. split; [exact Hrun|]. split; [exact HP'|].
    eapply heap_grows_trans; [|exact Hg'].
    eapply heap_grows_trans; eassumption.
Qed.

(** [nurture_prospects] ends in the state the loop leaves: the final
    [save_state] can fail the call but does not change the tables. *)
Lemma nurture_prospects_world env leads w w' res' :
  nurture_loop env (_send_outreach_email env) _qualify_lead leads
               (w, NurturingResults.initial) = (Ok tt, (w', res')) ->
  exists out, nurture_prospects env leads w = (Ok out, w').
Proof.
  intros Hrun. unfold nurture_prospects, nurture_prospects_with, try_catch.
  assert (Hlocal : with_local NurturingResults.initial
            (nurture_loop env (_send_outreach_email env) _qualify_lead leads)
            w = (Ok res', w')).
  { unfold with_local. rewrite Hrun. reflexivity. }
  rewrite (bind_ok _ _ _ _ _ Hlocal). unfold bind, self_save_state.
  destruct (save_state env w'); eexists; reflexivity.
Qed.

Lemma nurture_prospects_invariant env (P : PyDict.t Prospect.t -> Prop) :
  (forall k a l d, P d -> P (PyDict.set k (fresh_prospect a l) d)) ->
  forall leads w,
    P (prospects_pipeline w) ->
    exists out w',
      nurture_prospects env leads w = (Ok out, w')
      /\ P (prospects_pipeline w')
      /\ heap_grows w w'.
Proof.
  intros Hset leads w HP.
  destruct (nurture_loop_invariant env P Hset leads w
              NurturingResults.initial HP) as (w' & res' & Hrun & HP' & Hg).
  destruct (nurture_prospects_world env leads w w' res' Hrun) as (out & Ho).
  exists out, w'. auto.
Qed.

Lemma nurture_calls_invariant env (P : PyDict.t Prospect.t -> Prop) :
  (forall k a l d, P d -> P (PyDict.set k (fresh_prospect a l) d)) ->
  forall batches w,
    P (prospects_pipeline w) ->
    exists w',
      nurture_calls env batches w = (Ok tt, w')
      /\ P (prospects_pipeline w')
      /\ heap_grows w w'.
Proof.
  intros Hset batches.
  induction batches as [|batch rest IH]; intros w HP.
  - exists w. split; [reflexivity|]. split; [exact HP|].
    apply heap_grows_refl.
  - destruct (nurture_prospects_invariant env P Hset batch w HP)
      as (out & w1 & Hrun & HP1 & Hg1).
    destruct (IH w1 HP1) as (w' & Hrest & HP' & Hg').
    exists w'. split.
    + unfold nurture_calls in *. simpl for_each.
      assert (Hstep : (_ <- nurture_prospects env batch ;; ret tt) w
                      = (Ok tt, w1))
        by (rewrite (bind_ok _ _ _ _ _ Hrun); reflexivity).
      rewrite (bind_ok _ _ _ _ _ Hstep). exact Hrest.
    + split; [exact HP'|]. eapply heap_grows_trans; eassumption.
Qed.

(** C4: after any sequence of nurture calls, batches that repeat a lead
    included, the prospect table holds at most one entry per lead id; and
    processing a lead whose id already has an entry leaves the keys of the
    table as they are: the entry is overwritten in place. *)
Theorem C4_one_prospect_per_lead (env : Env) (batches : list (list addr))
        (w : World) :
  PyDict.wf (prospects_pipeline w) ->
  (exists w',
     nurture_calls env batches w = (Ok tt, w')
     /\ PyDict.wf (prospects_pipeline w')
     /\ forall lead_id,
          (PyDict.count lead_id (prospects_pipeline w') <= 1)%nat)
  /\ (forall lead res,
        PyDict.mem (Lead.id (heap w lead)) (prospects_pipeline w) = true ->
        exists w2 res2,
          nurture_body env (_send_outreach_email env) _qualify_lead lead
                       (w, res) = (Ok tt, (w2, res2))
          /\ PyDict.keys (prospects_pipeline w2)
             = PyDict.keys (prospects_pipeline w)).
Proof.
  intros Hwf. split.
  - destruct (nurture_calls_invariant env PyDict.wf
                (fun k a l d H => wf_set k _ d H) batches w Hwf)
      as (w' & Hrun & Hwf' & _).
    exists w'. split; [exact Hrun|]. split; [exact Hwf'|].
    intros lead_id. apply count_wf_le_one. exact Hwf'.
  - intros lead res Hmem.
    destruct (nurture_body_spec env lead w res)
      as (w1 & res1 & w2 & res2 & _ & Hb & Hg1 & _ & _ & Hcase).
    exists w2, res2. split; [exact Hb|].
    destruct (qualifies (heap w1 lead)); destruct Hcase as [-> _];
      [|reflexivity].
    apply keys_set_mem. destruct (Hg1 lead) as (-> & _). exact Hmem.
Qed.

Lemma nurture_loop_app env send qualify (xs ys : list addr) s :
  nurture_loop env send qualify (xs ++ ys) s =
  match nurture_loop env send qualify xs s with
  | (Ok _, s1) => nurture_loop env send qualify ys s1
  | (Raise e, s1) => (Raise e, s1)
  end.
Proof. unfold nurture_loop. apply for_each_app. Qed.

Lemma holds_fresh_prospect_set k k' a l d :
  holds_fresh_prospect k d ->
  holds_fresh_prospect k (PyDict.set k' (fresh_prospect a l) d).
Proof.
  intros (p & Hget & Hms & Hna). unfold holds_fresh_prospect.
  destruct (string_dec k' k) as [->|Hne].
  - exists (fresh_prospect a l). rewrite get_set_same. auto.
  - exists p. rewrite get_set_other by exact Hne. auto.
Qed.

(** C10: when a lead with a score above 7 and at least two contact attempts
    already has a prospect with a meeting scheduled, a nurture call whose
    batch names that lead leaves under the lead's id a freshly built
    prospect, with no meeting scheduled and [schedule_meeting] as next
    action: the scheduled state recorded before is gone. *)
Theorem C10_requalification_resets_prospect
        (env : Env) (leads : list addr) (lead : addr) (w : World)
        (p : Prospect.t) :
  In lead leads ->
  (7 < Lead.score (heap w lead))%Q ->
  (2 <= Lead.contact_attempts (heap w lead))%Z ->
  PyDict.get (Lead.id (heap w lead)) (prospects_pipeline w) = Some p ->
  Prospect.meeting_scheduled p = true ->
  exists out w' p',
    nurture_prospects env leads w = (Ok out, w')
    /\ PyDict.get (Lead.id (heap w lead)) (prospects_pipeline w') = Some p'
    /\ Prospect.meeting_scheduled p' = false
    /\ Prospect.next_action p' = "schedule_meeting".
Proof.
  intros Hin Hscore Hattempts Hget Hscheduled.
  assert (Hq : qualifies (heap w lead) = true)
    by (apply qualifies_iff; auto).
  destruct (in_split _ _ Hin) as (before & after & ->).
  destruct (nurture_loop_invariant env (fun _ => True)
              (fun _ _ _ _ H => H) before w NurturingResults.initial I)
    as (wb & resb & Hbefore & _ & Hgb).
  destruct (nurture_body_spec env lead wb resb)
    as (w1 & res1 & w2 & res2 & _ & Hb & Hg1 & _ & _ & Hcase).
  assert (Hg : heap_grows w w1) by (eapply heap_grows_trans; eassumption).
  rewrite (qualifies_grows _ _ (Hg lead) Hq) in Hcase.
  destruct Hcase as [Hp2 _].
  destruct (Hg lead) as (Hid & _).
  assert (Hfresh : holds_fresh_prospect (Lead.id (heap w lead))
                     (prospects_pipeline w2)).
  { rewrite Hp2, Hid. exists (fresh_prospect lead (heap w1 lead)).
    rewrite get_set_same. auto. }
  destruct (nurture_loop_invariant env
              (holds_fresh_prospect (Lead.id (heap w lead)))
              (fun k a l d H => holds_fresh_prospect_set _ k a l d H)
              after w2 res2 Hfresh)
    as (w' & res' & Hafter & (p' & Hget' & Hms' & Hna') & _).
  assert (Hrun : nurture_loop env (_send_outreach_email env) _qualify_lead
                   (before ++ lead :: after) (w, NurturingResults.initial)
                 = (Ok tt, (w', res'))).
  { rewrite nurture_loop_app, Hbefore, nurture_loop_step, Hb. exact Hafter. }
  destruct (nurture_prospects_world env _ w w' res' Hrun) as (out & Hout).
  exists out, w', p'. auto.
Qed.

(** *** Instances *)

Lemma C4_witness :
  PyDict.wf (prospects_pipeline
               (world_with_leads [sample_lead "lead_1" 8 "contacted" 1%Z]))
  /\ exists w',
       nurture_calls sample_env [[0]; [0; 0]; [0]]%nat
         (world_with_leads [sample_lead "lead_1" 8 "contacted" 1%Z])
       = (Ok tt, w')
       /\ PyDict.wf (prospects_pipeline w')
       /\ forall lead_id,
            (PyDict.count lead_id (prospects_pipeline w') <= 1)%nat.
Proof.
  split; [constructor|].
  apply (C4_one_prospect_per_lead sample_env [[0]; [0; 0]; [0]]%nat
           (world_with_leads [sample_lead "lead_1" 8 "contacted" 1%Z])).
  constructor.
Defined.

Lemma C10_witness :
  exists out w' p',
    nurture_prospects sample_env [1; 0]%nat
      (snd (schedule_meetings sample_env
              [{| pd_prospect_id := Some "lead_1"; pd_meeting_type := None;
                  pd_preferred_times := None |}] two_prospects_world))
    = (Ok out, w')
    /\ PyDict.get "lead_1" (prospects_pipeline w') = Some p'
    /\ Prospect.meeting_scheduled p' = false
    /\ Prospect.next_action p' = "schedule_meeting".
Proof.
  apply (C10_requalification_resets_prospect sample_env [1; 0]%nat 0%nat
           (snd (schedule_meetings sample_env
                   [{| pd_prospect_id := Some "lead_1";
                       pd_meeting_type := None;
                       pd_preferred_times := None |}] two_prospects_world))
           (Prospect.mk 0%nat 8 ["automation"; "efficiency"] (Some "10k-50k")
              (Some "Q1") true "attend_meeting" true)).
  - simpl. tauto.
  - vm_compute. reflexivity.
  - vm_compute. discriminate.
  - vm_compute. reflexivity.
  - reflexivity.
Defined.

(** *** The qualification threshold over a batch *)

Lemma mem_set_mono {V} k k' (v : V) d :
  PyDict.mem k d = true -> PyDict.mem k (PyDict.set k' v d) = true.
Proof.
  intros H. unfold PyDict.mem in *.
  destruct (string_dec k' k) as [->|Hne].
  - rewrite get_set_same. reflexivity.
  - rewrite get_set_other by exact Hne. exact H.
Qed.

(** What a nurture batch does to the prospect table and to the leads. *)
Lemma nurture_loop_outcome env leads : forall w res,
  PyDict.wf (prospects_pipeline w) ->
  exists w' res',
    nurture_loop env (_send_outreach_email env) _qualify_lead leads (w, res)
    = (Ok tt, (w', res'))
    /\ PyDict.wf (prospects_pipeline w')
    /\ heap_grows w w'
    /\ (forall a, ~ In a leads -> heap w' a = heap w a)
    /\ (forall k, PyDict.mem k (prospects_pipeline w) = true ->
                  PyDict.mem k (prospects_pipeline w') = true)
    /\ (forall lead, In lead leads ->
          qualifies (heap w' lead) = true ->
          PyDict.mem (Lead.id (heap w lead)) (prospects_pipeline w') = true
          /\ Lead.status (heap w' lead) = "qualified")
    /\ (forall k,
          (forall a, Lead.id (heap w a) = k ->
                     qualifies (heap w' a) = false) ->
          PyDict.get k (prospects_pipeline w')
          = PyDict.get k (prospects_pipeline w)).
Proof.
  induction leads as [|lead0 rest IH]; intros w res Hwf.
  - exists w, res. split; [reflexivity|]. split; [exact Hwf|].
    split; [apply heap_grows_refl|]. repeat split; auto. contradiction.
  - rewrite nurture_loop_step.
    destruct (nurture_body_spec env lead0 w res)
      as (w1 & res1 & w2 & res2 & _ & Hb & Hg1 & Hg2 & Hframe & Hcase).
    rewrite Hb.
    assert (Hg : heap_grows w w2) by (eapply heap_grows_trans; eassumption).
    assert (Hid1 : Lead.id (heap w1 lead0) = Lead.id (heap w lead0))
      by (destruct (Hg1 lead0) as (-> & _); reflexivity).
    assert (Hwf2 : PyDict.wf (prospects_pipeline w2)).
    { destruct (qualifies (heap w1 lead0)); destruct Hcase as [-> _];
        [apply wf_set|]; exact Hwf. }
    assert (Hmono : forall k, PyDict.mem k (prospects_pipeline w) = true ->
                              PyDict.mem k (prospects_pipeline w2) = true).
    { intros k Hk. destruct (qualifies (heap w1 lead0));
        destruct Hcase as [-> _]; [apply mem_set_mono|]; exact Hk. }
    destruct (IH w2 res2 Hwf2)
      as (w' & res' & Hrun & Hwf' & Hg' & Hframe' & Hmono' & Hpos' & Hneg').
    exists w', res'. split; [exact Hrun|]. split; [exact Hwf'|].
    split; [eapply heap_grows_trans; eassumption|].
    split; [|split; [|split]].
    + intros a Ha. simpl in Ha.
      rewrite Hframe' by tauto. apply Hframe. intros ->. tauto.
    + intros k Hk. apply Hmono', Hmono, Hk.
    + intros lead Hin Hq.
      destruct (in_dec Nat.eq_dec lead rest) as [Hrest|Hlast].
      * destruct (Hpos' lead Hrest Hq) as [Hmem Hstatus].
        destruct (Hg lead) as (Hid & _). rewrite <- Hid. auto.
      * destruct Hin as [->|Hin]; [|contradiction].
        rewrite (Hframe' lead Hlast) in Hq |- *.
        destruct (qualifies (heap w1 lead)) eqn:Hq1.
        -- destruct Hcase as [Hp Hstatus]. split; [|exact Hstatus].
           apply Hmono'. rewrite Hp, Hid1. apply mem_set.
        -- destruct Hcase as [_ Hsame]. rewrite Hsame in Hq. congruence.
    + intros k Hnever.
      rewrite Hneg'.
      * destruct (qualifies (heap w1 lead0)) eqn:Hq1;
          destruct Hcase as [-> _]; [|reflexivity].
        apply get_set_other. rewrite Hid1. intros Hk.
        assert (Hfinal : qualifies (heap w' lead0) = true).
        { eapply qualifies_grows; [|exact Hq1].
          eapply heap_grows_trans with (w2 := w2);
            [exact Hg2|exact Hg']. }
        rewrite (Hnever lead0 Hk) in Hfinal. discriminate.
      * intros a Ha. apply Hnever.
        destruct (Hg a) as (Hid & _). congruence.
Qed.

(** C3: for a lead processed by the nurture stage, if after the outreach
    step its score is above 7 and it has at least two contact attempts,
    then afterwards the prospect table holds exactly one entry under the
    lead's id (the prospect built for this lead) and the lead is qualified;
    if the two conditions do not both hold, processing the lead leaves the
    prospect table unchanged. Over a whole batch: every lead of the batch
    that in the end has a score above 7 and at least two contact attempts
    has exactly one prospect under its id and is qualified, and an id
    whose leads never come to meet both conditions keeps the entry it had,
    so that none is created for it. *)
Theorem C3_qualification_threshold (env : Env) (leads : list addr)
        (w : World) :
  PyDict.wf (prospects_pipeline w) ->
  (forall lead res,
     exists w1 res1 w2 res2,
       contact_step env (_send_outreach_email env) lead (w, res)
       = (Ok tt, (w1, res1))
       /\ nurture_body env (_send_outreach_email env) _qualify_lead lead
            (w, res) = (Ok tt, (w2, res2))
       /\ ((7 < Lead.score (heap w1 lead))%Q
           /\ (2 <= Lead.contact_attempts (heap w1 lead))%Z ->
           PyDict.count (Lead.id (heap w1 lead)) (prospects_pipeline w2)
           = 1%nat
           /\ PyDict.get (Lead.id (heap w1 lead)) (prospects_pipeline w2)
              = Some (fresh_prospect lead (heap w1 lead))
           /\ Lead.status (heap w2 lead) = "qualified")
       /\ (~ ((7 < Lead.score (heap w1 lead))%Q
              /\ (2 <= Lead.contact_attempts (heap w1 lead))%Z) ->
           prospects_pipeline w2 = prospects_pipeline w))
  /\ (exists out w',
        nurture_prospects env leads w = (Ok out, w')
        /\ (forall lead, In lead leads ->
              (7 < Lead.score (heap w' lead))%Q
              /\ (2 <= Lead.contact_attempts (heap w' lead))%Z ->
              PyDict.count (Lead.id (heap w' lead)) (prospects_pipeline w')
              = 1%nat
              /\ Lead.status (heap w' lead) = "qualified")
        /\ (forall lead_id,
              (forall a, Lead.id (heap w a) = lead_id ->
                 ~ ((7 < Lead.score (heap w' a))%Q
                    /\ (2 <= Lead.contact_attempts (heap w' a))%Z)) ->
              PyDict.get lead_id (prospects_pipeline w')
              = PyDict.get lead_id (prospects_pipeline w))).
Proof.
  intros Hwf. split.
  - intros lead res. apply nurture_body_threshold. exact Hwf.
  - destruct (nurture_loop_outcome env leads w NurturingResults.initial Hwf)
      as (w' & res' & Hrun & Hwf' & Hg & _ & _ & Hpos & Hneg).
    destruct (nurture_prospects_world env leads w w' res' Hrun) as (out & Ho).
    exists out, w'. split; [exact Ho|]. split.
    + intros lead Hin Hq. apply qualifies_iff in Hq.
      destruct (Hpos lead Hin Hq) as [Hmem Hstatus].
      split; [|exact Hstatus].
      destruct (Hg lead) as (-> & _).
      pose proof (count_wf_le_one (Lead.id (heap w lead)) _ Hwf').
      pose proof (count_mem_pos _ _ Hmem). lia.
    + intros lead_id Hnever. apply Hneg. intros a Ha.
      destruct (qualifies (heap w' a)) eqn:Hq; [|reflexivity].
      apply qualifies_iff in Hq. exfalso. exact (Hnever a Ha Hq).
Qed.

Lemma C3_witness :
  PyDict.wf (prospects_pipeline two_leads_world)
  /\ exists out w',
       nurture_prospects sample_env [0; 1]%nat two_leads_world = (Ok out, w')
       /\ (forall lead, In lead [0; 1]%nat ->
             (7 < Lead.score (heap w' lead))%Q
             /\ (2 <= Lead.contact_attempts (heap w' lead))%Z ->
             PyDict.count (Lead.id (heap w' lead)) (prospects_pipeline w')
             = 1%nat
             /\ Lead.status (heap w' lead) = "qualified")
       /\ (forall lead_id,
             (forall a, Lead.id (heap two_leads_world a) = lead_id ->
                ~ ((7 < Lead.score (heap w' a))%Q
                   /\ (2 <= Lead.contact_attempts (heap w' a))%Z)) ->
             PyDict.get lead_id (prospects_pipeline w')
             = PyDict.get lead_id (prospects_pipeline two_leads_world)).
Proof.
  split; [constructor|].
  apply (C3_qualification_threshold sample_env [0; 1]%nat two_leads_world).
  constructor.
Defined.

(** The batch of the two sample leads, evaluated: the lead with score 8
    reaches two contact attempts and gets its one prospect; the lead with
    score 6 is contacted as well and gets none. *)
Lemma nurture_two_leads_example :
  let w' := snd (nurture_prospects sample_env [0; 1]%nat two_leads_world) in
  map (fun a => (Lead.status (heap w' a), Lead.contact_attempts (heap w' a)))
      [0; 1]%nat
  = [("qualified", 2%Z); ("contacted", 2%Z)]
  /\ PyDict.keys (prospects_pipeline w') = ["lead_1"]
  /\ PyDict.get "lead_2" (prospects_pipeline w') = None.
Proof. vm_compute. repeat split; reflexivity. Qed.

(** ** Scheduling *)

Section Scheduling.
Variable env : Env.
Hypothesis isoformat_nonempty : forall t, isoformat env t <> "".

Lemma slot_truthy t : truthy (Some (isoformat env t)) = true.
Proof.
  unfold truthy. destruct (String.eqb_spec (isoformat env t) "") as [E|_];
    [exfalso; exact (isoformat_nonempty t E)|reflexivity].
Qed.

(** One entry of the batch: three clock readings, one confirmed meeting
    appended, the prospect of the entry, if stored, marked. *)
Lemma schedule_body_spec pd w res :
  exists w',
    schedule_body env pd (w, res) =
      (Ok tt,
       (w', SchedulingResults.incr_meetings_requested
              (SchedulingResults.append_meeting
                 (expected_meeting env (clock_reads w) pd)
                 (SchedulingResults.incr_meetings_confirmed res))))
    /\ meetings_scheduled w' =
       meetings_scheduled w ++ [expected_meeting env (clock_reads w) pd]
    /\ clock_reads w' = (3 + clock_reads w)%nat
    /\ prospects_pipeline w' =
       scheduled_table (pd_prospect_id pd) (prospects_pipeline w).
Proof.
  unfold schedule_body, _find_available_slot, bind, on_self, utcnow, ret.
  cbn [fst snd clock_reads with_clock_reads].
  rewrite slot_truthy.
  unfold scheduled_table, on_local, gets, mark_meeting_scheduled,
    expected_meeting.
  cbn [fst snd].
  destruct (pd_prospect_id pd) as [pid|].
  - cbn [prospects_pipeline with_meetings_scheduled with_clock_reads
         fst snd modify].
    destruct (PyDict.mem pid (prospects_pipeline w));
      unfold bind, modify, ret; cbn [fst snd];
      eexists; (split; [reflexivity|]); cbn; repeat split; reflexivity.
  - unfold bind, modify, ret. cbn [fst snd].
    eexists. split; [reflexivity|]. cbn. repeat split; reflexivity.
Qed.

Lemma schedule_loop_spec batch : forall w res,
  exists w' res',
    schedule_loop env batch (w, res) = (Ok tt, (w', res'))
    /\ meetings_scheduled w' =
       meetings_scheduled w ++ expected_meetings env (clock_reads w) batch
    /\ SchedulingResults.scheduled_meetings res' =
       SchedulingResults.scheduled_meetings res
         ++ expected_meetings env (clock_reads w) batch
    /\ prospects_pipeline w' =
       fold_left (fun d pd => scheduled_table (pd_prospect_id pd) d) batch
                 (prospects_pipeline w)
    /\ SchedulingResults.meetings_requested res' =
       (SchedulingResults.meetings_requested res + len batch)%Z
    /\ SchedulingResults.meetings_confirmed res' =
       (SchedulingResults.meetings_confirmed res + len batch)%Z
    /\ SchedulingResults.calendar_conflicts res' =
       SchedulingResults.calendar_conflicts res
    /\ SchedulingResults.errors res' = SchedulingResults.errors res.
Proof.
  induction batch as [|pd rest IH]; intros w res.
  - exists w, res. split; [reflexivity|]. simpl. rewrite !app_nil_r.
    unfold len. simpl. repeat split; try reflexivity; lia.
  - destruct (schedule_body_spec pd w res) as (w1 & Hb & Hm & Hr & Hp).
    destruct (IH w1 (SchedulingResults.incr_meetings_requested
                       (SchedulingResults.append_meeting
                          (expected_meeting env (clock_reads w) pd)
                          (SchedulingResults.incr_meetings_confirmed res))))
      as (w' & res' & Hrun & Hm' & Hs' & Hp' & Hq' & Hc' & Hk' & He').
    exists w', res'. split.
    + unfold schedule_loop in *. simpl for_each.
      rewrite (bind_ok _ _ _ _ _ (try_catch_ok _ _ _ _ _ Hb)). exact Hrun.
    + rewrite Hm', Hs', Hp', Hq', Hc', Hk', He', Hm, Hr, Hp.
      simpl. rewrite <- !app_assoc. unfold len. simpl List.length.
      repeat split; try reflexivity; lia.
Qed.

Lemma expected_meetings_length r batch :
  List.length (expected_meetings env r batch) = List.length batch.
Proof.
  revert r. induction batch as [|pd rest IH]; intros r; simpl;
    [reflexivity|]. rewrite IH. reflexivity.
Qed.

Lemma expected_meetings_nth batch : forall r i pd,
  nth_error batch i = Some pd ->
  nth_error (expected_meetings env r batch) i
  = Some (expected_meeting env (r + 3 * i) pd).
Proof.
  induction batch as [|pd0 rest IH]; intros r i pd Hnth.
  - destruct i; discriminate.
  - destruct i as [|i]; simpl in *.
    + injection Hnth as ->. rewrite Nat.add_0_r. reflexivity.
    + rewrite (IH _ _ _ Hnth). do 2 f_equal. lia.
Qed.

End Scheduling.

Lemma is_scheduled_table k prospect_id d :
  is_scheduled k d -> is_scheduled k (scheduled_table prospect_id d).
Proof.
  intros (p & Hget & Hms & Hna). unfold scheduled_table, is_scheduled.
  destruct prospect_id as [pid|]; [|eauto].
  destruct (PyDict.mem pid d); [|eauto].
  destruct (string_dec pid k) as [->|Hne].
  - rewrite !get_update_same, Hget. simpl. eexists. split; [reflexivity|].
    auto.
  - rewrite !get_update_other by exact Hne. eauto.
Qed.

Lemma scheduled_table_marks pid p d :
  PyDict.get pid d = Some p ->
  is_scheduled pid (scheduled_table (Some pid) d).
Proof.
  intros Hget. unfold scheduled_table, is_scheduled, PyDict.mem.
  rewrite Hget. rewrite !get_update_same, Hget. simpl.
  eexists. split; [reflexivity|]. auto.
Qed.

Lemma scheduled_table_keeps_keys prospect_id d :
  PyDict.keys (scheduled_table prospect_id d) = PyDict.keys d.
Proof.
  unfold scheduled_table. destruct prospect_id as [pid|]; [|reflexivity].
  destruct (PyDict.mem pid d); [|reflexivity].
  rewrite !keys_update. reflexivity.
Qed.

Lemma fold_scheduled_keeps batch : forall k d,
  is_scheduled k d ->
  is_scheduled k
    (fold_left (fun d pd => scheduled_table (pd_prospect_id pd) d) batch d).
Proof.
  induction batch as [|pd rest IH]; intros k d H; simpl; [exact H|].
  apply IH, is_scheduled_table, H.
Qed.

Lemma fold_scheduled_marks batch : forall pd pid d,
  In pd batch ->
  pd_prospect_id pd = Some pid ->
  PyDict.mem pid d = true ->
  is_scheduled pid
    (fold_left (fun d pd => scheduled_table (pd_prospect_id pd) d) batch d).
Proof.
  induction batch as [|pd0 rest IH]; intros pd pid d Hin Hpid Hmem;
    [contradiction|].
  simpl. destruct Hin as [->|Hin].
  - apply fold_scheduled_keeps. rewrite Hpid.
    unfold PyDict.mem in Hmem.
    destruct (PyDict.get pid d) as [p|] eqn:Hget; [|discriminate].
    eapply scheduled_table_marks. exact Hget.
  - eapply IH; [exact Hin|exact Hpid|].
    apply mem_true_iff. rewrite scheduled_table_keeps_keys.
    apply mem_true_iff. exact Hmem.
Qed.

(** C8: for a batch whose entries name prospects that are in the store and
    have no meeting scheduled, the scheduling loop returns; it appends one
    confirmed meeting per entry, in the order of the batch; the scheduled
    time of the meeting of entry [i] is the time the slot finder read from
    the clock for that entry plus exactly 3 days; and afterwards every
    prospect named in the batch has [meeting_scheduled] set and
    [attend_meeting] as next action. *)
Theorem C8_schedule_meetings (env : Env) (batch : list ProspectData)
        (w : World) :
  (forall t, isoformat env t <> "") ->
  (forall pd, In pd batch ->
     exists pid p,
       pd_prospect_id pd = Some pid
       /\ PyDict.get pid (prospects_pipeline w) = Some p
       /\ Prospect.meeting_scheduled p = false) ->
  exists res w',
    with_local SchedulingResults.initial (schedule_loop env batch) w
    = (Ok res, w')
    /\ schedule_meetings env batch w
       = (Ok (match save_state env w' with
              | None => Done res
              | Some e => Failed (exn_msg e)
              end), w')
    /\ SchedulingResults.meetings_requested res = len batch
    /\ SchedulingResults.meetings_confirmed res = len batch
    /\ SchedulingResults.calendar_conflicts res = 0%Z
    /\ SchedulingResults.errors res = []
    /\ meetings_scheduled w' =
       meetings_scheduled w ++ SchedulingResults.scheduled_meetings res
    /\ List.length (SchedulingResults.scheduled_meetings res)
       = List.length batch
    /\ (forall i pd,
          nth_error batch i = Some pd ->
          exists m,
            nth_error (SchedulingResults.scheduled_meetings res) i = Some m
            /\ Meeting.prospect_id m = pd_prospect_id pd
            /\ Meeting.status m = "confirmed"
            /\ Meeting.scheduled_time m =
               isoformat env
                 (clock env (clock_reads w + 3 * i) + timedelta_days 3)%Z)
    /\ (forall pd, In pd batch ->
          exists pid p',
            pd_prospect_id pd = Some pid
            /\ PyDict.get pid (prospects_pipeline w') = Some p'
            /\ Prospect.meeting_scheduled p' = true
            /\ Prospect.next_action p' = "attend_meeting").
Proof.
  intros Hiso Hstored.
  destruct (schedule_loop_spec env Hiso batch w SchedulingResults.initial)
    as (w' & res & Hrun & Hm & Hs & Hp & Hq & Hc & Hk & He).
  simpl in Hs, Hq, Hc, Hk, He.
  exists res, w'.
  assert (Hlocal : with_local SchedulingResults.initial
                     (schedule_loop env batch) w = (Ok res, w')).
  { unfold with_local. rewrite Hrun. reflexivity. }
  split; [exact Hlocal|]. split.
  { unfold schedule_meetings, try_catch.
    rewrite (bind_ok _ _ _ _ _ Hlocal). unfold bind, self_save_state.
    destruct (save_state env w'); reflexivity. }
  rewrite Hq, Hc, Hk, He, Hm, Hs.
  repeat split; try reflexivity.
  - apply expected_meetings_length.
  - intros i pd Hnth. eexists. split.
    + apply expected_meetings_nth. exact Hnth.
    + repeat split; reflexivity.
  - intros pd Hin. destruct (Hstored pd Hin) as (pid & p & Hpid & Hget & _).
    assert (Hmem : PyDict.mem pid (prospects_pipeline w) = true)
      by (unfold PyDict.mem; rewrite Hget; reflexivity).
    destruct (fold_scheduled_marks batch pd pid _ Hin Hpid Hmem)
      as (p' & Hget' & Hms & Hna).
    exists pid, p'. rewrite Hp. auto.
Qed.

Lemma C8_witness :
  unscheduled_prospects two_prospects_world =
    [{| pd_prospect_id := Some "lead_1";
        pd_meeting_type := Some "discovery_call";
        pd_preferred_times := None |};
     {| pd_prospect_id := Some "lead_2";
        pd_meeting_type := Some "discovery_call";
        pd_preferred_times := None |}]
  /\ exists res w',
       schedule_meetings sample_env
         (unscheduled_prospects two_prospects_world) two_prospects_world
       = (Ok (Done res), w')
       /\ SchedulingResults.meetings_confirmed res = 2%Z
       /\ List.length (SchedulingResults.scheduled_meetings res) = 2%nat
       /\ (forall pd, In pd (unscheduled_prospects two_prospects_world) ->
             exists pid p',
               pd_prospect_id pd = Some pid
               /\ PyDict.get pid (prospects_pipeline w') = Some p'
               /\ Prospect.meeting_scheduled p' = true
               /\ Prospect.next_action p' = "attend_meeting").
Proof.
  split; [reflexivity|].
  destruct (C8_schedule_meetings sample_env
              (unscheduled_prospects two_prospects_world)
              two_prospects_world)
    as (res & w' & _ & Hrun & _ & Hconfirmed & _ & _ & _ & Hlen & _ & Hflags).
  - intros t. discriminate.
  - intros pd [<-|[<-|[]]].
    + exists "lead_1". eexists. repeat split; reflexivity.
    + exists "lead_2". eexists. repeat split; reflexivity.
  - exists res, w'. split; [exact Hrun|]. split; [exact Hconfirmed|].
    split; [exact Hlen|exact Hflags].
Defined.

(** ** The default scheduling batch *)

(** On a well-formed prospect table, the default batch of the meeting
    scheduling workflow names prospects that are stored and have no meeting
    scheduled. *)
Lemma unscheduled_prospects_stored w :
  PyDict.wf (prospects_pipeline w) ->
  forall pd, In pd (unscheduled_prospects w) ->
    exists pid p,
      pd_prospect_id pd = Some pid
      /\ PyDict.get pid (prospects_pipeline w) = Some p
      /\ Prospect.meeting_scheduled p = false.
Proof.
  unfold unscheduled_prospects, PyDict.wf.
  induction (prospects_pipeline w) as [|[k p] d IH]; intros Hwf pd Hin;
    [contradiction|].
  simpl in Hin. inversion Hwf as [|? ? Hnot Hwf']; subst.
  apply in_app_or in Hin. destruct Hin as [Hin|Hin].
  - destruct (Prospect.meeting_scheduled p) eqn:Hms; [contradiction|].
    destruct Hin as [<-|[]]. exists k, p. simpl.
    rewrite String.eqb_refl. auto.
  - destruct (IH Hwf' pd Hin) as (pid & p' & Hpid & Hget & Hms).
    exists pid, p'. split; [exact Hpid|]. split; [|exact Hms].
    simpl. destruct (String.eqb_spec k pid) as [->|Hne]; [|exact Hget].
    exfalso. apply Hnot. apply mem_true_iff. unfold PyDict.mem.
    rewrite Hget. reflexivity.
Qed.

(* ================================================================= *)
(** * Further properties of the code *)

(** ** The effect of the nurture loop on one lead *)

Lemma record_eta_lead (l : Lead.t) :
  Lead.mk (Lead.id l) (Lead.name l) (Lead.email l) (Lead.company l)
          (Lead.title l) (Lead.source l) (Lead.score l) (Lead.created_at l)
          (Lead.status l) (Lead.contact_attempts l) (Lead.last_contacted l)
          (Lead.notes l) = l.
Proof. destruct l. reflexivity. Qed.

Lemma same_frame_refl w : same_frame w w.
Proof. unfold same_frame. repeat split; reflexivity. Qed.

Lemma same_frame_trans w1 w2 w3 :
  same_frame w1 w2 -> same_frame w2 w3 -> same_frame w1 w3.
Proof.
  unfold same_frame.
  intros (A1 & A2 & A3 & A4 & A5 & A6 & A7 & A8)
         (B1 & B2 & B3 & B4 & B5 & B6 & B7 & B8).
  repeat split; congruence.
Qed.

Ltac world_fields :=
  cbn [fst snd heap with_heap with_clock_reads with_prospects_pipeline
       prospects_pipeline clock_reads session_id metrics lead_scanner
       outreach_composer redis_client next_addr leads_database
       meetings_scheduled].

(** The outreach step, exactly. *)
Lemma contact_step_effect env lead w res :
  exists w1,
    contact_step env (_send_outreach_email env) lead (w, res)
    = (Ok tt, (w1, if emailed (heap w lead)
                   then NurturingResults.incr_emails_sent res else res))
    /\ heap w1 lead = contacted_lead env (clock_reads w) (heap w lead)
    /\ (forall a, a <> lead -> heap w1 a = heap w a)
    /\ clock_reads w1 =
       (clock_reads w + (if emailed (heap w lead) then 2 else 0))%nat
    /\ prospects_pipeline w1 = prospects_pipeline w
    /\ same_frame w w1.
Proof.
  unfold contact_step, contacted_lead, emailed, email_note. run_block.
  destruct (String.eqb (Lead.status (heap w lead)) "new") eqn:Hnew;
    cbn [orb].
  - run_block. world_fields. eexists. split; [reflexivity|].
    world_fields. rewrite !Nat.eqb_refl.
    split; [reflexivity|]. split.
    + intros a Ha. destruct (Nat.eqb_spec a lead); [contradiction|].
      reflexivity.
    + split; [lia|]. split; [reflexivity|].
      unfold same_frame. repeat split; reflexivity.
  - destruct (String.eqb (Lead.status (heap w lead)) "contacted"
              && Z.ltb (Lead.contact_attempts (heap w lead)) 3) eqn:Hc.
    + run_block. world_fields. eexists. split; [reflexivity|].
      world_fields. rewrite !Nat.eqb_refl.
      split; [reflexivity|]. split.
      * intros a Ha. destruct (Nat.eqb_spec a lead); [contradiction|].
        reflexivity.
      * split; [lia|]. split; [reflexivity|].
        unfold same_frame. repeat split; reflexivity.
    + run_block. eexists. split; [reflexivity|]. world_fields.
      split; [reflexivity|]. split; [reflexivity|]. split; [lia|].
      split; [reflexivity|]. apply same_frame_refl.
Qed.

(** The qualification step, exactly. *)
Lemma qualification_step_effect lead w res :
  exists w2,
    qualification_step _qualify_lead lead (w, res)
    = (Ok tt, (w2, if qualifies (heap w lead)
                   then NurturingResults.incr_prospects_qualified res
                   else res))
    /\ heap w2 lead =
       (if qualifies (heap w lead)
        then Lead.with_status "qualified" (heap w lead) else heap w lead)
    /\ (forall a, a <> lead -> heap w2 a = heap w a)
    /\ clock_reads w2 = clock_reads w
    /\ prospects_pipeline w2 =
       (if qualifies (heap w lead)
        then PyDict.set (Lead.id (heap w lead))
                        (fresh_prospect lead (heap w lead))
                        (prospects_pipeline w)
        else prospects_pipeline w)
    /\ same_frame w w2.
Proof.
  unfold qualification_step, qualifies. run_block.
  destruct (Qltb 7 (Lead.score (heap w lead))) eqn:Hscore; cbn [andb].
  - destruct (Z.leb 2 (Lead.contact_attempts (heap w lead))).
    + run_block. rewrite (Qltb_le _ _ Hscore). run_block. world_fields.
      eexists. split; [reflexivity|]. world_fields.
      rewrite !Nat.eqb_refl. split; [reflexivity|]. split.
      * intros a Ha. destruct (Nat.eqb_spec a lead); [contradiction|].
        reflexivity.
      * split; [reflexivity|]. split; [reflexivity|].
        unfold same_frame. repeat split; reflexivity.
    + run_block. eexists. split; [reflexivity|]. world_fields.
      repeat split; reflexivity.
  - run_block. eexists. split; [reflexivity|]. world_fields.
    repeat split; reflexivity.
Qed.

(** The loop body, exactly: the lead becomes [nurtured_lead], no other
    lead object changes, the results are advanced by one lead, and the
    prospect table receives the lead's prospect when it qualifies. *)
Lemma nurture_body_effect env lead w res :
  exists w2,
    nurture_body env (_send_outreach_email env) _qualify_lead lead (w, res)
    = (Ok tt, (w2, nurtured_results env (clock_reads w) (heap w lead) res))
    /\ heap w2 lead = nurtured_lead env (clock_reads w) (heap w lead)
    /\ (forall a, a <> lead -> heap w2 a = heap w a)
    /\ clock_reads w2 =
       (clock_reads w + (if emailed (heap w lead) then 2 else 0))%nat
    /\ prospects_pipeline w2 =
       (if qualifies (contacted_lead env (clock_reads w) (heap w lead))
        then PyDict.set (Lead.id (heap w lead))
               (fresh_prospect lead
                  (contacted_lead env (clock_reads w) (heap w lead)))
               (prospects_pipeline w)
        else prospects_pipeline w)
    /\ same_frame w w2.
Proof.
  destruct (contact_step_effect env lead w res)
    as (w1 & Hc & Hl1 & Hf1 & Hr1 & Hp1 & Hs1).
  destruct (qualification_step_effect lead w1
              (if emailed (heap w lead)
               then NurturingResults.incr_emails_sent res else res))
    as (w2 & Hq & Hl2 & Hf2 & Hr2 & Hp2 & Hs2).
  exists w2. split.
  - unfold nurture_body. rewrite (bind_ok _ _ _ _ _ Hc).
    rewrite (bind_ok _ _ _ _ _ Hq). rewrite Hl1. reflexivity.
  - rewrite Hl1 in Hl2, Hp2. split; [exact Hl2|]. split.
    + intros a Ha. rewrite Hf2, Hf1 by exact Ha. reflexivity.
    + split; [congruence|]. split.
      * rewrite Hp2, Hp1.
        assert (Hid : Lead.id (contacted_lead env (clock_reads w)
                                 (heap w lead)) = Lead.id (heap w lead)).
        { unfold contacted_lead. destruct (emailed (heap w lead));
            reflexivity. }
        rewrite Hid. reflexivity.
      * eapply same_frame_trans; eassumption.
Qed.

(** A batch, lead by lead: a relation between lead objects that holds
    across every single processing and composes holds for every lead
    object across the batch. *)
Lemma nurture_loop_effect env (Q : Lead.t -> Lead.t -> Prop) :
  (forall l, Q l l) ->
  (forall l1 l2 l3, Q l1 l2 -> Q l2 l3 -> Q l1 l3) ->
  (forall r l, Q l (nurtured_lead env r l)) ->
  forall leads w res,
    exists w' res',
      nurture_loop env (_send_outreach_email env) _qualify_lead leads (w, res)
      = (Ok tt, (w', res'))
      /\ (forall a, Q (heap w a) (heap w' a))
      /\ (forall a, ~ In a leads -> heap w' a = heap w a)
      /\ same_frame w w'
      /\ NurturingResults.errors res' = NurturingResults.errors res
      /\ NurturingResults.responses_received res' =
         NurturingResults.responses_received res
      /\ NurturingResults.leads_contacted res' =
         (NurturingResults.leads_contacted res + len leads)%Z
      /\ (NurturingResults.emails_sent res
          <= NurturingResults.emails_sent res'
          <= NurturingResults.emails_sent res + len leads)%Z
      /\ (NurturingResults.prospects_qualified res
          <= NurturingResults.prospects_qualified res'
          <= NurturingResults.prospects_qualified res + len leads)%Z.
Proof.
  intros Qrefl Qtrans Qstep leads.
  induction leads as [|lead rest IH]; intros w res.
  - exists w, res. split; [reflexivity|]. unfold len. simpl.
    split; [auto|]. split; [auto|]. split; [apply same_frame_refl|].
    repeat split; lia.
  - rewrite nurture_loop_step.
    destruct (nurture_body_effect env lead w res)
      as (w2 & Hb & Hl & Hf & _ & _ & Hs).
    rewrite Hb.
    destruct (IH w2 (nurtured_results env (clock_reads w) (heap w lead) res))
      as (w' & res' & Hrun & HQ & Hf' & Hs' & He & Hr & Hc & Hm & Hp).
    exists w', res'. split; [exact Hrun|]. split.
    { intros a. eapply Qtrans; [|apply HQ].
      destruct (Nat.eq_dec a lead) as [->|Hne].
      - rewrite Hl. apply Qstep.
      - rewrite Hf by exact Hne. apply Qrefl. }
    split.
    { intros a Ha. simpl in Ha. rewrite Hf' by tauto.
      apply Hf. intros ->. tauto. }
    split; [eapply same_frame_trans; eassumption|].
    unfold nurtured_results in He, Hr, Hc, Hm, Hp.
    destruct (emailed (heap w lead)),
      (qualifies (contacted_lead env (clock_reads w) (heap w lead)));
      cbn in He, Hr, Hc, Hm, Hp; unfold len in *; simpl List.length;
      repeat split; try assumption; lia.
Qed.

(** [nurture_prospects] around the loop: the results of the loop, or the
    failure of [save_state], in the state the loop left. *)
Lemma nurture_prospects_run env leads w w' res' :
  nurture_loop env (_send_outreach_email env) _qualify_lead leads
               (w, NurturingResults.initial) = (Ok tt, (w', res')) ->
  nurture_prospects env leads w =
  (Ok (match save_state env w' with
       | None => Done res'
       | Some e => Failed (exn_msg e)
       end), w').
Proof.
  intros Hrun. unfold nurture_prospects, nurture_prospects_with, try_catch.
  assert (Hlocal : with_local NurturingResults.initial
            (nurture_loop env (_send_outreach_email env) _qualify_lead leads)
            w = (Ok res', w')).
  { unfold with_local. rewrite Hrun. reflexivity. }
  rewrite (bind_ok _ _ _ _ _ Hlocal). unfold bind, self_save_state.
  destruct (save_state env w'); reflexivity.
Qed.

(** ** The lead lifecycle under nurturing *)

Lemma with_status_same (l : Lead.t) :
  Lead.with_status (Lead.status l) l = l.
Proof. destruct l. reflexivity. Qed.

Lemma emailed_cases l :
  emailed l = true ->
  Lead.status l = "new"
  \/ (Lead.status l = "contacted" /\ (Lead.contact_attempts l < 3)%Z).
Proof.
  unfold emailed. intros H. apply orb_true_iff in H.
  destruct H as [H|H].
  - left. apply String.eqb_eq. exact H.
  - right. apply andb_true_iff in H. destruct H as [H1 H2].
    split; [apply String.eqb_eq; exact H1|apply Z.ltb_lt; exact H2].
Qed.

Lemma not_emailed_qualified l :
  Lead.status l = "qualified" -> emailed l = false.
Proof. unfold emailed. intros ->. reflexivity. Qed.

Lemma lead_advances_refl l : lead_advances l l.
Proof.
  unfold lead_advances. repeat split; try reflexivity; auto.
  exists []. rewrite app_nil_r. split; [reflexivity|simpl; lia].
Qed.

Lemma lead_advances_trans l1 l2 l3 :
  lead_advances l1 l2 -> lead_advances l2 l3 -> lead_advances l1 l3.
Proof.
  unfold lead_advances.
  intros (A1 & A2 & A3 & A4 & A5 & A6 & A7 & A8 & (m1 & An & Al) & As
          & Aq & At)
         (B1 & B2 & B3 & B4 & B5 & B6 & B7 & B8 & (m2 & Bn & Bl) & Bs
          & Bq & Bt).
  repeat split; try congruence.
  - exists (m1 ++ m2). rewrite Bn, An, app_assoc. split; [reflexivity|].
    rewrite length_app. lia.
  - destruct Bs as [Bs|[[Bs1 Bs2]|Bs]]; [| |auto].
    + rewrite Bs. exact As.
    + destruct As as [As|[[As1 As2]|As]]; [|congruence|congruence].
      right. left. split; congruence.
  - intros H3. destruct (Bq H3) as [H2|Hq]; [|auto].
    specialize (Bt H2). subst l3. apply Aq. exact H2.
  - intros H1. specialize (At H1). subst l2. apply Bt. exact H1.
Qed.

(** One processing of a lead advances it. *)
Lemma nurtured_lead_advances env r l : lead_advances l (nurtured_lead env r l).
Proof.
  unfold nurtured_lead.
  assert (Hc : lead_advances l (contacted_lead env r l)
               /\ (Lead.status l = "qualified" ->
                   contacted_lead env r l = l)).
  { unfold contacted_lead. destruct (emailed l) eqn:He.
    - split.
      + unfold lead_advances. cbn.
        repeat split; try reflexivity.
        * eexists. split; [reflexivity|]. simpl. lia.
        * destruct (String.eqb_spec (Lead.status l) "new") as [Hn|Hn];
            auto.
        * intros Hq. destruct (String.eqb_spec (Lead.status l) "new");
            [discriminate|]. auto.
        * intros Hq. rewrite (not_emailed_qualified l Hq) in He.
          discriminate.
      + intros Hq. rewrite (not_emailed_qualified l Hq) in He.
        discriminate.
    - split; [apply lead_advances_refl|reflexivity]. }
  destruct Hc as [Hadv Hsame].
  destruct (qualifies (contacted_lead env r l)) eqn:Hq; [|exact Hadv].
  eapply lead_advances_trans; [exact Hadv|].
  set (l1 := contacted_lead env r l) in *.
  unfold lead_advances. cbn. repeat split; try reflexivity; auto.
  - exists []. rewrite app_nil_r. split; [reflexivity|simpl; lia].
  - intros H1. rewrite <- H1. apply with_status_same.
Qed.

Lemma nurtured_lead_within_cap env r l :
  within_contact_cap l -> within_contact_cap (nurtured_lead env r l).
Proof.
  unfold within_contact_cap, nurtured_lead. intros [Hcap Hnew].
  assert (Hc : (Lead.contact_attempts (contacted_lead env r l) <= 3)%Z
               /\ (Lead.status (contacted_lead env r l) = "new" ->
                   (Lead.contact_attempts (contacted_lead env r l) <= 2)%Z)).
  { unfold contacted_lead. destruct (emailed l) eqn:He; [|auto].
    cbn. destruct (emailed_cases l He) as [Hn|[Hs Hlt]].
    - rewrite Hn. cbn. specialize (Hnew Hn). split; [lia|discriminate].
    - rewrite Hs. cbn. split; [lia|discriminate]. }
  destruct (qualifies (contacted_lead env r l)); [|exact Hc].
  cbn. destruct Hc as [Hc _]. split; [exact Hc|discriminate].
Qed.

Lemma nurture_calls_effect env (Q : Lead.t -> Lead.t -> Prop) :
  (forall l, Q l l) ->
  (forall l1 l2 l3, Q l1 l2 -> Q l2 l3 -> Q l1 l3) ->
  (forall r l, Q l (nurtured_lead env r l)) ->
  forall batches w,
    exists w',
      nurture_calls env batches w = (Ok tt, w')
      /\ (forall a, Q (heap w a) (heap w' a))
      /\ same_frame w w'.
Proof.
  intros Qrefl Qtrans Qstep batches.
  induction batches as [|batch rest IH]; intros w.
  - exists w. split; [reflexivity|]. split; [auto|apply same_frame_refl].
  - destruct (nurture_loop_effect env Q Qrefl Qtrans Qstep batch w
                NurturingResults.initial)
      as (w1 & res1 & Hrun & HQ & _ & Hs & _).
    pose proof (nurture_prospects_run env batch w w1 res1 Hrun) as Hcall.
    destruct (IH w1) as (w' & Hrest & HQ' & Hs').
    exists w'. split.
    + unfold nurture_calls in *. simpl for_each.
      assert (Hstep : (_ <- nurture_prospects env batch ;; ret tt) w
                      = (Ok tt, w1))
        by (rewrite (bind_ok _ _ _ _ _ Hcall); reflexivity).
      rewrite (bind_ok _ _ _ _ _ Hstep). exact Hrest.
    + split; [|eapply same_frame_trans; eassumption].
      intros a. eapply Qtrans; [apply HQ|apply HQ'].
Qed.

(** X1: over any sequence of nurture calls every lead object keeps
    its id, name, email, company, title, source, score and creation time;
    its contact attempts only grow, each new attempt with one appended
    note; its status stays, moves from [new] to [contacted] or becomes
    [qualified] (never anything else, and [qualified] only with a score
    above 7 and at least two attempts); a qualified lead is left untouched.
    The calls change nothing of the department but lead objects, the
    prospect table and the clock. *)
Theorem nurture_lead_lifecycle (env : Env) (batches : list (list addr))
        (w : World) :
  exists w',
    nurture_calls env batches w = (Ok tt, w')
    /\ (forall a, lead_advances (heap w a) (heap w' a))
    /\ same_frame w w'.
Proof.
  apply nurture_calls_effect.
  - apply lead_advances_refl.
  - apply lead_advances_trans.
  - apply nurtured_lead_advances.
Qed.

(** X2: a lead within the outreach cap (at most three contact attempts,
    at most two while still new) stays within it over any sequence of
    nurture calls: the loop never makes a fourth attempt. *)
Theorem nurture_contact_cap (env : Env) (batches : list (list addr))
        (w : World) (a : addr) :
  within_contact_cap (heap w a) ->
  exists w',
    nurture_calls env batches w = (Ok tt, w')
    /\ within_contact_cap (heap w' a)
    /\ (Lead.contact_attempts (heap w' a) <= 3)%Z.
Proof.
  intros Hcap.
  destruct (nurture_calls_effect env
              (fun l l' => within_contact_cap l -> within_contact_cap l')
              (fun l H => H)
              (fun l1 l2 l3 H12 H23 H => H23 (H12 H))
              (nurtured_lead_within_cap env) batches w)
    as (w' & Hrun & HQ & _).
  exists w'. split; [exact Hrun|]. specialize (HQ a Hcap).
  split; [exact HQ|apply HQ].
Qed.

Lemma nurture_contact_cap_witness :
  within_contact_cap (heap two_leads_world 0%nat)
  /\ exists w',
       nurture_calls sample_env [[0; 0]; [0; 1; 0]; [0]]%nat two_leads_world
       = (Ok tt, w')
       /\ within_contact_cap (heap w' 0%nat)
       /\ (Lead.contact_attempts (heap w' 0%nat) <= 3)%Z.
Proof.
  split; [vm_compute; split; [discriminate|intros H; discriminate]|].
  apply (nurture_contact_cap sample_env [[0; 0]; [0; 1; 0]; [0]]%nat
           two_leads_world 0%nat).
  vm_compute. split; [discriminate|intros H; discriminate].
Defined.

(** X3: with the helper methods of the class no lead of a batch can
    fail: the error list is empty, every lead is counted as contacted, no
    response is ever recorded, and at most one email and one qualification
    are counted per lead. The call returns these results unless the final
    [save_state] raises, in which case it returns the failure dict, the
    leads having been processed all the same. *)
Theorem nurture_prospects_class_tally (env : Env) (leads : list addr)
        (w : World) :
  exists res w',
    nurture_prospects env leads w =
      (Ok (match save_state env w' with
           | None => Done res
           | Some e => Failed (exn_msg e)
           end), w')
    /\ NurturingResults.errors res = []
    /\ NurturingResults.responses_received res = 0%Z
    /\ NurturingResults.leads_contacted res = len leads
    /\ (0 <= NurturingResults.emails_sent res <= len leads)%Z
    /\ (0 <= NurturingResults.prospects_qualified res <= len leads)%Z.
Proof.
  destruct (nurture_loop_effect env (fun _ _ => True)
              (fun _ => I) (fun _ _ _ _ _ => I) (fun _ _ => I)
              leads w NurturingResults.initial)
    as (w' & res & Hrun & _ & _ & _ & He & Hr & Hc & Hm & Hp).
  exists res, w'. split; [apply nurture_prospects_run; exact Hrun|].
  simpl in He, Hr, Hc, Hm, Hp. repeat split; try assumption; lia.
Qed.

(** ** The lead nurturing workflow *)

Lemma known_ids_length {V} (d : PyDict.t V) ids :
  List.length
    (flat_map (fun lid => match PyDict.get lid d with
                          | Some lead => [lead]
                          | None => []
                          end) ids)
  = List.length (filter (fun lid => PyDict.mem lid d) ids).
Proof.
  unfold PyDict.mem. induction ids as [|lid ids IH]; simpl; [reflexivity|].
  destruct (PyDict.get lid d); simpl; rewrite ?IH; reflexivity.
Qed.

Lemma filter_mem_keys {V} (d : PyDict.t V) :
  filter (fun lid => PyDict.mem lid d) (PyDict.keys d) = PyDict.keys d.
Proof.
  apply forallb_filter_id. apply forallb_forall.
  intros k Hk. apply mem_true_iff. exact Hk.
Qed.

(** X4: the lead nurturing workflow processes the ids of
    its [lead_ids] list that are keys of the lead database, skipping the
    others, and all leads of the database when the key is missing. It
    always answers with [success = True], also when [nurture_prospects]
    itself failed and its failure dict is what the envelope carries. *)
Theorem lead_nurturing_workflow_counts (env : Env) (task : Config)
        (w : World) :
  exists res w',
    _execute_lead_nurturing_workflow env task w =
      (Ok (Envelope.stage_success "lead_nurturing"
             (NurturingPayload
                (match save_state env w' with
                 | None => Done res
                 | Some e => Failed (exn_msg e)
                 end))), w')
    /\ NurturingResults.leads_contacted res =
       match cfg_lead_ids task with
       | Some ids =>
           len (filter (fun lid => PyDict.mem lid (leads_database w)) ids)
       | None => len (leads_database w)
       end
    /\ NurturingResults.errors res = []
    /\ same_frame w w'.
Proof.
  set (ids := default (PyDict.keys (leads_database w)) (cfg_lead_ids task)).
  set (batch := flat_map (fun lid =>
                            match PyDict.get lid (leads_database w) with
                            | Some lead => [lead]
                            | None => []
                            end) ids).
  destruct (nurture_loop_effect env (fun _ _ => True)
              (fun _ => I) (fun _ _ _ _ _ => I) (fun _ _ => I)
              batch w NurturingResults.initial)
    as (w' & res & Hrun & _ & _ & Hs & He & _ & Hc & _ & _).
  pose proof (nurture_prospects_run env batch w w' res Hrun) as Hcall.
  exists res, w'. split.
  - unfold _execute_lead_nurturing_workflow.
    apply try_catch_ok. unfold bind at 1, gets. cbn [fst snd].
    fold ids. fold batch. rewrite (bind_ok _ _ _ _ _ Hcall). reflexivity.
  - simpl in Hc, He.
    assert (Hlen : NurturingResults.leads_contacted res =
                   len (filter (fun lid => PyDict.mem lid (leads_database w))
                               ids)).
    { rewrite Hc. unfold len, batch. rewrite known_ids_length. lia. }
    split; [|split; [exact He|exact Hs]].
    rewrite Hlen. unfold ids. destruct (cfg_lead_ids task); simpl default;
      [reflexivity|].
    rewrite filter_mem_keys. unfold len, PyDict.keys.
    rewrite length_map. reflexivity.
Qed.

(** X5: given an explicit empty [lead_ids] list, as the full
    pipeline gives it, the lead nurturing workflow processes no lead at
    all: the department is exactly as before, and the envelope carries the
    all-zero results (or the failure of [save_state]). *)
Theorem lead_nurturing_empty_ids (env : Env) (w : World) :
  _execute_lead_nurturing_workflow env (config_lead_ids []) w =
  (Ok (Envelope.stage_success "lead_nurturing"
         (NurturingPayload
            (match save_state env w with
             | None => Done NurturingResults.initial
             | Some e => Failed (exn_msg e)
             end))), w).
Proof.
  unfold _execute_lead_nurturing_workflow.
  apply try_catch_ok. unfold bind at 1, gets. cbn [fst snd].
  simpl flat_map.
  assert (Hrun : nurture_loop env (_send_outreach_email env) _qualify_lead []
                   (w, NurturingResults.initial)
                 = (Ok tt, (w, NurturingResults.initial))) by reflexivity.
  rewrite (bind_ok _ _ _ _ _ (nurture_prospects_run env [] w w _ Hrun)).
  reflexivity.
Qed.

(** ** Scheduling: any batch, and the default batch *)

Lemma keeps_utcnow_field {X} (proj : World -> X) env :
  (forall n w, proj (with_clock_reads n w) = proj w) ->
  keeps proj (utcnow env).
Proof. intros H w. apply H. Qed.

Lemma keeps_save_state_field {X} (proj : World -> X) env :
  keeps proj (self_save_state env).
Proof.
  intros w. unfold self_save_state. destruct (save_state env w); reflexivity.
Qed.

Ltac keeps_field :=
  repeat first
    [ apply keeps_ret
    | apply keeps_raise
    | apply keeps_gets
    | apply keeps_lift_result
    | apply keeps_utcnow_field; intros ? ?; reflexivity
    | apply keeps_save_state_field
    | apply keeps_on_local
    | apply keeps_on_self
    | apply keeps_with_local
    | apply keeps_modify; intros ?; reflexivity
    | apply keeps_bind; [|intros ?]
    | apply keeps_try_catch; [|intros ?]
    | apply keeps_for_each; intros ?
    | match goal with
      | |- keeps _ (if ?b then _ else _) => destruct b
      | |- keeps _ (match ?x with _ => _ end) => destruct x
      end ].

Lemma schedule_meetings_keeps_heap env batch :
  keeps heap (schedule_meetings env batch).
Proof.
  unfold schedule_meetings, schedule_loop, schedule_body, schedule_except,
    _find_available_slot, mark_meeting_scheduled.
  cbv zeta. keeps_field.
Qed.

Lemma schedule_meetings_keeps_leads env batch :
  keeps leads_database (schedule_meetings env batch).
Proof.
  unfold schedule_meetings, schedule_loop, schedule_body, schedule_except,
    _find_available_slot, mark_meeting_scheduled.
  cbv zeta. keeps_field.
Qed.

Lemma expected_meetings_ids env batch : forall r,
  map Meeting.prospect_id (expected_meetings env r batch)
  = map pd_prospect_id batch.
Proof.
  induction batch as [|pd rest IH]; intros r; simpl; [reflexivity|].
  rewrite IH. reflexivity.
Qed.

Lemma scheduled_table_get_other k prospect_id d :
  prospect_id <> Some k ->
  PyDict.get k (scheduled_table prospect_id d) = PyDict.get k d.
Proof.
  intros Hne. unfold scheduled_table.
  destruct prospect_id as [pid|]; [|reflexivity].
  destruct (PyDict.mem pid d); [|reflexivity].
  assert (pid <> k) by congruence.
  rewrite !get_update_other by assumption. reflexivity.
Qed.

Lemma fold_scheduled_keys batch : forall d,
  PyDict.keys
    (fold_left (fun d pd => scheduled_table (pd_prospect_id pd) d) batch d)
  = PyDict.keys d.
Proof.
  induction batch as [|pd rest IH]; intros d; simpl; [reflexivity|].
  rewrite IH. apply scheduled_table_keeps_keys.
Qed.

Lemma fold_scheduled_get_other batch : forall k d,
  ~ In (Some k) (map pd_prospect_id batch) ->
  PyDict.get k
    (fold_left (fun d pd => scheduled_table (pd_prospect_id pd) d) batch d)
  = PyDict.get k d.
Proof.
  induction batch as [|pd rest IH]; intros k d Hnot; simpl; [reflexivity|].
  simpl in Hnot. rewrite IH by tauto.
  apply scheduled_table_get_other. tauto.
Qed.

(** The run of [schedule_meetings] on any batch. *)
Lemma schedule_meetings_run env batch w :
  (forall t, isoformat env t <> "") ->
  exists res w',
    schedule_meetings env batch w =
      (Ok (match save_state env w' with
           | None => Done res
           | Some e => Failed (exn_msg e)
           end), w')
    /\ meetings_scheduled w' =
       meetings_scheduled w ++ expected_meetings env (clock_reads w) batch
    /\ SchedulingResults.scheduled_meetings res
       = expected_meetings env (clock_reads w) batch
    /\ prospects_pipeline w' =
       fold_left (fun d pd => scheduled_table (pd_prospect_id pd) d) batch
                 (prospects_pipeline w)
    /\ SchedulingResults.meetings_requested res = len batch
    /\ SchedulingResults.meetings_confirmed res = len batch
    /\ SchedulingResults.calendar_conflicts res = 0%Z
    /\ SchedulingResults.errors res = [].
Proof.
  intros Hiso.
  destruct (schedule_loop_spec env Hiso batch w SchedulingResults.initial)
    as (w' & res & Hrun & Hm & Hs & Hp & Hq & Hc & Hk & He).
  simpl in Hs, Hq, Hc, Hk, He.
  exists res, w'. split.
  - assert (Hlocal : with_local SchedulingResults.initial
                       (schedule_loop env batch) w = (Ok res, w')).
    { unfold with_local. rewrite Hrun. reflexivity. }
    unfold schedule_meetings, try_catch.
    rewrite (bind_ok _ _ _ _ _ Hlocal). unfold bind, self_save_state.
    destruct (save_state env w'); reflexivity.
  - repeat split; assumption.
Qed.

(** X6: [schedule_meetings] creates one confirmed meeting per
    entry of any batch, also for an entry whose prospect id is unknown or
    missing; it never reports a conflict or an error. The prospect table
    keeps its keys, a prospect that no entry names is unchanged, and no
    lead object and no entry of the lead database is touched. *)
Theorem schedule_meetings_any_batch (env : Env) (batch : list ProspectData)
        (w : World) :
  (forall t, isoformat env t <> "") ->
  exists res w',
    schedule_meetings env batch w =
      (Ok (match save_state env w' with
           | None => Done res
           | Some e => Failed (exn_msg e)
           end), w')
    /\ meetings_scheduled w' =
       meetings_scheduled w ++ SchedulingResults.scheduled_meetings res
    /\ map Meeting.prospect_id (SchedulingResults.scheduled_meetings res)
       = map pd_prospect_id batch
    /\ SchedulingResults.meetings_requested res = len batch
    /\ SchedulingResults.meetings_confirmed res = len batch
    /\ SchedulingResults.calendar_conflicts res = 0%Z
    /\ SchedulingResults.errors res = []
    /\ PyDict.keys (prospects_pipeline w') = PyDict.keys (prospects_pipeline w)
    /\ (forall k, ~ In (Some k) (map pd_prospect_id batch) ->
          PyDict.get k (prospects_pipeline w')
          = PyDict.get k (prospects_pipeline w))
    /\ heap w' = heap w
    /\ leads_database w' = leads_database w.
Proof.
  intros Hiso.
  destruct (schedule_meetings_run env batch w Hiso)
    as (res & w' & Hrun & Hm & Hs & Hp & Hq & Hc & Hk & He).
  exists res, w'. split; [exact Hrun|].
  rewrite Hs, Hp, Hm.
  split; [reflexivity|]. split; [apply expected_meetings_ids|].
  split; [exact Hq|]. split; [exact Hc|]. split; [exact Hk|].
  split; [exact He|]. split; [apply fold_scheduled_keys|].
  split; [intros k Hk'; apply fold_scheduled_get_other; exact Hk'|].
  pose proof (schedule_meetings_keeps_heap env batch w) as Hh.
  pose proof (schedule_meetings_keeps_leads env batch w) as Hl.
  rewrite Hrun in Hh, Hl. simpl in Hh, Hl. split; assumption.
Qed.

Lemma schedule_meetings_any_batch_witness :
  exists res w',
    schedule_meetings sample_env
      [{| pd_prospect_id := Some "nobody"; pd_meeting_type := Some "demo";
          pd_preferred_times := None |};
       {| pd_prospect_id := None; pd_meeting_type := None;
          pd_preferred_times := None |}] two_prospects_world
    = (Ok (Done res), w')
    /\ map Meeting.prospect_id (SchedulingResults.scheduled_meetings res)
       = [Some "nobody"; None]
    /\ SchedulingResults.meetings_confirmed res = 2%Z
    /\ PyDict.keys (prospects_pipeline w') = ["lead_1"; "lead_2"].
Proof.
  destruct (schedule_meetings_any_batch sample_env
              [{| pd_prospect_id := Some "nobody";
                  pd_meeting_type := Some "demo";
                  pd_preferred_times := None |};
               {| pd_prospect_id := None; pd_meeting_type := None;
                  pd_preferred_times := None |}] two_prospects_world)
    as (res & w' & Hrun & _ & Hids & _ & Hc & _ & _ & Hkeys & _).
  - intros t. discriminate.
  - exists res, w'. split; [exact Hrun|]. split; [exact Hids|].
    split; [exact Hc|exact Hkeys].
Defined.

Lemma get_In {V} k (v : V) d : PyDict.get k d = Some v -> In (k, v) d.
Proof.
  induction d as [|[k' v'] d IH]; simpl; [discriminate|].
  destruct (String.eqb_spec k' k) as [->|Hne].
  - intros H. injection H as ->. left. reflexivity.
  - intros H. right. apply IH. exact H.
Qed.

Lemma In_get_wf {V} k (v : V) d :
  PyDict.wf d -> In (k, v) d -> PyDict.get k d = Some v.
Proof.
  unfold PyDict.wf. induction d as [|[k' v'] d IH]; intros Hwf Hin;
    [contradiction|].
  simpl in *. inversion Hwf as [|? ? Hnot Hwf']; subst.
  destruct Hin as [Heq|Hin].
  - injection Heq as -> ->. rewrite String.eqb_refl. reflexivity.
  - destruct (String.eqb_spec k' k) as [->|Hne]; [|apply IH; assumption].
    exfalso. apply Hnot. apply in_map_iff. exists (k, v). auto.
Qed.

Lemma get_some_iff_keys {V} k (d d' : PyDict.t V) :
  PyDict.keys d' = PyDict.keys d ->
  (exists v', PyDict.get k d' = Some v') ->
  exists v, PyDict.get k d = Some v.
Proof.
  intros Hkeys (v' & Hget).
  assert (Hmem : PyDict.mem k d = true).
  { apply mem_true_iff. rewrite <- Hkeys. apply mem_true_iff.
    unfold PyDict.mem. rewrite Hget. reflexivity. }
  unfold PyDict.mem in Hmem. destruct (PyDict.get k d) as [v|];
    [eauto|discriminate].
Qed.

Lemma meeting_set_table k prospect_id d :
  meeting_set k d -> meeting_set k (scheduled_table prospect_id d).
Proof.
  intros (p & Hget & Hms). unfold scheduled_table, meeting_set.
  destruct prospect_id as [pid|]; [|eauto].
  destruct (PyDict.mem pid d); [|eauto].
  destruct (string_dec pid k) as [->|Hne].
  - rewrite !get_update_same, Hget. simpl. eexists.
    split; [reflexivity|]. reflexivity.
  - rewrite !get_update_other by exact Hne. eauto.
Qed.

Lemma fold_meeting_set batch : forall k d,
  meeting_set k d ->
  meeting_set k
    (fold_left (fun d pd => scheduled_table (pd_prospect_id pd) d) batch d).
Proof.
  induction batch as [|pd rest IH]; intros k d H; simpl; [exact H|].
  apply IH, meeting_set_table, H.
Qed.

Lemma unscheduled_prospects_entry w k p :
  In (k, p) (prospects_pipeline w) ->
  Prospect.meeting_scheduled p = false ->
  In {| pd_prospect_id := Some k;
        pd_meeting_type := Some "discovery_call";
        pd_preferred_times := None |} (unscheduled_prospects w).
Proof.
  unfold unscheduled_prospects. intros Hin Hms.
  apply in_flat_map. exists (k, p). split; [exact Hin|].
  simpl. rewrite Hms. left. reflexivity.
Qed.

(** After the default batch every stored prospect has its meeting set. *)
Lemma default_batch_schedules_all w k p :
  PyDict.get k
    (fold_left (fun d pd => scheduled_table (pd_prospect_id pd) d)
               (unscheduled_prospects w) (prospects_pipeline w)) = Some p ->
  Prospect.meeting_scheduled p = true.
Proof.
  intros Hget.
  destruct (get_some_iff_keys k (prospects_pipeline w) _
              (fold_scheduled_keys (unscheduled_prospects w) _)
              (ex_intro _ p Hget)) as (p0 & Hget0).
  assert (Hset : meeting_set k
            (fold_left (fun d pd => scheduled_table (pd_prospect_id pd) d)
                       (unscheduled_prospects w) (prospects_pipeline w))).
  { destruct (Prospect.meeting_scheduled p0) eqn:Hms.
    - apply fold_meeting_set. exists p0. auto.
    - destruct (fold_scheduled_marks (unscheduled_prospects w) _ k
                  (prospects_pipeline w)
                  (unscheduled_prospects_entry w k p0
                     (get_In _ _ _ Hget0) Hms) eq_refl)
        as (p' & Hget' & Hms' & _).
      + unfold PyDict.mem. rewrite Hget0. reflexivity.
      + exists p'. auto. }
  destruct Hset as (p' & Hget' & Hms'). congruence.
Qed.

Lemma all_scheduled_no_default (d : PyDict.t Prospect.t) :
  PyDict.wf d ->
  (forall k p, PyDict.get k d = Some p ->
               Prospect.meeting_scheduled p = true) ->
  flat_map (fun entry : string * Prospect.t =>
              if Prospect.meeting_scheduled (snd entry) then []
              else [{| pd_prospect_id := Some (fst entry);
                       pd_meeting_type := Some "discovery_call";
                       pd_preferred_times := None |}]) d = [].
Proof.
  intros Hwf Hall.
  assert (Hin : forall k p, In (k, p) d ->
                            Prospect.meeting_scheduled p = true).
  { intros k p H. apply (Hall k p). apply In_get_wf; assumption. }
  clear Hall Hwf.
  induction d as [|[k p] d IH]; [reflexivity|].
  simpl. rewrite (Hin k p) by (left; reflexivity). simpl.
  apply IH. intros k' p' H. apply (Hin k' p'). right. exact H.
Qed.

Lemma schedule_meetings_nil env w :
  schedule_meetings env [] w =
  (Ok (match save_state env w with
       | None => Done SchedulingResults.initial
       | Some e => Failed (exn_msg e)
       end), w).
Proof.
  unfold schedule_meetings, try_catch, bind, with_local, schedule_loop,
    self_save_state. simpl. destruct (save_state env w); reflexivity.
Qed.

(** X7: the meeting scheduling workflow without a [prospects]
    list (or with an empty one) schedules one meeting for every prospect
    that has none and leaves every stored prospect with its meeting set;
    a second such run right after has nothing to schedule and appends no
    meeting. *)
Theorem meeting_scheduling_default_run (env : Env) (task : Config)
        (w : World) :
  (forall t, isoformat env t <> "") ->
  PyDict.wf (prospects_pipeline w) ->
  default [] (cfg_prospects task) = [] ->
  exists e1 w1 e2,
    _execute_meeting_scheduling_workflow env task w = (Ok e1, w1)
    /\ Envelope.success e1 = Some true
    /\ List.length (meetings_scheduled w1) =
       (List.length (meetings_scheduled w)
        + List.length (unscheduled_prospects w))%nat
    /\ (forall k p, PyDict.get k (prospects_pipeline w1) = Some p ->
                    Prospect.meeting_scheduled p = true)
    /\ unscheduled_prospects w1 = []
    /\ _execute_meeting_scheduling_workflow env task w1 = (Ok e2, w1).
Proof.
  intros Hiso Hwf Hdefault.
  destruct (schedule_meetings_run env (unscheduled_prospects w) w Hiso)
    as (res & w1 & Hrun & Hm & _ & Hp & _).
  assert (Hall : forall k p, PyDict.get k (prospects_pipeline w1) = Some p ->
                             Prospect.meeting_scheduled p = true).
  { intros k p. rewrite Hp. apply default_batch_schedules_all. }
  assert (Hnone : unscheduled_prospects w1 = []).
  { assert (Hwf1 : PyDict.wf (prospects_pipeline w1)).
    { unfold PyDict.wf. rewrite Hp, fold_scheduled_keys. exact Hwf. }
    unfold unscheduled_prospects.
    apply all_scheduled_no_default; assumption. }
  assert (Hwf_run : forall w0 batch,
            (match default [] (cfg_prospects task) with
             | [] => unscheduled_prospects w0
             | _ :: _ => default [] (cfg_prospects task)
             end) = batch ->
            _execute_meeting_scheduling_workflow env task w0 =
            match schedule_meetings env batch w0 with
            | (Ok results, w') =>
                (Ok (Envelope.stage_success "meeting_scheduling"
                       (SchedulingPayload results)), w')
            | (Raise e, w') => (Ok (Envelope.failure (exn_msg e)), w')
            end).
  { intros w0 batch <-. unfold _execute_meeting_scheduling_workflow.
    unfold try_catch, bind, gets, ret. cbn [fst snd].
    destruct (schedule_meetings env _ w0) as [[results|e] w'];
      reflexivity. }
  do 3 eexists. split.
  - rewrite (Hwf_run w (unscheduled_prospects w))
      by (rewrite Hdefault; reflexivity).
    rewrite Hrun. reflexivity.
  - split; [reflexivity|]. split.
    + rewrite Hm, length_app, expected_meetings_length. reflexivity.
    + split; [exact Hall|]. split; [exact Hnone|].
      rewrite (Hwf_run w1 []) by (rewrite Hdefault; exact Hnone).
      rewrite schedule_meetings_nil. reflexivity.
Qed.

Lemma meeting_scheduling_default_run_witness :
  exists e1 w1 e2,
    _execute_meeting_scheduling_workflow sample_env empty_config
      two_prospects_world = (Ok e1, w1)
    /\ Envelope.success e1 = Some true
    /\ List.length (meetings_scheduled w1) = 2%nat
    /\ unscheduled_prospects w1 = []
    /\ _execute_meeting_scheduling_workflow sample_env empty_config w1
       = (Ok e2, w1).
Proof.
  destruct (meeting_scheduling_default_run sample_env empty_config
              two_prospects_world)
    as (e1 & w1 & e2 & Hrun & Hs & Hlen & _ & Hnone & Hagain).
  - intros t. discriminate.
  - repeat constructor; simpl; intros H;
      repeat (destruct H as [H|H]; try discriminate); exact H.
  - reflexivity.
  - exists e1, w1, e2. split; [exact Hrun|]. split; [exact Hs|].
    split; [exact Hlen|]. split; [exact Hnone|exact Hagain].
Defined.

(** ** The report and the status view *)

(** X8: [report_pipeline_status] always produces a report
    and changes nothing of the department; it reads the clock four times.
    The counts and the pipeline value of the summary are those of the
    store, and the target comparison repeats them. *)
Theorem report_is_read_only (env : Env) (w : World) :
  exists report,
    report_pipeline_status env w =
      (Ok (Done report), with_clock_reads (4 + clock_reads w) w)
    /\ Report.total_leads (Report.summary report) = len (leads_database w)
    /\ Report.total_prospects (Report.summary report)
       = len (prospects_pipeline w)
    /\ Report.total_meetings (Report.summary report)
       = len (meetings_scheduled w)
    /\ Report.pipeline_value (Report.summary report) = pipeline_value w
    /\ Report.leads_actual (Report.targets_vs_actual report)
       = len (leads_database w)
    /\ Report.meetings_actual (Report.targets_vs_actual report)
       = len (meetings_scheduled w)
    /\ Report.pipeline_value_actual (Report.targets_vs_actual report)
       = pipeline_value w
    /\ List.length (Report.recent_activity report) = 3%nat.
Proof.
  unfold report_pipeline_status, try_catch, bind, gets.
  destruct (Z.ltb_spec 0 (len (leads_database w))) as [Hpos|Hzero].
  - rewrite !truediv_nonzero by lia.
    unfold _get_recent_activity, _generate_pipeline_recommendations, bind,
      gets, utcnow, ret.
    cbn [fst snd]. eexists. split; [reflexivity|]. cbn.
    repeat split; reflexivity.
  - unfold _get_recent_activity, _generate_pipeline_recommendations, bind,
      gets, utcnow, ret.
    cbn [fst snd]. eexists. split; [reflexivity|]. cbn.
    repeat split; reflexivity.
Qed.

Lemma breakdown_fold (heap_of : addr -> Lead.t) status leads : forall d,
  PyDict.get status
    (fold_left
       (fun breakdown lead =>
          let s := Lead.status (heap_of lead) in
          PyDict.set s (default 0%Z (PyDict.get s breakdown) + 1)%Z
                     breakdown)
       leads d)
  = match List.length
            (filter (fun lead => String.eqb (Lead.status (heap_of lead))
                                            status) leads) with
    | O => PyDict.get status d
    | S n =>
        Some (default 0%Z (PyDict.get status d) + Z.of_nat (S n))%Z
    end.
Proof.
  induction leads as [|lead rest IH]; intros d; [reflexivity|].
  simpl fold_left. rewrite IH. simpl filter.
  destruct (String.eqb_spec (Lead.status (heap_of lead)) status)
    as [Heq|Hne].
  - rewrite Heq. rewrite get_set_same. simpl List.length.
    destruct (List.length
                (filter (fun lead0 =>
                           String.eqb (Lead.status (heap_of lead0)) status)
                        rest)); simpl default; f_equal; lia.
  - rewrite get_set_other by exact Hne. reflexivity.
Qed.

Lemma breakdown_wf (heap_of : addr -> Lead.t) leads : forall d,
  PyDict.wf d ->
  PyDict.wf
    (fold_left
       (fun breakdown lead =>
          let s := Lead.status (heap_of lead) in
          PyDict.set s (default 0%Z (PyDict.get s breakdown) + 1)%Z
                     breakdown)
       leads d).
Proof.
  induction leads as [|lead rest IH]; intros d Hwf; [exact Hwf|].
  simpl. apply IH. apply wf_set. exact Hwf.
Qed.

(** X9: the [lead_breakdown] of the report is a histogram of the
    lead database by status: a status is a key exactly when some lead has
    it, its value is the number of leads that have it, and no status is
    listed twice. *)
Theorem report_lead_breakdown (env : Env) (w : World) :
  exists report w',
    report_pipeline_status env w = (Ok (Done report), w')
    /\ PyDict.wf (Report.lead_breakdown report)
    /\ forall status,
         PyDict.get status (Report.lead_breakdown report)
         = match leads_with_status w status with
           | O => None
           | S n => Some (Z.of_nat (S n))
           end.
Proof.
  assert (Hb : exists report w',
             report_pipeline_status env w = (Ok (Done report), w')
             /\ Report.lead_breakdown report = lead_status_breakdown w).
  { unfold report_pipeline_status, try_catch, bind, gets.
    destruct (Z.ltb_spec 0 (len (leads_database w))) as [Hpos|Hzero].
    - rewrite !truediv_nonzero by lia.
      unfold _get_recent_activity, _generate_pipeline_recommendations, bind,
        gets, utcnow, ret.
      cbn [fst snd]. do 2 eexists. split; reflexivity.
    - unfold _get_recent_activity, _generate_pipeline_recommendations, bind,
        gets, utcnow, ret.
      cbn [fst snd]. do 2 eexists. split; reflexivity. }
  destruct Hb as (report & w' & Hrun & Hbreak).
  exists report, w'. split; [exact Hrun|]. rewrite Hbreak.
  unfold lead_status_breakdown, leads_with_status. split.
  - apply breakdown_wf. constructor.
  - intros status. rewrite breakdown_fold. simpl PyDict.get.
    destruct (List.length _); [reflexivity|]. simpl default. f_equal.
Qed.

Lemma recommendations_run w :
  _generate_pipeline_recommendations w =
  (Ok (match
          (if Z.ltb (len (leads_database w)) 10 then [rec_increase] else [])
          ++ (if Z.eqb (len (prospects_pipeline w)) 0 then [rec_focus]
              else [])
          ++ (if Z.eqb (len (meetings_scheduled w)) 0 then [rec_prioritize]
              else [])
        with
        | [] => [rec_default]
        | recommendations => recommendations
        end), w).
Proof.
  unfold _generate_pipeline_recommendations, bind, gets, ret.
  cbn [fst snd].
  destruct (Z.ltb (len (leads_database w)) 10),
    (Z.eqb (len (prospects_pipeline w)) 0),
    (Z.eqb (len (meetings_scheduled w)) 0); reflexivity.
Qed.

(** X10: the recommendation list is never empty. It asks for
    more lead generation exactly when there are fewer than 10 leads, for
    qualification exactly when there is no prospect, for scheduling exactly
    when there is no meeting, and it is the single positive message exactly
    when none of the three applies. *)
Theorem pipeline_recommendations (w : World) :
  exists recommendations,
    _generate_pipeline_recommendations w = (Ok recommendations, w)
    /\ recommendations <> []
    /\ (In rec_increase recommendations
        <-> (len (leads_database w) < 10)%Z)
    /\ (In rec_focus recommendations
        <-> len (prospects_pipeline w) = 0%Z)
    /\ (In rec_prioritize recommendations
        <-> len (meetings_scheduled w) = 0%Z)
    /\ (recommendations = [rec_default]
        <-> (10 <= len (leads_database w))%Z
            /\ len (prospects_pipeline w) <> 0%Z
            /\ len (meetings_scheduled w) <> 0%Z).
Proof.
  eexists. split; [apply recommendations_run|].
  destruct (Z.ltb_spec (len (leads_database w)) 10),
    (Z.eqb_spec (len (prospects_pipeline w)) 0),
    (Z.eqb_spec (len (meetings_scheduled w)) 0);
    simpl app; cbv iota;
    (split; [discriminate|]);
    repeat split; intros;
    repeat match goal with
           | H : In _ _ |- _ => simpl in H
           | H : _ \/ _ |- _ => destruct H
           | H : _ /\ _ |- _ => destruct H
           | H : False |- _ => contradiction
           end;
    try lia; try discriminate; try reflexivity; try assumption;
    simpl; auto.
Qed.

Lemma py_max_one (n : Z) : (0 < n)%Z -> py_max n 1 = n.
Proof.
  intros Hpos. unfold py_max.
  destruct (Z.ltb_spec n 1); [lia|reflexivity].
Qed.

Lemma py_max_nonzero (n : Z) : py_max n 1 <> 0%Z.
Proof. unfold py_max. destruct (Z.ltb_spec n 1); lia. Qed.

(** X11: the business impact and the current metrics are always
    produced, without an error and without a change to the department. They
    agree with the report on the pipeline value and on the conversion rate
    whenever there is a lead. With no lead the report and the business
    impact give a conversion rate of 0 and the cost per lead is the whole
    operational cost, while the current metrics divide the number of
    prospects by 1. *)
Theorem status_views_agree (env : Env) (micro_agents : Z) (w : World) :
  exists report impact current w',
    report_pipeline_status env w = (Ok (Done report), w')
    /\ calculate_business_impact micro_agents w = (Ok (Done impact), w)
    /\ _calculate_current_metrics w = (Ok current, w)
    /\ bi_pipeline_value impact
       = Report.pipeline_value (Report.summary report)
    /\ cm_pipeline_value current
       = Report.pipeline_value (Report.summary report)
    /\ bi_conversion_rate impact
       = Report.lead_to_prospect_conversion (Report.summary report)
    /\ cm_conversion_rate current
       = (if Z.ltb 0 (len (leads_database w))
          then bi_conversion_rate impact
          else (inject_Z (len (prospects_pipeline w)) / inject_Z 1)%Q)
    /\ bi_cost_per_lead impact
       = (if Z.ltb 0 (len (leads_database w))
          then (inject_Z (micro_agents * 100)
                / inject_Z (len (leads_database w)))%Q
          else inject_Z (micro_agents * 100)).
Proof.
  unfold report_pipeline_status, calculate_business_impact,
    _calculate_current_metrics, try_catch, bind, gets.
  cbn [fst snd].
  destruct (Z.ltb_spec 0 (len (leads_database w))) as [Hpos|Hzero].
  - rewrite py_max_one by exact Hpos.
    rewrite !truediv_nonzero by lia.
    unfold _get_recent_activity, _generate_pipeline_recommendations, bind,
      gets, utcnow, ret.
    cbn [fst snd]. do 4 eexists.
    repeat (split; [reflexivity|]). reflexivity.
  - assert (Hlen : len (leads_database w) = 0%Z).
    { pose proof (Zle_0_nat (List.length (leads_database w))).
      unfold len in *. lia. }
    rewrite Hlen. change (py_max 0 1) with 1%Z.
    rewrite !truediv_nonzero by lia.
    unfold _get_recent_activity, _generate_pipeline_recommendations, bind,
      gets, utcnow, ret.
    cbn [fst snd]. do 4 eexists.
    repeat (split; [reflexivity|]). reflexivity.
Qed.

(** ** The dispatcher *)

(** X12: with room for one call, [execute_workflow] and
    [execute_workflow_safe] both return the envelope of the workflow that
    the request selects, in the state that workflow leaves: neither raises,
    and the handlers of the two methods are never entered. *)
Theorem safe_wrapper_transparent (env : Env) (depth : nat) (config : Config)
    (w : World) :
  exists envelope w',
    dispatch env config w = (Ok envelope, w')
    /\ execute_workflow env (S depth) config w = (Ok envelope, w')
    /\ execute_workflow_safe env (S depth) config w = (Ok envelope, w').
Proof.
  destruct (dispatch_returns env config w) as (envelope & w' & Hrun).
  exists envelope, w'. split; [exact Hrun|].
  assert (Hexec : execute_workflow env (S depth) config w
                  = (Ok envelope, w')).
  { rewrite execute_workflow_dispatch. exact Hrun. }
  split; [exact Hexec|].
  unfold execute_workflow_safe.
  rewrite (try_catch_ok _ _ _ _ _ Hexec). reflexivity.
Qed.

(** X13: a request whose workflow type is none of the seven
    known ones is answered with an unsuccessful envelope that names the
    type; nothing of the department changes, not even the clock is read. *)
Theorem unknown_workflow_type (env : Env) (depth : nat) (config : Config)
    (workflow_type : string) (w : World) :
  cfg_workflow_type config = Some workflow_type ->
  ~ In workflow_type known_workflow_types ->
  exists envelope,
    execute_workflow env (S depth) config w = (Ok envelope, w)
    /\ Envelope.success envelope = Some false
    /\ Envelope.workflow_type envelope = Some workflow_type
    /\ Envelope.error envelope
       = Some ("Mock workflow not implemented for " ++ workflow_type)%string
    /\ Envelope.payload envelope = NoPayload.
Proof.
  intros Htype Hunknown.
  rewrite execute_workflow_dispatch. unfold dispatch, _execute_mock_workflow.
  rewrite Htype. cbv [default].
  unfold known_workflow_types in Hunknown.
  repeat match goal with
         | |- context [String.eqb workflow_type ?s] =>
             let Hne := fresh "Hne" in
             assert (Hne : String.eqb workflow_type s = false)
               by (apply String.eqb_neq; intros ->; apply Hunknown;
                   cbv [In]; tauto);
             rewrite Hne; clear Hne
         end.
  eexists. split; [reflexivity|]. repeat split; reflexivity.
Qed.

Lemma unknown_workflow_type_witness :
  exists envelope,
    execute_workflow sample_env 1 (config_for "forecasting") empty_world
      = (Ok envelope, empty_world)
    /\ Envelope.success envelope = Some false
    /\ Envelope.workflow_type envelope = Some "forecasting"
    /\ Envelope.error envelope
       = Some "Mock workflow not implemented for forecasting"
    /\ Envelope.payload envelope = NoPayload.
Proof.
  apply (unknown_workflow_type sample_env 0 (config_for "forecasting")
           "forecasting" empty_world).
  - reflexivity.
  - cbv [known_workflow_types In].
    intros [H|[H|[H|[H|[H|[H|[H|[]]]]]]]]; discriminate H.
Defined.

(** ** The lead score *)

Lemma add_on_first_match_cases keys text amount score :
  add_on_first_match keys text amount score = score
  \/ add_on_first_match keys text amount score = (score + amount)%Q.
Proof.
  induction keys as [|k keys IH]; [left; reflexivity|].
  cbn [add_on_first_match]. destruct (PyStr.contains text k); auto.
Qed.

Lemma add_first_bonus_cases text score :
  add_first_bonus company_size_bonus text score = score
  \/ add_first_bonus company_size_bonus text score = (score + inject_Z 5)%Q
  \/ add_first_bonus company_size_bonus text score = (score + inject_Z 10)%Q
  \/ add_first_bonus company_size_bonus text score = (score + inject_Z 8)%Q.
Proof.
  cbv [add_first_bonus company_size_bonus].
  generalize (PyStr.contains text "startup"),
    (PyStr.contains text "enterprise"), (PyStr.contains text "mid-market").
  intros [] [] []; auto.
Qed.

Lemma lead_score_bounds (lead_data : LeadData) :
  (5 <= _calculate_lead_score lead_data)%Q
  /\ (_calculate_lead_score lead_data <= 10)%Q.
Proof.
  unfold _calculate_lead_score.
  set (title := PyStr.lower (get_str (ld_title lead_data))).
  set (size := PyStr.lower (get_str (ld_company_size lead_data))).
  set (industry := PyStr.lower (get_str (ld_industry lead_data))).
  assert (Hmin : forall s : Q, (5 <= s)%Q ->
                 (5 <= py_min s 10)%Q /\ (py_min s 10 <= 10)%Q).
  { intros s Hs. unfold py_min. destruct (Qlt_le_dec 10 s) as [Hlt|Hle].
    - split; [discriminate|apply Qle_refl].
    - split; assumption. }
  apply Hmin.
  destruct (add_on_first_match_cases industry_match industry 3
              (add_first_bonus company_size_bonus size
                 (add_on_first_match title_keywords title 2 5)))
    as [-> | ->];
  destruct (add_first_bonus_cases size
              (add_on_first_match title_keywords title 2 5))
    as [-> | [-> | [-> | ->]]];
  destruct (add_on_first_match_cases title_keywords title 2 5)
    as [-> | ->];
  vm_compute; discriminate.
Qed.

(** X14: every lead score lies between 5 and 10, whatever the
    title, the industry and the company size are (missing or not). *)
Theorem lead_score_range (lead_data : LeadData) :
  (5 <= _calculate_lead_score lead_data)%Q
  /\ (_calculate_lead_score lead_data <= 10)%Q.
Proof. exact (lead_score_bounds lead_data). Qed.

(** ** [find_new_leads] *)

Lemma find_new_leads_unfold env criteria :
  find_new_leads env criteria =
  try_catch
    (new_leads <-
       with_local []
         (for_each (range (criteria_max_leads criteria))
            (find_round env (criteria_titles criteria)
               (criteria_industries criteria)
               (criteria_company_sizes criteria))) ;;
     self_save_state env ;;
     ret new_leads)
    (fun _ => ret []).
Proof. reflexivity. Qed.

Lemma find_round_run env titles industries company_sizes i w acc :
  titles <> [] -> industries <> [] -> company_sizes <> [] ->
  find_round env titles industries company_sizes i (w, acc)
  = (Ok tt,
     (store_mock_lead env titles industries company_sizes w i,
      acc ++ [next_addr w])).
Proof.
  intros Ht Hi Hs.
  destruct titles as [|t0 titles]; [contradiction|].
  destruct industries as [|i0 industries]; [contradiction|].
  destruct company_sizes as [|s0 company_sizes]; [contradiction|].
  reflexivity.
Qed.

Lemma find_round_empty env titles industries company_sizes i w acc :
  titles = [] \/ industries = [] \/ company_sizes = [] ->
  exists e,
    find_round env titles industries company_sizes i (w, acc)
    = (Raise e, (with_clock_reads (S (clock_reads w)) w, acc)).
Proof.
  intros Hempty.
  destruct titles as [|t0 titles]; [eexists; reflexivity|].
  destruct industries as [|i0 industries]; [eexists; reflexivity|].
  destruct company_sizes as [|s0 company_sizes]; [eexists; reflexivity|].
  destruct Hempty as [H|[H|H]]; discriminate H.
Qed.

Lemma find_loop_run env titles industries company_sizes :
  titles <> [] -> industries <> [] -> company_sizes <> [] ->
  forall indices w acc,
    for_each indices (find_round env titles industries company_sizes)
      (w, acc)
    = (Ok tt,
       (fold_left (store_mock_lead env titles industries company_sizes)
                  indices w,
        acc ++ seq (next_addr w) (List.length indices))).
Proof.
  intros Ht Hi Hs indices.
  induction indices as [|i rest IH]; intros w acc.
  - cbn [for_each fold_left List.length seq]. rewrite app_nil_r. reflexivity.
  - cbn [for_each fold_left List.length seq]. unfold bind at 1.
    rewrite find_round_run by assumption. rewrite IH.
    rewrite <- app_assoc. reflexivity.
Qed.

(** *** The ids of the generated leads *)

Lemma of_Z_inj (a b : Z) : PyStr.of_Z a = PyStr.of_Z b -> a = b.
Proof.
  unfold PyStr.of_Z. intros Heq.
  assert (Hnonnil : forall z, Z.to_int z <> Decimal.Pos Decimal.Nil
                              /\ Z.to_int z <> Decimal.Neg Decimal.Nil).
  { intros [|p|p]; split; try discriminate;
      intros H; injection H; apply DecimalPos.Unsigned.to_uint_nonnil. }
  assert (Hint : Some (Z.to_int a) = Some (Z.to_int b)).
  { rewrite <- (NilZero.isi (Z.to_int a)) by apply Hnonnil.
    rewrite <- (NilZero.isi (Z.to_int b)) by apply Hnonnil.
    rewrite Heq. reflexivity. }
  injection Hint as Hint.
  rewrite <- (DecimalZ.of_to a), <- (DecimalZ.of_to b), Hint. reflexivity.
Qed.

Lemma no_underscore_uint d :
  no_underscore (NilEmpty.string_of_uint d) = true.
Proof. induction d; cbn; auto. Qed.

Lemma no_underscore_of_Z (n : Z) : no_underscore (PyStr.of_Z n) = true.
Proof.
  unfold PyStr.of_Z, NilZero.string_of_int, NilZero.string_of_uint.
  destruct (Z.to_int n) as [d|d]; destruct d;
    try reflexivity;
    try (change (no_underscore
                   (NilEmpty.string_of_uint (Decimal.D0 d)) = true);
         apply no_underscore_uint).
  all: cbn [no_underscore Ascii.eqb Bool.eqb negb andb
            NilEmpty.string_of_uint];
    apply no_underscore_uint.
Qed.

Lemma split_at_underscore (a b x y : string) :
  no_underscore a = true -> no_underscore b = true ->
  (a ++ String "_" x = b ++ String "_" y)%string -> a = b /\ x = y.
Proof.
  revert b. induction a as [|c a IH]; intros [|c' b] Ha Hb Heq.
  - cbn in Heq. injection Heq as Heq. auto.
  - cbn in Heq, Hb. injection Heq as Hc Heq. subst c'. discriminate Hb.
  - cbn in Heq, Ha. injection Heq as Hc Heq. subst c. discriminate Ha.
  - cbn [append] in Heq. injection Heq as Hc Heq.
    cbn [no_underscore] in Ha, Hb.
    apply andb_prop in Ha. apply andb_prop in Hb.
    destruct (IH b (proj2 Ha) (proj2 Hb) Heq) as [-> ->].
    subst c'. auto.
Qed.

Lemma mock_lead_id_inj env titles industries company_sizes r r' i i' :
  Lead.id (mock_lead env titles industries company_sizes r i)
  = Lead.id (mock_lead env titles industries company_sizes r' i')
  -> i = i'.
Proof.
  cbn [mock_lead Lead.id]. intros Heq.
  change ("lead_" ++ ?x)%string
    with (String "l" (String "e" (String "a" (String "d" (String "_" x)))))
    in Heq.
  injection Heq as Heq.
  change ("_" ++ ?x)%string with (String "_" x) in Heq.
  apply split_at_underscore in Heq; try apply no_underscore_of_Z.
  apply of_Z_inj. apply Heq.
Qed.

(** *** The state after the rounds of [find_new_leads] *)

Section MockRounds.
Variable env : Env.
Variables titles industries company_sizes : list string.

Let store := store_mock_lead env titles industries company_sizes.
Let lead_of := mock_lead env titles industries company_sizes.

Lemma store_fold_frame indices : forall w,
  let w' := fold_left store indices w in
  session_id w' = session_id w
  /\ metrics w' = metrics w
  /\ lead_scanner w' = lead_scanner w
  /\ outreach_composer w' = outreach_composer w
  /\ redis_client w' = redis_client w
  /\ prospects_pipeline w' = prospects_pipeline w
  /\ meetings_scheduled w' = meetings_scheduled w
  /\ next_addr w' = (next_addr w + List.length indices)%nat
  /\ clock_reads w' = (clock_reads w + 2 * List.length indices)%nat.
Proof.
  induction indices as [|i rest IH]; intros w.
  - cbn. repeat split; lia.
  - cbn [fold_left List.length]. specialize (IH (store w i)).
    cbv zeta in *.
    destruct IH as (H1 & H2 & H3 & H4 & H5 & H6 & H7 & H8 & H9).
    rewrite H1, H2, H3, H4, H5, H6, H7, H8, H9.
    cbn. repeat split; lia.
Qed.

Lemma store_fold_old_heap indices : forall w a,
  (a < next_addr w)%nat ->
  heap (fold_left store indices w) a = heap w a.
Proof.
  induction indices as [|i rest IH]; intros w a Hold; [reflexivity|].
  cbn [fold_left]. rewrite IH by (cbn; lia). cbn.
  destruct (Nat.eqb_spec a (next_addr w)); [lia|reflexivity].
Qed.

Lemma store_fold_new_heap indices : forall w k,
  (k < List.length indices)%nat ->
  heap (fold_left store indices w) (next_addr w + k)%nat
  = lead_of (clock_reads w + 2 * k)%nat (nth k indices 0%Z).
Proof.
  induction indices as [|i rest IH]; intros w k Hk; [cbn in Hk; lia|].
  cbn [fold_left]. destruct k as [|k].
  - rewrite store_fold_old_heap by (cbn; lia).
    rewrite !Nat.add_0_r. cbn [store store_mock_lead heap].
    rewrite Nat.eqb_refl. reflexivity.
  - cbn [List.length] in Hk.
    replace (next_addr w + S k)%nat with (next_addr (store w i) + k)%nat
      by (cbn; lia).
    rewrite IH by lia. cbn [nth]. f_equal. cbn. lia.
Qed.

Lemma store_fold_wf indices : forall w,
  PyDict.wf (leads_database w) ->
  PyDict.wf (leads_database (fold_left store indices w)).
Proof.
  induction indices as [|i rest IH]; intros w Hwf; [exact Hwf|].
  cbn [fold_left]. apply IH. cbn. apply wf_set. exact Hwf.
Qed.

Lemma store_fold_mem indices key : forall w,
  PyDict.mem key (leads_database w) = true ->
  PyDict.mem key (leads_database (fold_left store indices w)) = true.
Proof.
  induction indices as [|i rest IH]; intros w Hmem; [exact Hmem|].
  cbn [fold_left]. apply IH. cbn. apply mem_set_mono. exact Hmem.
Qed.

Lemma store_fold_get_other indices key : forall w,
  (forall i r, In i indices -> Lead.id (lead_of r i) <> key) ->
  PyDict.get key (leads_database (fold_left store indices w))
  = PyDict.get key (leads_database w).
Proof.
  induction indices as [|i rest IH]; intros w Hother; [reflexivity|].
  cbn [fold_left]. rewrite IH by (intros; apply Hother; right; assumption).
  cbn [store store_mock_lead leads_database].
  apply get_set_other. apply Hother. left. reflexivity.
Qed.

Lemma store_fold_get_new indices : forall w k,
  NoDup indices ->
  (k < List.length indices)%nat ->
  PyDict.get
    (Lead.id (lead_of (clock_reads w + 2 * k)%nat (nth k indices 0%Z)))
    (leads_database (fold_left store indices w))
  = Some (next_addr w + k)%nat.
Proof.
  induction indices as [|i rest IH]; intros w k Hnodup Hk;
    [cbn in Hk; lia|].
  inversion Hnodup as [|? ? Hnotin Hnodup']; subst.
  cbn [fold_left]. destruct k as [|k].
  - cbn [nth]. rewrite store_fold_get_other.
    + rewrite !Nat.add_0_r. cbn [store store_mock_lead leads_database].
      apply get_set_same.
    + intros i' r Hin Heq. apply mock_lead_id_inj in Heq. subst i'.
      contradiction.
  - cbn [List.length] in Hk. cbn [nth].
    replace (clock_reads w + 2 * S k)%nat
      with (clock_reads (store w i) + 2 * k)%nat by (cbn; lia).
    rewrite IH by (assumption || lia). f_equal. cbn. lia.
Qed.

End MockRounds.

(** *** What a call of [find_new_leads] does *)

Lemma range_length n : List.length (range n) = Z.to_nat n.
Proof. unfold range. rewrite length_map, length_seq. reflexivity. Qed.

Lemma range_NoDup n : NoDup (range n).
Proof.
  unfold range. generalize (seq_NoDup (Z.to_nat n) 0).
  generalize (seq 0 (Z.to_nat n)). intros l Hl.
  induction Hl as [|x l Hnotin Hl IH]; cbn [map]; constructor; [|exact IH].
  rewrite in_map_iff. intros (y & Heq & Hin).
  apply Nat2Z.inj in Heq. subst y. contradiction.
Qed.

Lemma mock_lead_fresh env titles industries company_sizes r i :
  fresh_mock_lead (mock_lead env titles industries company_sizes r i).
Proof.
  unfold fresh_mock_lead, mock_lead. cbn [Lead.source Lead.status
    Lead.contact_attempts Lead.last_contacted Lead.notes Lead.score].
  repeat (split; [reflexivity|]). apply lead_score_bounds.
Qed.

Lemma find_new_leads_run env criteria w :
  criteria_titles criteria <> [] ->
  criteria_industries criteria <> [] ->
  criteria_company_sizes criteria <> [] ->
  let w' :=
    fold_left
      (store_mock_lead env (criteria_titles criteria)
         (criteria_industries criteria) (criteria_company_sizes criteria))
      (range (criteria_max_leads criteria)) w in
  find_new_leads env criteria w
  = (Ok (match save_state env w' with
         | None => seq (next_addr w) (Z.to_nat (criteria_max_leads criteria))
         | Some _ => []
         end), w').
Proof.
  intros Ht Hi Hs w'. rewrite find_new_leads_unfold.
  unfold try_catch, bind, with_local.
  rewrite find_loop_run by assumption. cbn [fst snd app].
  rewrite range_length. fold w'. unfold self_save_state, ret.
  destruct (save_state env w'); reflexivity.
Qed.

(** X15: when the three selection lists are not empty,
    [find_new_leads] creates [max_leads] new lead objects (none for a
    count of 0 or less), each of them fresh ([new], no contact attempt, a
    score within 5 and 10) and stored in the lead database under its own id.
    The lead objects that existed before are untouched, no key of the
    database is lost, and the metrics, the prospects and the meetings stay.
    The created leads are returned if [save_state] succeeds; if it raises,
    the result is the empty list although the leads have been stored. *)
Theorem find_new_leads_stores (env : Env) (criteria : Criteria) (w : World) :
  criteria_titles criteria <> [] ->
  criteria_industries criteria <> [] ->
  criteria_company_sizes criteria <> [] ->
  exists created w',
    find_new_leads env criteria w
    = (Ok (match save_state env w' with
           | None => created
           | Some _ => []
           end), w')
    /\ List.length created = Z.to_nat (criteria_max_leads criteria)
    /\ NoDup created
    /\ (forall a, In a created ->
          (next_addr w <= a)%nat
          /\ fresh_mock_lead (heap w' a)
          /\ PyDict.get (Lead.id (heap w' a)) (leads_database w') = Some a)
    /\ (forall a, (a < next_addr w)%nat -> heap w' a = heap w a)
    /\ (forall key, PyDict.mem key (leads_database w) = true ->
          PyDict.mem key (leads_database w') = true)
    /\ metrics w' = metrics w
    /\ prospects_pipeline w' = prospects_pipeline w
    /\ meetings_scheduled w' = meetings_scheduled w.
Proof.
  intros Ht Hi Hs.
  pose proof (find_new_leads_run env criteria w Ht Hi Hs) as Hrun.
  cbv zeta in Hrun.
  set (n := Z.to_nat (criteria_max_leads criteria)) in *.
  set (store := store_mock_lead env (criteria_titles criteria)
                  (criteria_industries criteria)
                  (criteria_company_sizes criteria)) in *.
  set (w' := fold_left store (range (criteria_max_leads criteria)) w) in *.
  exists (seq (next_addr w) n), w'.
  split; [exact Hrun|]. split; [apply length_seq|].
  split; [apply seq_NoDup|].
  pose proof (store_fold_frame env (criteria_titles criteria)
                (criteria_industries criteria)
                (criteria_company_sizes criteria)
                (range (criteria_max_leads criteria)) w) as Hframe.
  cbv zeta in Hframe. fold store in Hframe. fold w' in Hframe.
  destruct Hframe as (_ & Hm & _ & _ & _ & Hp & Hmeet & _ & _).
  split; [|split; [|split; [|repeat split; assumption]]].
  - intros a Hin. apply in_seq in Hin.
    assert (Hk : exists k, a = (next_addr w + k)%nat /\ (k < n)%nat).
    { exists (a - next_addr w)%nat. lia. }
    destruct Hk as (k & -> & Hk).
    split; [lia|].
    unfold w', store.
    rewrite store_fold_new_heap by (rewrite range_length; exact Hk).
    split; [apply mock_lead_fresh|].
    apply store_fold_get_new;
      [apply range_NoDup | rewrite range_length; exact Hk].
  - intros a Hold. apply store_fold_old_heap. exact Hold.
  - intros key Hmem. apply store_fold_mem. exact Hmem.
Qed.

Lemma find_new_leads_stores_witness :
  exists created w',
    find_new_leads failing_save_env empty_criteria empty_world
    = (Ok (match save_state failing_save_env w' with
           | None => created
           | Some _ => []
           end), w')
    /\ List.length created = Z.to_nat (criteria_max_leads empty_criteria)
    /\ NoDup created
    /\ (forall a, In a created ->
          (next_addr empty_world <= a)%nat
          /\ fresh_mock_lead (heap w' a)
          /\ PyDict.get (Lead.id (heap w' a)) (leads_database w') = Some a)
    /\ (forall a, (a < next_addr empty_world)%nat ->
          heap w' a = heap empty_world a)
    /\ (forall key, PyDict.mem key (leads_database empty_world) = true ->
          PyDict.mem key (leads_database w') = true)
    /\ metrics w' = metrics empty_world
    /\ prospects_pipeline w' = prospects_pipeline empty_world
    /\ meetings_scheduled w' = meetings_scheduled empty_world.
Proof.
  apply (find_new_leads_stores failing_save_env empty_criteria empty_world);
    discriminate.
Defined.

(** X16: when one of the three selection lists is given
    empty and at least one lead is asked for, [find_new_leads] fails on the
    first lead: it returns the empty list, stores nothing and does not call
    [save_state]; of the department only the clock has been read once. *)
Theorem find_new_leads_empty_choice (env : Env) (criteria : Criteria)
    (w : World) :
  criteria_titles criteria = [] \/ criteria_industries criteria = []
    \/ criteria_company_sizes criteria = [] ->
  (0 < criteria_max_leads criteria)%Z ->
  find_new_leads env criteria w
  = (Ok [], with_clock_reads (S (clock_reads w)) w).
Proof.
  intros Hempty Hpos. rewrite find_new_leads_unfold.
  unfold range.
  destruct (Z.to_nat (criteria_max_leads criteria)) as [|n] eqn:Hn; [lia|].
  cbn [seq map for_each].
  destruct (find_round_empty env _ _ _ (Z.of_nat 0) w [] Hempty)
    as (e & Hround).
  unfold try_catch, bind, with_local. rewrite Hround. reflexivity.
Qed.

Lemma find_new_leads_empty_choice_witness :
  find_new_leads sample_env
    {| cr_titles := Some ["CEO"]; cr_industries := Some [];
       cr_company_sizes := None; cr_max_leads := Some 3%Z |}
    empty_world
  = (Ok [], with_clock_reads 1 empty_world).
Proof.
  apply (find_new_leads_empty_choice sample_env
           {| cr_titles := Some ["CEO"]; cr_industries := Some [];
              cr_company_sizes := None; cr_max_leads := Some 3%Z |}
           empty_world).
  - right. left. reflexivity.
  - reflexivity.
Defined.

(** ** The lead generation workflow *)

Lemma lead_generation_scan_run (env : Env) (config : Config) (w : World)
    (scanner : LeadScannerAgent) (leads : list ScannedLead) :
  lead_scanner w = Some scanner ->
  scan_for_leads scanner (scan_criteria_of config) = Ok leads ->
  exists envelope w',
    _execute_lead_generation_workflow env config w = (Ok envelope, w')
    /\ Envelope.success envelope = Some true
    /\ Envelope.leads_found envelope = Some (len leads)
    /\ Envelope.payload envelope = LeadsPayload (firstn 10 leads)
    /\ Envelope.metrics envelope = Some (metrics w')
    /\ DepartmentMetrics.leads_generated (metrics w')
       = (DepartmentMetrics.leads_generated (metrics w) + len leads)%Z
    /\ DepartmentMetrics.total_workflows_executed (metrics w')
       = (DepartmentMetrics.total_workflows_executed (metrics w) + 1)%Z
    /\ same_store w w'
    /\ clock_reads w' = (3 + clock_reads w)%nat.
Proof.
  intros Hscanner Hscan.
  unfold _execute_lead_generation_workflow, now, utcnow.
  unfold bind at 1. cbn [fst snd].
  unfold try_catch, bind at 1, gets.
  cbn [fst snd lead_scanner with_clock_reads].
  rewrite Hscanner. fold (scan_criteria_of config). rewrite Hscan.
  unfold bind at 1, lift_result.
  unfold bind at 1. rewrite checkpoint_leads_noop.
  unfold bind, update_metrics_field, modify, gets, ret, truediv_float.
  cbn [fst snd metrics with_metrics clock_reads with_clock_reads
       DepartmentMetrics.total_workflows_executed
       DepartmentMetrics.with_leads_generated
       DepartmentMetrics.with_total_workflows_executed
       DepartmentMetrics.with_last_execution
       DepartmentMetrics.average_execution_time].
  destruct (Z.ltb_spec 0
              (DepartmentMetrics.total_workflows_executed (metrics w) + 1))
    as [Hpos|Hneg].
  - rewrite inject_Z_nonzero by lia.
    do 2 eexists. split; [reflexivity|]. cbn. repeat split; reflexivity.
  - do 2 eexists. split; [reflexivity|]. cbn. repeat split; reflexivity.
Qed.

(** X17: with a scanner that answers, the lead generation
    workflow reports the number of scanned leads and at most the first ten
    of them, adds that number to [leads_generated] and counts the run; the
    envelope carries the metrics as they are after the run. The scanned
    leads are not put into the lead database: the lead objects, the three
    tables and the agents are left as they were, whether or not the Redis
    checkpoint works. *)
Theorem lead_generation_scan (env : Env) (config : Config) (w : World)
    (scanner : LeadScannerAgent) (leads : list ScannedLead) :
  lead_scanner w = Some scanner ->
  scan_for_leads scanner (scan_criteria_of config) = Ok leads ->
  exists envelope w',
    _execute_lead_generation_workflow env config w = (Ok envelope, w')
    /\ Envelope.success envelope = Some true
    /\ Envelope.leads_found envelope = Some (len leads)
    /\ Envelope.payload envelope = LeadsPayload (firstn 10 leads)
    /\ Envelope.metrics envelope = Some (metrics w')
    /\ DepartmentMetrics.leads_generated (metrics w')
       = (DepartmentMetrics.leads_generated (metrics w) + len leads)%Z
    /\ DepartmentMetrics.total_workflows_executed (metrics w')
       = (DepartmentMetrics.total_workflows_executed (metrics w) + 1)%Z
    /\ same_store w w'
    /\ clock_reads w' = (3 + clock_reads w)%nat.
Proof.
  intros Hscanner Hscan.
  exact (lead_generation_scan_run env config w scanner leads Hscanner
           Hscan).
Qed.

Lemma lead_generation_scan_witness :
  exists envelope w',
    _execute_lead_generation_workflow sample_env empty_config
      world_with_agents = (Ok envelope, w')
    /\ Envelope.success envelope = Some true
    /\ Envelope.leads_found envelope = Some (len [sample_scanned_lead])
    /\ Envelope.payload envelope
       = LeadsPayload (firstn 10 [sample_scanned_lead])
    /\ Envelope.metrics envelope = Some (metrics w')
    /\ DepartmentMetrics.leads_generated (metrics w')
       = (DepartmentMetrics.leads_generated (metrics world_with_agents)
          + len [sample_scanned_lead])%Z
    /\ DepartmentMetrics.total_workflows_executed (metrics w')
       = (DepartmentMetrics.total_workflows_executed
            (metrics world_with_agents) + 1)%Z
    /\ same_store world_with_agents w'
    /\ clock_reads w' = (3 + clock_reads world_with_agents)%nat.
Proof.
  apply (lead_generation_scan sample_env empty_config world_with_agents
           sample_scanner [sample_scanned_lead]); reflexivity.
Defined.

(** X18: when the scanner raises, the lead generation
    workflow returns an unsuccessful envelope with the message of the
    exception and the time spent; the run is not counted and nothing of the
    department changes but the two readings of the clock. *)
Theorem lead_generation_scan_failure (env : Env) (config : Config)
    (w : World) (scanner : LeadScannerAgent) (e : exn) :
  lead_scanner w = Some scanner ->
  scan_for_leads scanner (scan_criteria_of config) = Raise e ->
  _execute_lead_generation_workflow env config w
  = (Ok (Envelope.workflow_failure (exn_msg e) "lead_generation"
           (Some (total_seconds (clock env (S (clock_reads w))
                                 - clock env (clock_reads w))))),
     with_clock_reads (2 + clock_reads w) w).
Proof.
  intros Hscanner Hscan.
  unfold _execute_lead_generation_workflow, now, utcnow.
  unfold bind at 1. cbn [fst snd].
  unfold try_catch, bind at 1, gets.
  cbn [fst snd lead_scanner with_clock_reads].
  rewrite Hscanner. fold (scan_criteria_of config). rewrite Hscan.
  unfold bind at 1, lift_result. unfold bind, ret. cbn [fst snd].
  reflexivity.
Qed.

Lemma lead_generation_scan_failure_witness :
  _execute_lead_generation_workflow sample_env empty_config
    world_with_failing_scanner
  = (Ok (Envelope.workflow_failure "scan timed out" "lead_generation"
           (Some (total_seconds (clock sample_env 1 - clock sample_env 0)))),
     with_clock_reads 2 world_with_failing_scanner).
Proof.
  apply (lead_generation_scan_failure sample_env empty_config
           world_with_failing_scanner
           {| scan_for_leads := fun _ =>
                Raise {| exn_type := "TimeoutError";
                         exn_msg := "scan timed out" |} |}
           {| exn_type := "TimeoutError"; exn_msg := "scan timed out" |});
    reflexivity.
Defined.

Lemma keeps_new_lead_field {X} (proj : World -> X) l :
  (forall h a w, proj (with_next_addr a (with_heap h w)) = proj w) ->
  keeps proj (new_lead l).
Proof. intros H w. apply H. Qed.

Lemma find_new_leads_keeps {X} (proj : World -> X) env criteria :
  (forall n w, proj (with_clock_reads n w) = proj w) ->
  (forall h a w, proj (with_next_addr a (with_heap h w)) = proj w) ->
  (forall d w, proj (with_leads_database d w) = proj w) ->
  keeps proj (find_new_leads env criteria).
Proof.
  intros Hclock Hheap Hdb. rewrite find_new_leads_unfold.
  unfold find_round, cycle_index. cbv zeta.
  repeat first
    [ apply keeps_ret
    | apply keeps_raise
    | apply keeps_utcnow_field; exact Hclock
    | apply keeps_new_lead_field; exact Hheap
    | apply keeps_save_state_field
    | apply keeps_on_local
    | apply keeps_on_self
    | apply keeps_with_local
    | apply keeps_modify; intros ?; apply Hdb
    | apply keeps_bind; [|intros ?]
    | apply keeps_try_catch; [|intros ?]
    | apply keeps_for_each; intros ?
    | match goal with
      | |- keeps _ (match ?x with _ => _ end) => destruct x
      end ].
Qed.

Lemma find_new_leads_ok env criteria w :
  exists leads w', find_new_leads env criteria w = (Ok leads, w').
Proof.
  rewrite find_new_leads_unfold. unfold try_catch.
  match goal with
  | |- context [match ?c with _ => _ end] => destruct c as [[leads|e] w']
  end; eexists _, _; reflexivity.
Qed.

(** X19: without a scanner the lead generation workflow falls
    back to [find_new_leads] (by default 20 leads for CEO, CTO and VP
    Engineering). Its envelope always says success and gives the number of
    leads that [find_new_leads] returned, which is 0 when that call failed;
    it carries no execution time and no metrics, and the run is not counted:
    the metrics, the prospects and the meetings are as before. *)
Theorem lead_generation_without_scanner (env : Env) (config : Config)
    (w : World) :
  lead_scanner w = None ->
  exists leads w',
    find_new_leads env (mock_criteria_of config)
      (with_clock_reads (S (clock_reads w)) w) = (Ok leads, w')
    /\ _execute_lead_generation_workflow env config w
       = (Ok (Envelope.mk (Some true) (Some "lead_generation") None
                (Some (len leads)) None None None None
                [("note", "Using mock implementation")]
                (MockLeadsPayload
                   (map (fun lead =>
                           {| mp_id := Lead.id (heap w' lead);
                              mp_name := Lead.name (heap w' lead);
                              mp_company := Lead.company (heap w' lead);
                              mp_score := Lead.score (heap w' lead) |})
                        leads))), w')
    /\ metrics w' = metrics w
    /\ prospects_pipeline w' = prospects_pipeline w
    /\ meetings_scheduled w' = meetings_scheduled w.
Proof.
  intros Hscanner.
  destruct (find_new_leads_ok env (mock_criteria_of config)
              (with_clock_reads (S (clock_reads w)) w))
    as (leads & w' & Hfind).
  exists leads, w'. split; [exact Hfind|]. split.
  - unfold _execute_lead_generation_workflow, now, utcnow.
    unfold bind at 1. cbn [fst snd].
    unfold try_catch, bind at 1, gets.
    cbn [fst snd lead_scanner with_clock_reads].
    rewrite Hscanner. unfold _execute_lead_generation_mock.
    fold (mock_criteria_of config). unfold bind at 1. rewrite Hfind.
    reflexivity.
  - pose proof (find_new_leads_keeps metrics env (mock_criteria_of config)
                  (fun _ _ => eq_refl) (fun _ _ _ => eq_refl)
                  (fun _ _ => eq_refl)
                  (with_clock_reads (S (clock_reads w)) w)) as Hm.
    pose proof (find_new_leads_keeps prospects_pipeline env
                  (mock_criteria_of config)
                  (fun _ _ => eq_refl) (fun _ _ _ => eq_refl)
                  (fun _ _ => eq_refl)
                  (with_clock_reads (S (clock_reads w)) w)) as Hp.
    pose proof (find_new_leads_keeps meetings_scheduled env
                  (mock_criteria_of config)
                  (fun _ _ => eq_refl) (fun _ _ _ => eq_refl)
                  (fun _ _ => eq_refl)
                  (with_clock_reads (S (clock_reads w)) w)) as Hmeet.
    rewrite Hfind in Hm, Hp, Hmeet. cbn [snd] in Hm, Hp, Hmeet.
    repeat split; assumption.
Qed.

Lemma lead_generation_without_scanner_witness :
  exists leads w',
    find_new_leads failing_save_env (mock_criteria_of empty_config)
      (with_clock_reads (S (clock_reads empty_world)) empty_world)
    = (Ok leads, w')
    /\ _execute_lead_generation_workflow failing_save_env empty_config
         empty_world
       = (Ok (Envelope.mk (Some true) (Some "lead_generation") None
                (Some (len leads)) None None None None
                [("note", "Using mock implementation")]
                (MockLeadsPayload
                   (map (fun lead =>
                           {| mp_id := Lead.id (heap w' lead);
                              mp_name := Lead.name (heap w' lead);
                              mp_company := Lead.company (heap w' lead);
                              mp_score := Lead.score (heap w' lead) |})
                        leads))), w')
    /\ metrics w' = metrics empty_world
    /\ prospects_pipeline w' = prospects_pipeline empty_world
    /\ meetings_scheduled w' = meetings_scheduled empty_world.
Proof.
  apply (lead_generation_without_scanner failing_save_env empty_config
           empty_world).
  reflexivity.
Defined.

(** ** The quick wins workflow *)

Lemma same_store_refl w : same_store w w.
Proof. unfold same_store. repeat split; reflexivity. Qed.

Lemma quick_wins_loop_run composer outreach_config leads : forall w acc,
  exists w',
    for_each leads (quick_wins_round composer outreach_config) (w, acc)
    = (Ok tt, (w', acc ++ quick_wins_of composer outreach_config leads))
    /\ counts_messages
         (len (quick_wins_of composer outreach_config leads)) w w'.
Proof.
  induction leads as [|lead rest IH]; intros w acc.
  - exists w. cbn [for_each quick_wins_of flat_map]. rewrite app_nil_r.
    split; [reflexivity|]. unfold counts_messages.
    split; [apply same_store_refl|]. split; [reflexivity|].
    split; [cbn; lia|reflexivity].
  - cbn [for_each quick_wins_of flat_map]. unfold bind at 1.
    unfold quick_wins_round at 1, try_catch, bind, lift_result.
    destruct (compose_outreach composer lead outreach_config)
      as [message|e].
    + cbn [fst snd on_local on_self update_metrics_field modify].
      match goal with
      | |- context [for_each rest _ (?w1, ?acc1)] =>
          destruct (IH w1 acc1) as (w' & Hrun & Hcount)
      end.
      exists w'. split.
      * rewrite Hrun. rewrite <- app_assoc. reflexivity.
      * destruct Hcount as (Hstore & Hclock & Hmc & Hrest).
        unfold counts_messages, same_store in *. cbn in Hstore, Hclock, Hmc.
        split; [exact Hstore|]. split; [exact Hclock|]. split.
        -- rewrite Hmc. unfold len. rewrite length_app. cbn [List.length].
           fold (quick_wins_of composer outreach_config rest). lia.
        -- intros v. rewrite Hrest. reflexivity.
    + cbn [fst snd ret app].
      destruct (IH w acc) as (w' & Hrun & Hcount).
      exists w'. split; assumption.
Qed.

Lemma quick_wins_of_length composer outreach_config leads :
  (len (quick_wins_of composer outreach_config leads) <= len leads)%Z.
Proof.
  unfold len. apply inj_le.
  induction leads as [|lead rest IH]; [cbn; lia|].
  cbn [quick_wins_of flat_map]. rewrite length_app.
  fold (quick_wins_of composer outreach_config rest). cbn [List.length].
  destruct (compose_outreach composer lead outreach_config);
    cbn [List.length]; lia.
Qed.

(** X20: when the scan of the quick wins workflow finds leads, a
    message is composed for each of them with the formal tone; a lead whose
    composition fails is skipped without stopping the others. The envelope
    lists the composed entries in the order of the leads and gives their
    number as [messages_generated], which is at most [leads_found]. The
    metrics count every composed message, every scanned lead as qualified
    and the run; [leads_generated] and everything else of the department
    stay. *)
Theorem quick_wins_accounting (env : Env) (config : Config) (w : World)
    (scanner : LeadScannerAgent) (composer : OutreachComposerAgent)
    (lead : ScannedLead) (leads : list ScannedLead) :
  lead_scanner w = Some scanner ->
  outreach_composer w = Some composer ->
  scan_for_leads scanner (quick_wins_criteria config) = Ok (lead :: leads) ->
  let wins :=
    quick_wins_of composer (sender_config config FORMAL "deep")
      (lead :: leads) in
  exists envelope w',
    _execute_quick_wins_workflow env config w = (Ok envelope, w')
    /\ Envelope.success envelope = Some true
    /\ Envelope.leads_found envelope = Some (len (lead :: leads))
    /\ Envelope.messages_generated envelope = Some (len wins)
    /\ Envelope.payload envelope = QuickWinsPayload wins
    /\ Envelope.metrics envelope = Some (metrics w')
    /\ (len wins <= len (lead :: leads))%Z
    /\ DepartmentMetrics.messages_composed (metrics w')
       = (DepartmentMetrics.messages_composed (metrics w) + len wins)%Z
    /\ DepartmentMetrics.leads_qualified (metrics w')
       = (DepartmentMetrics.leads_qualified (metrics w)
          + len (lead :: leads))%Z
    /\ DepartmentMetrics.total_workflows_executed (metrics w')
       = (DepartmentMetrics.total_workflows_executed (metrics w) + 1)%Z
    /\ DepartmentMetrics.leads_generated (metrics w')
       = DepartmentMetrics.leads_generated (metrics w)
    /\ same_store w w'.
Proof.
  intros Hscanner Hcomposer Hscan wins.
  unfold _execute_quick_wins_workflow, now, utcnow.
  unfold bind at 1. cbn [fst snd].
  unfold try_catch, bind at 1, gets.
  cbn [fst snd lead_scanner outreach_composer with_clock_reads].
  rewrite Hscanner, Hcomposer. fold (quick_wins_criteria config).
  rewrite Hscan. unfold bind at 1, lift_result. cbn [fst snd].
  unfold bind at 1, with_local.
  destruct (quick_wins_loop_run composer
              (sender_config config FORMAL "deep") (lead :: leads)
              (with_clock_reads (S (clock_reads w)) w) [])
    as (w1 & Hloop & Hstore & Hclock & Hmc & Hrest).
  change (for_each (lead :: leads) _ (?s, []))
    with (for_each (lead :: leads)
            (quick_wins_round composer (sender_config config FORMAL "deep"))
            (s, [])).
  rewrite Hloop. cbn [fst snd app]. fold wins.
  unfold bind, update_metrics_field, modify, gets, ret.
  cbn [fst snd]. do 2 eexists. split; [reflexivity|].
  cbn [Envelope.success Envelope.leads_found Envelope.messages_generated
       Envelope.payload Envelope.metrics].
  repeat (split; [reflexivity|]).
  split; [apply quick_wins_of_length|].
  pose proof (Hrest 0%Z) as Hzero.
  unfold same_store in *. cbn in Hstore, Hclock, Hmc |- *.
  split; [exact Hmc|].
  split; [f_equal;
          exact (f_equal DepartmentMetrics.leads_qualified Hzero)|].
  split; [f_equal;
          exact (f_equal DepartmentMetrics.total_workflows_executed Hzero)|].
  split; [exact (f_equal DepartmentMetrics.leads_generated Hzero)|].
  exact Hstore.
Qed.

Lemma quick_wins_accounting_witness :
  let wins :=
    quick_wins_of sample_composer (sender_config empty_config FORMAL "deep")
      [sample_scanned_lead] in
  exists envelope w',
    _execute_quick_wins_workflow sample_env empty_config world_with_agents
    = (Ok envelope, w')
    /\ Envelope.success envelope = Some true
    /\ Envelope.leads_found envelope = Some (len [sample_scanned_lead])
    /\ Envelope.messages_generated envelope = Some (len wins)
    /\ Envelope.payload envelope = QuickWinsPayload wins
    /\ Envelope.metrics envelope = Some (metrics w')
    /\ (len wins <= len [sample_scanned_lead])%Z
    /\ DepartmentMetrics.messages_composed (metrics w')
       = (DepartmentMetrics.messages_composed (metrics world_with_agents)
          + len wins)%Z
    /\ DepartmentMetrics.leads_qualified (metrics w')
       = (DepartmentMetrics.leads_qualified (metrics world_with_agents)
          + len [sample_scanned_lead])%Z
    /\ DepartmentMetrics.total_workflows_executed (metrics w')
       = (DepartmentMetrics.total_workflows_executed
            (metrics world_with_agents) + 1)%Z
    /\ DepartmentMetrics.leads_generated (metrics w')
       = DepartmentMetrics.leads_generated (metrics world_with_agents)
    /\ same_store world_with_agents w'.
Proof.
  apply (quick_wins_accounting sample_env empty_config world_with_agents
           sample_scanner sample_composer sample_scanned_lead []);
    reflexivity.
Defined.

(** ** The outreach workflows on their short paths *)

(** X21: when the scanner or the composer is missing, the
    quick wins and the full outreach workflows answer with an unsuccessful
    envelope without an execution time; the run is not counted and only the
    clock has been read, once. *)
Theorem outreach_without_agents (env : Env) (config : Config) (w : World) :
  lead_scanner w = None \/ outreach_composer w = None ->
  _execute_quick_wins_workflow env config w
  = (Ok (Envelope.workflow_failure "Real agents not available" "quick_wins"
           None),
     with_clock_reads (S (clock_reads w)) w)
  /\ _execute_full_outreach_workflow env config w
     = (Ok (Envelope.workflow_failure "Real agents not available"
              "full_outreach" None),
        with_clock_reads (S (clock_reads w)) w).
Proof.
  intros Hmissing.
  unfold _execute_quick_wins_workflow, _execute_full_outreach_workflow, now,
    utcnow.
  unfold bind at 1 3. cbn [fst snd].
  unfold try_catch, bind, gets.
  cbn [fst snd lead_scanner outreach_composer with_clock_reads].
  destruct Hmissing as [-> | ->].
  - split; reflexivity.
  - destruct (lead_scanner w); split; reflexivity.
Qed.

Lemma outreach_without_agents_witness :
  _execute_quick_wins_workflow sample_env empty_config empty_world
  = (Ok (Envelope.workflow_failure "Real agents not available" "quick_wins"
           None),
     with_clock_reads (S (clock_reads empty_world)) empty_world)
  /\ _execute_full_outreach_workflow sample_env empty_config empty_world
     = (Ok (Envelope.workflow_failure "Real agents not available"
              "full_outreach" None),
        with_clock_reads (S (clock_reads empty_world)) empty_world).
Proof.
  apply (outreach_without_agents sample_env empty_config empty_world).
  left. reflexivity.
Defined.

(** X22: when the scan finds no lead, both outreach
    workflows report success with [leads_found] 0 and the time spent. The
    run is not counted in the metrics, the composer is not called and the
    message tone of the request is not looked at; only the clock has been
    read, twice. *)
Theorem outreach_empty_scan (env : Env) (config : Config) (w : World)
    (scanner : LeadScannerAgent) (composer : OutreachComposerAgent) :
  lead_scanner w = Some scanner ->
  outreach_composer w = Some composer ->
  (forall criteria, scan_for_leads scanner criteria = Ok []) ->
  let spent :=
    total_seconds (clock env (S (clock_reads w))
                   - clock env (clock_reads w)) in
  _execute_quick_wins_workflow env config w
  = (Ok (Envelope.mk (Some true) (Some "quick_wins") None (Some 0%Z) None
           (Some spent) None None
           [("message",
             "No high-quality leads found with current criteria")]
           NoPayload),
     with_clock_reads (2 + clock_reads w) w)
  /\ _execute_full_outreach_workflow env config w
     = (Ok (Envelope.mk (Some true) (Some "full_outreach") None (Some 0%Z)
              None (Some spent) None None
              [("message", "No qualifying leads found")] NoPayload),
        with_clock_reads (2 + clock_reads w) w).
Proof.
  intros Hscanner Hcomposer Hscan spent.
  unfold _execute_quick_wins_workflow, _execute_full_outreach_workflow, now,
    utcnow.
  unfold bind at 1 3. cbn [fst snd].
  unfold try_catch, bind, gets, lift_result.
  cbn [fst snd lead_scanner outreach_composer with_clock_reads].
  rewrite Hscanner, Hcomposer, !Hscan. split; reflexivity.
Qed.

Lemma outreach_empty_scan_witness :
  let spent :=
    total_seconds (clock sample_env 1 - clock sample_env 0) in
  _execute_quick_wins_workflow sample_env (config_tone "rude")
    world_with_idle_scanner
  = (Ok (Envelope.mk (Some true) (Some "quick_wins") None (Some 0%Z) None
           (Some spent) None None
           [("message",
             "No high-quality leads found with current criteria")]
           NoPayload),
     with_clock_reads 2 world_with_idle_scanner)
  /\ _execute_full_outreach_workflow sample_env (config_tone "rude")
       world_with_idle_scanner
     = (Ok (Envelope.mk (Some true) (Some "full_outreach") None (Some 0%Z)
              None (Some spent) None None
              [("message", "No qualifying leads found")] NoPayload),
        with_clock_reads 2 world_with_idle_scanner).
Proof.
  apply (outreach_empty_scan sample_env (config_tone "rude")
           world_with_idle_scanner
           {| scan_for_leads := fun _ => Ok [] |} sample_composer);
    reflexivity.
Defined.

(** X23: when the full outreach scan has found leads and the
    [message_tone] of the request is not a tone, the workflow returns an
    unsuccessful envelope with the message of the [ValueError] and the time
    spent; no message is composed, the run is not counted, and only the
    clock has been read, twice. *)
Theorem full_outreach_invalid_tone (env : Env) (config : Config) (w : World)
    (scanner : LeadScannerAgent) (composer : OutreachComposerAgent)
    (lead : ScannedLead) (leads : list ScannedLead) :
  lead_scanner w = Some scanner ->
  outreach_composer w = Some composer ->
  scan_for_leads scanner (full_outreach_criteria config)
    = Ok (lead :: leads) ->
  tone_of_value env (default "formal" (cfg_message_tone config)) = None ->
  _execute_full_outreach_workflow env config w
  = (Ok (Envelope.workflow_failure
           ("'" ++ default "formal" (cfg_message_tone config)
              ++ "' is not a valid ToneStyle")%string
           "full_outreach"
           (Some (total_seconds (clock env (S (clock_reads w))
                                 - clock env (clock_reads w))))),
     with_clock_reads (2 + clock_reads w) w).
Proof.
  intros Hscanner Hcomposer Hscan Htone.
  unfold _execute_full_outreach_workflow, now, utcnow.
  unfold bind at 1. cbn [fst snd].
  unfold try_catch, bind at 1, gets.
  cbn [fst snd lead_scanner outreach_composer with_clock_reads].
  rewrite Hscanner, Hcomposer. fold (full_outreach_criteria config).
  rewrite Hscan. unfold bind at 1, lift_result. cbn [fst snd].
  unfold bind at 1, tone_style. rewrite Htone.
  unfold raise, bind, ret. cbn [fst snd]. reflexivity.
Qed.

Lemma full_outreach_invalid_tone_witness :
  _execute_full_outreach_workflow sample_env (config_tone "rude")
    world_with_agents
  = (Ok (Envelope.workflow_failure "'rude' is not a valid ToneStyle"
           "full_outreach"
           (Some (total_seconds (clock sample_env 1 - clock sample_env 0)))),
     with_clock_reads 2 world_with_agents).
Proof.
  apply (full_outreach_invalid_tone sample_env (config_tone "rude")
           world_with_agents sample_scanner sample_composer
           sample_scanned_lead []); reflexivity.
Defined.

(** ** The full outreach campaign *)

Lemma campaign_loop_run composer outreach_config leads : forall w acc,
  exists w' acc',
    for_each leads (campaign_round composer outreach_config) (w, acc)
    = (Ok tt, (w', acc'))
    /\ campaign_messages acc'
       = campaign_messages acc ++ campaign_of composer outreach_config leads
    /\ counts_messages
         (len (campaign_of composer outreach_config leads)) w w'.
Proof.
  induction leads as [|lead rest IH]; intros w acc.
  - exists w, acc. cbn [for_each campaign_of flat_map]. rewrite app_nil_r.
    split; [reflexivity|]. split; [reflexivity|]. unfold counts_messages.
    split; [apply same_store_refl|]. split; [reflexivity|].
    split; [cbn; lia|reflexivity].
  - cbn [for_each campaign_of flat_map]. unfold bind at 1.
    unfold campaign_round at 1, try_catch, bind, lift_result.
    destruct (compose_outreach composer lead outreach_config)
      as [message|e].
    + cbn [fst snd on_local on_self update_metrics_field modify].
      match goal with
      | |- context [for_each rest _ (?w1, ?acc1)] =>
          destruct (IH w1 acc1) as (w' & acc' & Hrun & Hmsgs & Hcount)
      end.
      exists w', acc'. split; [exact Hrun|]. split.
      * rewrite Hmsgs. cbn [campaign_messages]. rewrite <- app_assoc.
        reflexivity.
      * destruct Hcount as (Hstore & Hclock & Hmc & Hrest).
        unfold counts_messages, same_store in *. cbn in Hstore, Hclock, Hmc.
        split; [exact Hstore|]. split; [exact Hclock|]. split.
        -- rewrite Hmc. unfold len. rewrite length_app. cbn [List.length].
           fold (campaign_of composer outreach_config rest). lia.
        -- intros v. rewrite Hrest. reflexivity.
    + cbn [fst snd ret app].
      destruct (IH w acc) as (w' & acc' & Hrun & Hmsgs & Hcount).
      exists w', acc'. split; [exact Hrun|]. split; assumption.
Qed.

Lemma campaign_of_length composer outreach_config leads :
  (len (campaign_of composer outreach_config leads) <= len leads)%Z.
Proof.
  unfold len. apply inj_le.
  induction leads as [|lead rest IH]; [cbn; lia|].
  cbn [campaign_of flat_map]. rewrite length_app.
  fold (campaign_of composer outreach_config rest). cbn [List.length].
  destruct (compose_outreach composer lead outreach_config);
    cbn [List.length]; lia.
Qed.

(** X24: when the full outreach scan finds leads and the tone is
    valid, a message is composed for each lead; a lead whose composition
    fails is skipped. The campaign summary gives the number of scanned leads
    and the number of composed messages, which is at most the former; the
    envelope shows the first five messages and has no [leads_found] of its
    own. The metrics count every composed message, every scanned lead as
    qualified and the run. When no message could be composed the campaign
    is still a success, with both averages and the estimated responses 0. *)
Theorem full_outreach_accounting (env : Env) (config : Config) (w : World)
    (scanner : LeadScannerAgent) (composer : OutreachComposerAgent)
    (lead : ScannedLead) (leads : list ScannedLead) (tone : ToneStyle) :
  lead_scanner w = Some scanner ->
  outreach_composer w = Some composer ->
  scan_for_leads scanner (full_outreach_criteria config)
    = Ok (lead :: leads) ->
  tone_of_value env (default "formal" (cfg_message_tone config))
    = Some tone ->
  let messages :=
    campaign_of composer (sender_config config tone "moderate")
      (lead :: leads) in
  exists envelope w' summary next_steps,
    _execute_full_outreach_workflow env config w = (Ok envelope, w')
    /\ Envelope.success envelope = Some true
    /\ Envelope.leads_found envelope = None
    /\ Envelope.campaign_summary envelope = Some summary
    /\ Envelope.payload envelope
       = CampaignPayload (firstn 5 messages) next_steps
    /\ cs_leads_found summary = len (lead :: leads)
    /\ cs_messages_generated summary = len messages
    /\ (len messages <= len (lead :: leads))%Z
    /\ DepartmentMetrics.messages_composed (metrics w')
       = (DepartmentMetrics.messages_composed (metrics w) + len messages)%Z
    /\ DepartmentMetrics.leads_qualified (metrics w')
       = (DepartmentMetrics.leads_qualified (metrics w)
          + len (lead :: leads))%Z
    /\ DepartmentMetrics.total_workflows_executed (metrics w')
       = (DepartmentMetrics.total_workflows_executed (metrics w) + 1)%Z
    /\ match messages with
       | [] =>
           DepartmentMetrics.personalization_score (metrics w') = 0%Q
           /\ DepartmentMetrics.response_rate (metrics w') = 0%Q
           /\ cs_estimated_responses summary = 0%Z
       | _ :: _ => True
       end
    /\ same_store w w'.
Proof.
  intros Hscanner Hcomposer Hscan Htone. cbv zeta.
  pose proof (campaign_of_length composer
                (sender_config config tone "moderate") (lead :: leads))
    as Hlen.
  remember (campaign_of composer (sender_config config tone "moderate")
              (lead :: leads)) as messages eqn:Hmessages.
  unfold _execute_full_outreach_workflow, now, utcnow.
  unfold bind at 1. cbn [fst snd].
  unfold try_catch, bind at 1, gets.
  cbn [fst snd lead_scanner outreach_composer with_clock_reads].
  rewrite Hscanner, Hcomposer. fold (full_outreach_criteria config).
  rewrite Hscan. unfold bind at 1, lift_result. cbn [fst snd].
  unfold bind at 1, tone_style. rewrite Htone. unfold ret at 1.
  cbn [fst snd]. unfold bind at 1, with_local.
  destruct (campaign_loop_run composer
              (sender_config config tone "moderate") (lead :: leads)
              (with_clock_reads (S (clock_reads w)) w)
              {| campaign_messages := []; total_personalization := 0;
                 total_response_rate := 0 |})
    as (w1 & acc & Hloop & Hmsgs & Hstore & Hclock & Hmc & Hrest).
  change (for_each (lead :: leads) _ (?s, ?a))
    with (for_each (lead :: leads)
            (campaign_round composer (sender_config config tone "moderate"))
            (s, a)).
  rewrite Hloop. cbn [fst snd]. cbn [campaign_messages app] in Hmsgs.
  rewrite <- Hmessages in Hmsgs, Hmc. rewrite Hmsgs. clear Hmessages Hloop.
  pose proof (Hrest 0%Z) as Hzero.
  unfold same_store in Hstore. cbn in Hstore, Hclock, Hmc.
  destruct messages as [|message rest].
  - unfold bind, update_metrics_field, modify, gets, ret.
    cbn [fst snd]. do 4 eexists. split; [reflexivity|].
    cbn [Envelope.success Envelope.leads_found Envelope.campaign_summary
         Envelope.payload cs_leads_found cs_messages_generated
         cs_estimated_responses].
    repeat (split; [reflexivity|]).
    split; [exact Hlen|]. unfold same_store. cbn.
    split; [exact Hmc|].
    split; [f_equal;
            exact (f_equal DepartmentMetrics.leads_qualified Hzero)|].
    split; [f_equal;
            exact (f_equal DepartmentMetrics.total_workflows_executed
                     Hzero)|].
    split; [repeat split; reflexivity|]. exact Hstore.
  - unfold truediv_float.
    rewrite inject_Z_nonzero
      by (unfold len; cbn [List.length]; lia).
    unfold bind, update_metrics_field, modify, gets, ret.
    cbn [fst snd]. do 4 eexists. split; [reflexivity|].
    cbn [Envelope.success Envelope.leads_found Envelope.campaign_summary
         Envelope.payload cs_leads_found cs_messages_generated
         cs_estimated_responses].
    repeat (split; [reflexivity|]).
    split; [exact Hlen|]. unfold same_store. cbn.
    split; [exact Hmc|].
    split; [f_equal;
            exact (f_equal DepartmentMetrics.leads_qualified Hzero)|].
    split; [f_equal;
            exact (f_equal DepartmentMetrics.total_workflows_executed
                     Hzero)|].
    split; [exact I|]. exact Hstore.
Qed.

Lemma full_outreach_accounting_witness :
  let messages :=
    campaign_of sample_composer
      (sender_config empty_config FORMAL "moderate") [sample_scanned_lead] in
  exists envelope w' summary next_steps,
    _execute_full_outreach_workflow sample_env empty_config world_with_agents
    = (Ok envelope, w')
    /\ Envelope.success envelope = Some true
    /\ Envelope.leads_found envelope = None
    /\ Envelope.campaign_summary envelope = Some summary
    /\ Envelope.payload envelope
       = CampaignPayload (firstn 5 messages) next_steps
    /\ cs_leads_found summary = len [sample_scanned_lead]
    /\ cs_messages_generated summary = len messages
    /\ (len messages <= len [sample_scanned_lead])%Z
    /\ DepartmentMetrics.messages_composed (metrics w')
       = (DepartmentMetrics.messages_composed (metrics world_with_agents)
          + len messages)%Z
    /\ DepartmentMetrics.leads_qualified (metrics w')
       = (DepartmentMetrics.leads_qualified (metrics world_with_agents)
          + len [sample_scanned_lead])%Z
    /\ DepartmentMetrics.total_workflows_executed (metrics w')
       = (DepartmentMetrics.total_workflows_executed
            (metrics world_with_agents) + 1)%Z
    /\ match messages with
       | [] =>
           DepartmentMetrics.personalization_score (metrics w') = 0%Q
           /\ DepartmentMetrics.response_rate (metrics w') = 0%Q
           /\ cs_estimated_responses summary = 0%Z
       | _ :: _ => True
       end
    /\ same_store world_with_agents w'.
Proof.
  apply (full_outreach_accounting sample_env empty_config world_with_agents
           sample_scanner sample_composer sample_scanned_lead [] FORMAL);
    reflexivity.
Defined.

(** ** What no workflow undoes *)

Create HintDb steps.

Section Steps.
Context {S : Type} (R : S -> S -> Prop).
Hypothesis HR : preorder R.

Lemma steps_ret {A} (a : A) : steps R (ret a).
Proof. intros s. apply HR. Qed.

Lemma steps_raise {A} e : steps R (@raise S A e).
Proof. intros s. apply HR. Qed.

Lemma steps_gets {A} (f : S -> A) : steps R (gets f).
Proof. intros s. apply HR. Qed.

Lemma steps_lift_result {A} (r : result A) : steps R (lift_result r).
Proof. intros s. apply HR. Qed.

Lemma steps_modify (f : S -> S) :
  (forall s, R s (f s)) -> steps R (modify f).
Proof. intros Hf s. apply Hf. Qed.

Lemma steps_bind {A B} (c : M S A) (k : A -> M S B) :
  steps R c -> (forall a, steps R (k a)) -> steps R (bind c k).
Proof.
  intros Hc Hk s. unfold bind. specialize (Hc s).
  destruct (c s) as [[a|e] s1]; cbn [snd] in *; [|exact Hc].
  destruct HR as [_ Htrans]. apply (Htrans _ s1); [exact Hc|apply Hk].
Qed.

Lemma steps_try_catch {A} (c : M S A) (h : exn -> M S A) :
  steps R c -> (forall e, steps R (h e)) -> steps R (try_catch c h).
Proof.
  intros Hc Hh s. unfold try_catch. specialize (Hc s).
  destruct (c s) as [[a|e] s1]; cbn [snd] in *; [exact Hc|].
  destruct HR as [_ Htrans]. apply (Htrans _ s1); [exact Hc|apply Hh].
Qed.

Lemma steps_for_each {A} (xs : list A) (body : A -> M S unit) :
  (forall x, steps R (body x)) -> steps R (for_each xs body).
Proof.
  intros Hbody. induction xs as [|x xs IH]; cbn [for_each].
  - apply steps_ret.
  - apply steps_bind; [apply Hbody|intros _; exact IH].
Qed.

Lemma on_fst_preorder {L} : preorder (@on_fst S L R).
Proof.
  destruct HR as [Hrefl Htrans]. split; unfold on_fst.
  - intros s. apply Hrefl.
  - intros a b c. apply Htrans.
Qed.

Lemma steps_on_self {L A} (c : M S A) :
  steps R c -> steps (@on_fst S L R) (on_self c).
Proof.
  intros Hc [s l]. unfold on_self, on_fst. cbn [fst snd].
  specialize (Hc s). destruct (c s) as [r s']. exact Hc.
Qed.

Lemma steps_on_local {L} (f : L -> L) :
  steps (@on_fst S L R) (on_local f).
Proof. intros [s l]. unfold on_fst. cbn. apply HR. Qed.

Lemma steps_with_local {L A} (init : L) (c : M (S * L) A) :
  steps (@on_fst S L R) c -> steps R (with_local init c).
Proof.
  intros Hc s. unfold with_local. specialize (Hc (s, init)).
  unfold on_fst in Hc. destruct (c (s, init)) as [r sl]. exact Hc.
Qed.

End Steps.

Lemma same_identity_refl l : same_identity l l.
Proof. unfold same_identity. repeat split; reflexivity. Qed.

Lemma same_identity_trans l1 l2 l3 :
  same_identity l1 l2 -> same_identity l2 l3 -> same_identity l1 l3.
Proof.
  unfold same_identity.
  intros (A1 & A2 & A3 & A4 & A5 & A6 & A7 & A8)
         (B1 & B2 & B3 & B4 & B5 & B6 & B7 & B8).
  repeat split; congruence.
Qed.

Lemma counters_grow_refl m : counters_grow m m.
Proof. unfold counters_grow. repeat split; lia. Qed.

Lemma counters_grow_trans m1 m2 m3 :
  counters_grow m1 m2 -> counters_grow m2 m3 -> counters_grow m1 m3.
Proof.
  unfold counters_grow.
  intros (A1 & A2 & A3 & A4 & A5 & A6 & A7)
         (B1 & B2 & B3 & B4 & B5 & B6 & B7).
  repeat split; try lia; congruence.
Qed.

Lemma extends_refl w : extends w w.
Proof.
  unfold extends.
  do 4 (split; [reflexivity|]). split; [lia|].
  split; [intros a _; apply same_identity_refl|].
  split; [intros key H; exact H|]. split; [intros key H; exact H|].
  split; [exists []; symmetry; apply app_nil_r|].
  split; [apply counters_grow_refl|lia].
Qed.

Lemma extends_trans w1 w2 w3 : extends w1 w2 -> extends w2 w3 -> extends w1 w3.
Proof.
  intros (A1 & A2 & A3 & A4 & A5 & A6 & A7 & A8 & [l1 A9] & A10 & A11)
         (B1 & B2 & B3 & B4 & B5 & B6 & B7 & B8 & [l2 B9] & B10 & B11).
  unfold extends.
  do 4 (split; [congruence|]). split; [lia|].
  split.
  { intros a Ha.
    apply (same_identity_trans _ (heap w2 a)); [apply A6|apply B6]; lia. }
  split; [intros key H; apply B7, A7, H|].
  split; [intros key H; apply B8, A8, H|].
  split; [exists (l1 ++ l2); rewrite B9, A9, app_assoc; reflexivity|].
  split; [apply (counters_grow_trans _ (metrics w2)); assumption|lia].
Qed.

Lemma extends_preorder : preorder extends.
Proof. split; [exact extends_refl|exact extends_trans]. Qed.

#[local] Hint Resolve extends_preorder : steps.
#[local] Hint Resolve on_fst_preorder : steps.

Lemma mem_update_mono {V} key k (f : V -> V) d :
  PyDict.mem key d = true -> PyDict.mem key (PyDict.update k f d) = true.
Proof.
  rewrite !mem_true_iff, keys_update. exact (fun H => H).
Qed.

Lemma steps_utcnow env : steps extends (utcnow env).
Proof.
  intros w. cbn. unfold extends. cbn.
  do 4 (split; [reflexivity|]). split; [lia|].
  split; [intros a _; apply same_identity_refl|].
  split; [intros key H; exact H|]. split; [intros key H; exact H|].
  split; [exists []; symmetry; apply app_nil_r|].
  split; [apply counters_grow_refl|lia].
Qed.

Lemma steps_save_state env : steps extends (self_save_state env).
Proof.
  intros w. unfold self_save_state.
  destruct (save_state env w); apply extends_refl.
Qed.

Lemma steps_update_lead a f :
  (forall l, same_identity l (f l)) -> steps extends (update_lead a f).
Proof.
  intros Hf w. cbn. unfold extends. cbn.
  do 4 (split; [reflexivity|]). split; [lia|].
  split.
  { intros a' _. destruct (Nat.eqb a' a);
      [apply Hf|apply same_identity_refl]. }
  split; [intros key H; exact H|]. split; [intros key H; exact H|].
  split; [exists []; symmetry; apply app_nil_r|].
  split; [apply counters_grow_refl|lia].
Qed.

Lemma steps_new_lead l : steps extends (new_lead l).
Proof.
  intros w. cbn. unfold extends. cbn.
  do 4 (split; [reflexivity|]). split; [lia|].
  split.
  { intros a' Hold. destruct (Nat.eqb_spec a' (next_addr w));
      [lia|apply same_identity_refl]. }
  split; [intros key H; exact H|]. split; [intros key H; exact H|].
  split; [exists []; symmetry; apply app_nil_r|].
  split; [apply counters_grow_refl|lia].
Qed.

Lemma steps_update_metrics f :
  (forall m, counters_grow m (f m)) ->
  steps extends (update_metrics_field f).
Proof.
  intros Hf w. cbn. unfold extends. cbn.
  do 4 (split; [reflexivity|]). split; [lia|].
  split; [intros a _; apply same_identity_refl|].
  split; [intros key H; exact H|]. split; [intros key H; exact H|].
  split; [exists []; symmetry; apply app_nil_r|].
  split; [apply Hf|lia].
Qed.

Lemma steps_store_lead (key : World -> string) (lead : World -> addr) :
  steps extends
    (modify (fun w =>
       with_leads_database
         (PyDict.set (key w) (lead w) (leads_database w)) w)).
Proof.
  intros w. cbn. unfold extends. cbn.
  do 4 (split; [reflexivity|]). split; [lia|].
  split; [intros a _; apply same_identity_refl|].
  split; [intros k H; apply mem_set_mono; exact H|].
  split; [intros k H; exact H|].
  split; [exists []; symmetry; apply app_nil_r|].
  split; [apply counters_grow_refl|lia].
Qed.

Lemma steps_prospects (f : World -> PyDict.t Prospect.t) :
  (forall w key, PyDict.mem key (prospects_pipeline w) = true ->
     PyDict.mem key (f w) = true) ->
  steps extends (modify (fun w => with_prospects_pipeline (f w) w)).
Proof.
  intros Hf w. cbn. unfold extends. cbn.
  do 4 (split; [reflexivity|]). split; [lia|].
  split; [intros a _; apply same_identity_refl|].
  split; [intros k H; exact H|].
  split; [intros k H; apply Hf; exact H|].
  split; [exists []; symmetry; apply app_nil_r|].
  split; [apply counters_grow_refl|lia].
Qed.

Lemma steps_append_meeting (meeting : Meeting.t) :
  steps extends
    (modify (fun w =>
       with_meetings_scheduled (meetings_scheduled w ++ [meeting]) w)).
Proof.
  intros w. cbn. unfold extends. cbn.
  do 4 (split; [reflexivity|]). split; [lia|].
  split; [intros a _; apply same_identity_refl|].
  split; [intros k H; exact H|]. split; [intros k H; exact H|].
  split; [exists [meeting]; reflexivity|].
  split; [apply counters_grow_refl|lia].
Qed.

Ltac counters :=
  intros ?; unfold counters_grow; cbn; unfold len;
  repeat split; try reflexivity; lia.

Ltac grows_using known :=
  repeat first
    [ known
    | apply steps_ret; [auto with steps]
    | apply steps_raise; [auto with steps]
    | apply steps_gets; [auto with steps]
    | apply steps_lift_result; [auto with steps]
    | apply steps_utcnow
    | apply steps_save_state
    | apply steps_new_lead
    | apply steps_update_lead;
        [intros ?; unfold same_identity; repeat split; reflexivity]
    | apply steps_update_metrics; [counters]
    | apply steps_store_lead
    | apply steps_append_meeting
    | apply steps_prospects;
        [intros ? ? ?;
         first [apply mem_set_mono | apply mem_update_mono]; assumption]
    | apply steps_on_local; [auto with steps]
    | apply steps_on_self
    | apply steps_with_local
    | apply steps_bind; [auto with steps | | intros ?]
    | apply steps_try_catch; [auto with steps | | intros ?]
    | apply steps_for_each; [auto with steps | intros ?]
    | match goal with
      | |- steps _ (if ?b then _ else _) => destruct b
      | |- steps _ (match ?x with _ => _ end) => destruct x
      end ].

Ltac grows := grows_using fail.

Lemma steps_nurture_prospects env leads :
  steps extends (nurture_prospects env leads).
Proof.
  unfold nurture_prospects, nurture_prospects_with, nurture_loop,
    nurture_body, nurture_except, contact_step, qualification_step,
    _send_outreach_email, _qualify_lead, get_lead.
  grows.
Qed.

Lemma steps_schedule_meetings env prospects :
  steps extends (schedule_meetings env prospects).
Proof.
  unfold schedule_meetings, schedule_loop, schedule_body, schedule_except,
    _find_available_slot, mark_meeting_scheduled.
  cbv zeta. grows.
Qed.

Lemma steps_report env : steps extends (report_pipeline_status env).
Proof.
  unfold report_pipeline_status, _get_recent_activity,
    _generate_pipeline_recommendations, truediv.
  cbv zeta. grows.
Qed.

Lemma steps_find_new_leads env criteria :
  steps extends (find_new_leads env criteria).
Proof.
  rewrite find_new_leads_unfold. unfold find_round, cycle_index.
  cbv zeta. grows.
Qed.

Lemma steps_lead_generation env config :
  steps extends (_execute_lead_generation_workflow env config).
Proof.
  unfold _execute_lead_generation_workflow, _execute_lead_generation_mock,
    checkpoint_leads, truediv_float, now.
  cbv zeta. grows_using ltac:(apply steps_find_new_leads).
Qed.

Lemma steps_quick_wins env config :
  steps extends (_execute_quick_wins_workflow env config).
Proof.
  unfold _execute_quick_wins_workflow, now. cbv zeta. grows.
Qed.

Lemma steps_full_outreach env config :
  steps extends (_execute_full_outreach_workflow env config).
Proof.
  unfold _execute_full_outreach_workflow, tone_style, truediv_float, now.
  cbv zeta. grows.
Qed.

Lemma steps_lead_nurturing env task :
  steps extends (_execute_lead_nurturing_workflow env task).
Proof.
  unfold _execute_lead_nurturing_workflow. cbv zeta.
  grows_using ltac:(apply steps_nurture_prospects).
Qed.

Lemma steps_meeting_scheduling env task :
  steps extends (_execute_meeting_scheduling_workflow env task).
Proof.
  unfold _execute_meeting_scheduling_workflow. cbv zeta.
  grows_using ltac:(apply steps_schedule_meetings).
Qed.

Lemma steps_pipeline_reporting env task :
  steps extends (_execute_pipeline_reporting_workflow env task).
Proof.
  unfold _execute_pipeline_reporting_workflow.
  grows_using ltac:(apply steps_report).
Qed.

Lemma steps_full_pipeline env task :
  steps extends (_execute_full_pipeline_workflow env task).
Proof.
  unfold _execute_full_pipeline_workflow. cbv zeta.
  apply steps_try_catch; [auto with steps| |intros ?; grows].
  apply steps_bind;
    [auto with steps|apply steps_lead_generation|intros ?].
  apply steps_bind;
    [auto with steps|apply steps_lead_nurturing|intros ?].
  apply steps_bind;
    [auto with steps|apply steps_meeting_scheduling|intros ?].
  apply steps_bind;
    [auto with steps|apply steps_pipeline_reporting|intros ?].
  grows.
Qed.

Lemma steps_dispatch env config : steps extends (dispatch env config).
Proof.
  unfold dispatch.
  repeat match goal with
         | |- steps _ (if ?b then _ else _) => destruct b
         end;
    auto using steps_lead_generation, steps_quick_wins, steps_full_outreach,
      steps_lead_nurturing, steps_meeting_scheduling,
      steps_pipeline_reporting, steps_full_pipeline.
  unfold _execute_mock_workflow. grows.
Qed.

Lemma steps_execute_workflow env depth : forall config,
  steps extends (execute_workflow env depth config).
Proof.
  induction depth as [|depth IH]; intros config; cbn [execute_workflow].
  - grows.
  - apply steps_try_catch; [auto with steps|apply steps_dispatch|intros ?].
    apply steps_try_catch; [auto with steps|apply IH|intros ?]. grows.
Qed.

(** X25: whatever the request and whatever its outcome, a call of
    [execute_workflow] or of [execute_workflow_safe] only adds to the
    department. The session and the agents are the same afterwards; every
    lead object that existed keeps its id, name, email, company, title,
    source, score and creation time; no key leaves the lead database or the
    prospect pipeline; the list of meetings is only appended to; and none
    of the counters [leads_generated], [leads_qualified],
    [messages_composed] and [total_workflows_executed] decreases, while
    [emails_sent], [responses_received] and [meetings_booked] are never
    written. *)
Theorem workflows_only_add (env : Env) (depth : nat) (config : Config)
    (w : World) :
  extends w (snd (execute_workflow env depth config w))
  /\ extends w (snd (execute_workflow_safe env depth config w)).
Proof.
  split.
  - apply steps_execute_workflow.
  - unfold execute_workflow_safe.
    apply steps_try_catch;
      [auto with steps|apply steps_execute_workflow|intros ?; grows].
Qed.

(** X26: the lead generation workflow already counts its run
    and its leads in the metrics. When its result is then recorded with
    [update_metrics], both are counted a second time: [leads_generated] has
    grown by twice the number of scanned leads and
    [total_workflows_executed] by two. *)
Theorem lead_generation_counted_twice (env : Env) (config : Config)
    (w : World) (scanner : LeadScannerAgent) (leads : list ScannedLead) :
  lead_scanner w = Some scanner ->
  scan_for_leads scanner (scan_criteria_of config) = Ok leads ->
  exists envelope w1 w2,
    _execute_lead_generation_workflow env config w = (Ok envelope, w1)
    /\ update_metrics env "lead_generation" envelope w1 = (Ok tt, w2)
    /\ DepartmentMetrics.leads_generated (metrics w2)
       = (DepartmentMetrics.leads_generated (metrics w) + 2 * len leads)%Z
    /\ DepartmentMetrics.total_workflows_executed (metrics w2)
       = (DepartmentMetrics.total_workflows_executed (metrics w) + 2)%Z.
Proof.
  intros Hscanner Hscan.
  destruct (lead_generation_scan_run env config w scanner leads Hscanner
              Hscan)
    as (envelope & w1 & Hrun & _ & Hfound & _ & _ & Hlg & Htotal & _).
  exists envelope, w1.
  unfold update_metrics, bind, update_metrics_field, modify, now, utcnow,
    gets, ret.
  cbn [fst snd metrics with_metrics with_clock_reads clock_reads
       String.eqb Ascii.eqb Bool.eqb
       DepartmentMetrics.total_workflows_executed
       DepartmentMetrics.leads_generated
       DepartmentMetrics.with_leads_generated
       DepartmentMetrics.with_last_execution
       DepartmentMetrics.with_total_workflows_executed].
  rewrite Hfound. cbn [default].
  destruct (Z.ltb_spec 0
              (DepartmentMetrics.total_workflows_executed (metrics w1) + 1))
    as [Hpos|Hneg].
  - rewrite truediv_nonzero by lia.
    eexists. split; [exact Hrun|]. split; [reflexivity|].
    cbn [metrics with_metrics with_clock_reads
         DepartmentMetrics.leads_generated
         DepartmentMetrics.total_workflows_executed
         DepartmentMetrics.with_success_rate
         DepartmentMetrics.with_leads_generated
         DepartmentMetrics.with_last_execution
         DepartmentMetrics.with_total_workflows_executed].
    rewrite Hlg, Htotal. split; lia.
  - eexists. split; [exact Hrun|]. split; [reflexivity|].
    cbn [metrics with_metrics with_clock_reads
         DepartmentMetrics.leads_generated
         DepartmentMetrics.total_workflows_executed
         DepartmentMetrics.with_success_rate
         DepartmentMetrics.with_leads_generated
         DepartmentMetrics.with_last_execution
         DepartmentMetrics.with_total_workflows_executed].
    rewrite Hlg, Htotal. split; lia.
Qed.

Lemma lead_generation_counted_twice_witness :
  exists envelope w1 w2,
    _execute_lead_generation_workflow sample_env empty_config
      world_with_agents = (Ok envelope, w1)
    /\ update_metrics sample_env "lead_generation" envelope w1 = (Ok tt, w2)
    /\ DepartmentMetrics.leads_generated (metrics w2)
       = (DepartmentMetrics.leads_generated (metrics world_with_agents)
          + 2 * len [sample_scanned_lead])%Z
    /\ DepartmentMetrics.total_workflows_executed (metrics w2)
       = (DepartmentMetrics.total_workflows_executed
            (metrics world_with_agents) + 2)%Z.
Proof.
  apply (lead_generation_counted_twice sample_env empty_config
           world_with_agents sample_scanner [sample_scanned_lead]);
    reflexivity.
Defined.

(** *** Two calls within one second *)

Section SameSecond.
Variable env : Env.
Variables titles industries company_sizes : list string.
Variable second : Z.
Hypothesis Hsecond : forall k, timestamp_int (clock env k) = second.

Lemma mock_lead_id_second r r' i :
  Lead.id (mock_lead env titles industries company_sizes r i)
  = Lead.id (mock_lead env titles industries company_sizes r' i).
Proof. cbn [mock_lead Lead.id]. rewrite !Hsecond. reflexivity. Qed.

Lemma store_fold_keys_known indices : forall w,
  (forall i, In i indices ->
     PyDict.mem
       (Lead.id (mock_lead env titles industries company_sizes 0 i))
       (leads_database w) = true) ->
  PyDict.keys
    (leads_database
       (fold_left (store_mock_lead env titles industries company_sizes)
                  indices w))
  = PyDict.keys (leads_database w).
Proof.
  induction indices as [|i rest IH]; intros w Hknown; [reflexivity|].
  cbn [fold_left]. rewrite IH.
  - cbn [store_mock_lead leads_database]. apply keys_set_mem.
    rewrite (mock_lead_id_second _ 0). apply Hknown. left. reflexivity.
  - intros i' Hin. cbn [store_mock_lead leads_database].
    apply mem_set_mono. apply Hknown. right. exact Hin.
Qed.

Lemma store_fold_known indices : forall w i,
  NoDup indices -> In i indices ->
  PyDict.mem
    (Lead.id (mock_lead env titles industries company_sizes 0 i))
    (leads_database
       (fold_left (store_mock_lead env titles industries company_sizes)
                  indices w)) = true.
Proof.
  intros w i Hnodup Hin.
  destruct (In_nth indices i 0%Z Hin) as (k & Hk & Hnth).
  pose proof (store_fold_get_new env titles industries company_sizes
                indices w k Hnodup Hk) as Hget.
  rewrite Hnth in Hget.
  rewrite (mock_lead_id_second _ 0) in Hget.
  unfold PyDict.mem. rewrite Hget. reflexivity.
Qed.

End SameSecond.

(** X27: the id of a generated lead is made of the second of the
    clock and the position in the batch. When [find_new_leads] is called
    twice with the same criteria while the clock shows the same second, the
    second call creates new lead objects under the ids of the first: the
    lead database has the same keys after the second call as after the
    first, and each of these ids now names a lead of the second call. *)
Theorem find_new_leads_same_second (env : Env) (criteria : Criteria)
    (second : Z) (w : World) :
  criteria_titles criteria <> [] ->
  criteria_industries criteria <> [] ->
  criteria_company_sizes criteria <> [] ->
  (forall k, timestamp_int (clock env k) = second) ->
  exists first w1 again w2,
    find_new_leads env criteria w = (Ok first, w1)
    /\ find_new_leads env criteria w1 = (Ok again, w2)
    /\ PyDict.keys (leads_database w2) = PyDict.keys (leads_database w1)
    /\ (next_addr w2
        = next_addr w1 + Z.to_nat (criteria_max_leads criteria))%nat
    /\ (forall a,
          (next_addr w1 <= a < next_addr w2)%nat ->
          PyDict.get (Lead.id (heap w2 a)) (leads_database w2) = Some a
          /\ PyDict.mem (Lead.id (heap w2 a)) (leads_database w1) = true).
Proof.
  intros Ht Hi Hs Hsecond.
  pose proof (find_new_leads_run env criteria w Ht Hi Hs) as Hrun1.
  cbv zeta in Hrun1.
  set (store := store_mock_lead env (criteria_titles criteria)
                  (criteria_industries criteria)
                  (criteria_company_sizes criteria)) in *.
  set (w1 := fold_left store (range (criteria_max_leads criteria)) w) in *.
  pose proof (find_new_leads_run env criteria w1 Ht Hi Hs) as Hrun2.
  cbv zeta in Hrun2. fold store in Hrun2.
  set (w2 := fold_left store (range (criteria_max_leads criteria)) w1) in *.
  do 4 eexists. split; [exact Hrun1|]. split; [exact Hrun2|].
  assert (Hknown : forall i,
            In i (range (criteria_max_leads criteria)) ->
            PyDict.mem
              (Lead.id (mock_lead env (criteria_titles criteria)
                          (criteria_industries criteria)
                          (criteria_company_sizes criteria) 0 i))
              (leads_database w1) = true).
  { intros i Hin. unfold w1, store.
    apply (store_fold_known env _ _ _ second Hsecond);
      [apply range_NoDup|exact Hin]. }
  split.
  { unfold w2, store.
    apply (store_fold_keys_known env _ _ _ second Hsecond). exact Hknown. }
  pose proof (store_fold_frame env (criteria_titles criteria)
                (criteria_industries criteria)
                (criteria_company_sizes criteria)
                (range (criteria_max_leads criteria)) w1) as Hframe.
  cbv zeta in Hframe. fold store in Hframe. fold w2 in Hframe.
  destruct Hframe as (_ & _ & _ & _ & _ & _ & _ & Hnext & _).
  rewrite range_length in Hnext.
  split; [exact Hnext|].
  intros a Ha.
  assert (Hk : exists k, a = (next_addr w1 + k)%nat
                         /\ (k < Z.to_nat (criteria_max_leads criteria))%nat).
  { exists (a - next_addr w1)%nat. lia. }
  destruct Hk as (k & -> & Hk).
  unfold w2, store.
  rewrite store_fold_new_heap by (rewrite range_length; exact Hk).
  split.
  - apply store_fold_get_new;
      [apply range_NoDup | rewrite range_length; exact Hk].
  - rewrite (mock_lead_id_second env _ _ _ second Hsecond _ 0).
    apply Hknown. apply nth_In. rewrite range_length. exact Hk.
Qed.

Lemma find_new_leads_same_second_witness :
  exists first w1 again w2,
    find_new_leads frozen_env empty_criteria empty_world = (Ok first, w1)
    /\ find_new_leads frozen_env empty_criteria w1 = (Ok again, w2)
    /\ PyDict.keys (leads_database w2) = PyDict.keys (leads_database w1)
    /\ (next_addr w2
        = next_addr w1 + Z.to_nat (criteria_max_leads empty_criteria))%nat
    /\ (forall a,
          (next_addr w1 <= a < next_addr w2)%nat ->
          PyDict.get (Lead.id (heap w2 a)) (leads_database w2) = Some a
          /\ PyDict.mem (Lead.id (heap w2 a)) (leads_database w1) = true).
Proof.
  apply (find_new_leads_same_second frozen_env empty_criteria 1700000000
           empty_world); try discriminate.
  intros k. reflexivity.
Defined.

Lemma expected_meetings_same_second env second batch : forall r meeting,
  (forall k, timestamp_int (clock env k) = second) ->
  In meeting (expected_meetings env r batch) ->
  Meeting.id meeting = ("meeting_" ++ PyStr.of_Z second)%string.
Proof.
  induction batch as [|pd rest IH]; intros r meeting Hsecond Hin;
    [contradiction|].
  cbn [expected_meetings In] in Hin. destruct Hin as [<- | Hin].
  - cbn [expected_meeting Meeting.id]. rewrite Hsecond. reflexivity.
  - apply (IH (3 + r)%nat); assumption.
Qed.

Lemma expected_meetings_count env batch : forall r,
  List.length (expected_meetings env r batch) = List.length batch.
Proof.
  induction batch as [|pd rest IH]; intros r; [reflexivity|].
  cbn [expected_meetings List.length]. rewrite IH. reflexivity.
Qed.

(** X28: the id of a meeting is made of the second of the clock
    alone. All the meetings that [schedule_meetings] creates while the
    clock shows the same second, one per entry of the batch, carry the same
    id. *)
Theorem meeting_ids_same_second (env : Env) (batch : list ProspectData)
    (second : Z) (w : World) :
  (forall t, isoformat env t <> "") ->
  (forall k, timestamp_int (clock env k) = second) ->
  exists outcome created w',
    schedule_meetings env batch w = (Ok outcome, w')
    /\ meetings_scheduled w' = meetings_scheduled w ++ created
    /\ List.length created = List.length batch
    /\ forall meeting, In meeting created ->
         Meeting.id meeting = ("meeting_" ++ PyStr.of_Z second)%string.
Proof.
  intros Hiso Hsecond.
  destruct (schedule_meetings_run env batch w Hiso)
    as (res & w' & Hrun & Hm & _).
  do 3 eexists. split; [exact Hrun|]. split; [exact Hm|].
  split; [apply expected_meetings_count|].
  intros meeting Hin.
  apply (expected_meetings_same_second env second batch (clock_reads w));
    assumption.
Qed.

Lemma meeting_ids_same_second_witness :
  exists outcome created w',
    schedule_meetings frozen_env
      [{| pd_prospect_id := Some "lead_1"; pd_meeting_type := None;
          pd_preferred_times := None |};
       {| pd_prospect_id := Some "lead_2"; pd_meeting_type := None;
          pd_preferred_times := None |}] two_prospects_world
    = (Ok outcome, w')
    /\ meetings_scheduled w' = meetings_scheduled two_prospects_world ++ created
    /\ List.length created = 2%nat
    /\ forall meeting, In meeting created ->
         Meeting.id meeting = "meeting_1700000000".
Proof.
  apply (meeting_ids_same_second frozen_env
           [{| pd_prospect_id := Some "lead_1"; pd_meeting_type := None;
               pd_preferred_times := None |};
            {| pd_prospect_id := Some "lead_2"; pd_meeting_type := None;
               pd_preferred_times := None |}] 1700000000
           two_prospects_world).
  - intros t. discriminate.
  - intros k. reflexivity.
Defined.
